(** * Kalman-filter bee tracking: a shallow embedding of [kalman-filter-tracking.py]

    The development follows the structure of the source file:

    - the zone geometry ([ellipse_quad], [check_direction]);
    - the per-frame tracking loop of [track_insects_one_file]
      (predict, associate, update, birth, prune, register);
    - the quality filter and the sort that end a run;
    - the batch driver [track_insects] with its zone guard.

    Numbers are IEEE binary64 values (Rocq's primitive floats), as Python's
    [float] and numpy's [float64] are.  Python integers are [Z].  The numerical
    libraries the program calls (libm's [cos] and [sin], filterpy's
    [KalmanFilter], numpy's [linalg.norm], scipy's [linear_sum_assignment])
    are not part of the repository: they are fields of the classes [MathLib]
    and [TrackLib], and every theorem holds for all their implementations. *)

From Stdlib Require Import ZArith Floats Permutation Sorted.
From stdpp Require Import base option list sorting strings gmap pretty.

Open Scope Z_scope.

(** ** Exceptions and results *)

(** The Python exceptions the modelled code can raise. *)
Inductive exn : Type :=
  | IndexError          (* a list or array subscript out of range *)
  | TypeError           (* subscripting [None], as [ellipse[0]] without a zone *)
  | FileNotFoundError.  (* [pd.read_csv] on a path that does not exist *)

Inductive result (A : Type) : Type :=
  | Ok (a : A)
  | Raise (e : exn).
Arguments Ok {A} a.
Arguments Raise {A} e.

Global Instance result_ret : MRet result := λ A a, Ok a.
Global Instance result_bind : MBind result := λ A B f m,
  match m with
  | Ok a => f a
  | Raise e => Raise e
  end.

Global Instance result_fmap : FMap result := λ A B f m,
  match m with
  | Ok a => Ok (f a)
  | Raise e => Raise e
  end.

(** A subscript [l[i]] of a Python list. *)
Definition subscript {A} (l : list A) (i : nat) : result A :=
  match l !! i with
  | Some a => Ok a
  | None => Raise IndexError
  end.

(** ** Points, zones and labels *)

(** A point: a row [[center_x, center_y]] of the detections array. *)
Definition Obs : Type := (float * float)%type.

(** An ellipse [((h, k), (w, l), theta)]: centre, full axis lengths and
    rotation in degrees. *)
Record Zone : Type := mkZone {
  center : float * float;
  axes : float * float;
  rotation_degrees : float
}.

(** The strings [ellipse_quad] returns. *)
Inductive Quadrant : Type :=
  | upper_left | upper_right | lower_left | lower_right | quad_outside.

(** The strings [check_direction] returns, the keys of the counter. *)
Inductive Direction : Type :=
  | inside | enter | exit | outside.

Global Instance Quadrant_eq_dec : EqDecision Quadrant.
Proof. solve_decision. Defined.
Global Instance Direction_eq_dec : EqDecision Direction.
Proof. solve_decision. Defined.
Global Instance exn_eq_dec : EqDecision exn.
Proof. solve_decision. Defined.

(** libm, as Python's [math] module exposes it. *)
Class MathLib : Type := {
  cos : float → float;
  sin : float → float
}.

Section Geometry.
Context {mathlib : MathLib}.
Local Open Scope float_scope.

(** [math.radians]: CPython multiplies by the constant [pi / 180]. *)
Definition radians (x : float) : float := x * (0x1.921fb54442d18p+1 / 180).

(** [x ** 2] on a float. *)
Definition sq (x : float) : float := x * x.

(** [ellipse_quad], lines 293-328.  [None] as the zone is the value
    [self.ellipse] has when no zone is registered: [ellipse[0]] then raises.
    The inner [None] of the result is Python's implicit [return None] when
    no branch of the chain returns. *)
Definition ellipse_quad (pos : Obs) (ellipse : option Zone)
    : result (option Quadrant) :=
  match ellipse with
  | None => Raise TypeError
  | Some ellipse =>
    let '(x, y) := pos in
    let '(h, k) := center ellipse in
    let a := (axes ellipse).1 / 2 in
    let b := (axes ellipse).2 / 2 in
    let theta := radians (rotation_degrees ellipse) in
    let xp := x - h in
    let yp := y - k in
    let x_rot := xp * cos (- theta) - yp * sin (- theta) in
    let y_rot := xp * sin (- theta) + yp * cos (- theta) in
    let inside_ellipse := (sq x_rot / sq a) + (sq y_rot / sq b) <=? 1 in
    if inside_ellipse then
      if (y_rot <=? 0) && (x_rot <=? 0) then Ok (Some upper_right)
      else if (y_rot <=? 0) && (0 <=? x_rot) then Ok (Some lower_right)
      else if (0 <=? y_rot) && (x_rot <=? 0) then Ok (Some upper_left)
      else if (0 <=? y_rot) && (0 <=? x_rot) then Ok (Some lower_left)
      else Ok None
    else Ok (Some quad_outside)
  end.

(** The local helper [is_inside] of [check_direction]. *)
Definition is_inside (quad : option Quadrant) : bool :=
  bool_decide (quad = Some upper_left) || bool_decide (quad = Some upper_right).

(** [check_direction], lines 330-350. *)
Definition check_direction (start end_ : Obs) (ellipse : option Zone)
    : result Direction :=
  start_quad ← ellipse_quad start ellipse;
  end_quad ← ellipse_quad end_ ellipse;
  let start_inside := is_inside start_quad in
  let end_inside := is_inside end_quad in
  if start_inside && end_inside then Ok inside
  else if start_inside && negb end_inside then Ok exit
  else if negb start_inside && end_inside then Ok enter
  else Ok outside.

End Geometry.


(** ** The tracker's data *)

(** One row of the detections table [self.df]: the three columns the
    program reads. *)
Record Row : Type := mkRow {
  video_frame_id : Z;
  center_x : float;
  center_y : float
}.

Definition DataFrame : Type := list Row.

(** filterpy, numpy and scipy, as [track_insects_one_file] uses them. *)
Class TrackLib : Type := {
  (** the state of a [filterpy.kalman.KalmanFilter] object *)
  KalmanFilter : Type;
  (** lines 209-221 and 259-265: a filter that takes [F], [H], [P], [R], [Q]
      from the template built with the two noise levels, and starts at
      [x = [obs[0], obs[1], 0, 0]] *)
  kf_new : float → float → Obs → KalmanFilter;
  (** [kf.predict()] *)
  predict : KalmanFilter → KalmanFilter;
  (** [kf.update(z)] *)
  update : KalmanFilter → Obs → KalmanFilter;
  (** [kf.x[:2]] *)
  kf_x : KalmanFilter → Obs;
  (** [np.linalg.norm(p - q)] *)
  norm_diff : Obs → Obs → float;
  (** [scipy.optimize.linear_sum_assignment]: row and column indices.  The
      function is total here; scipy raises on a matrix with an entry that
      is not a number, which a run builds only from a filter state that is
      not a number *)
  linear_sum_assignment : list (list float) → list nat * list nat
}.

(** What scipy documents of [linear_sum_assignment] on an [n] by [m] matrix:
    the two index arrays have the same length, stay in range, and pair every
    row and every column at most once. *)
Definition valid_assignment {tracklib : TrackLib} : Prop :=
  ∀ (cost_matrix : list (list float)) (m : nat),
    Forall (λ row, length row = m) cost_matrix →
    let '(rows, cols) := linear_sum_assignment cost_matrix in
    length rows = length cols ∧
    Forall (λ i, (i < length cost_matrix)%nat) rows ∧
    Forall (λ j, (j < m)%nat) cols ∧
    NoDup rows ∧ NoDup cols.

Section Tracker.
Context {tracklib : TrackLib}.

(** A track: the dict built at line 266.  [id] is written [id_]. *)
Record Track : Type := mkTrack {
  kf : KalmanFilter;
  id_ : Z;
  last_seen : Z;
  positions : list Obs;
  distance : float;
  frame_ids : list Z
}.

(** The default of a total lookup [h !!! a]; the references of the lists
    are always in range (see [wf]), so it is never read. *)
Global Instance Track_inhabited : Inhabited Track :=
  populate (mkTrack (kf_new 0 0 (0%float, 0%float)) 0 0 [] 0 []).

(** The configuration the run reads from [self]. *)
Record Params : Type := mkParams {
  process_noise : float;
  measurement_noise : float;
  (** [float(self.distance_threshold)] *)
  distance_threshold : float;
  (** [int(self.max_frames_before_death)] *)
  max_frames_before_death : Z
}.

(** The local variables of the frame loop.  The track dicts are shared
    between the lists [tracks] and [all_tracks]: both lists hold references,
    and a reference is the index of the dict in [heap], the store of every
    dict allocated so far, in allocation order. *)
Record LoopState : Type := mkLoop {
  heap : list Track;
  tracks : list nat;
  all_tracks : list nat;
  track_id : Z
}.

(** Lines 223-225. *)
Definition loop_init : LoopState := mkLoop [] [] [] 0.

(** A loop whose body can raise. *)
Fixpoint foldlM {A B : Type} (f : B → A → result B) (b : B) (l : list A)
    : result B :=
  match l with
  | [] => Ok b
  | x :: l => b' ← f b x; foldlM f b' l
  end.

(** Line 227: the rows of the frame, in table order. *)
Definition observations_of (df : DataFrame) (frame : Z) : list Obs :=
  (λ r, (center_x r, center_y r)) <$> filter (λ r, video_frame_id r = frame) df.

(** Lines 230-232, the body and the loop. *)
Definition predicted (t : Track) : Track :=
  mkTrack (predict (kf t)) (id_ t) (last_seen t + 1)
          (positions t) (distance t) (frame_ids t).

Definition predict_all (h : list Track) (tracks : list nat) : list Track :=
  foldl (λ h a, alter predicted a h) h tracks.

(** Lines 235-238. *)
Definition cost_matrix_of (h : list Track) (tracks : list nat)
    (observations : list Obs) : list (list float) :=
  (λ a, (λ obs, norm_diff (kf_x (kf (h !!! a))) obs) <$> observations) <$> tracks.

(** Lines 248-252: what an accepted match does to the track. *)
Definition matched (frame : Z) (obs : Obs) (c : float) (t : Track) : Track :=
  mkTrack (update (kf t) obs) (id_ t) 0
          (positions t ++ [obs]) (distance t + c)%float (frame_ids t ++ [frame]).

(** Lines 246-254: the body of the loop over the proposed pairs.  The state
    is the store and the sets [assigned_tracks], [assigned_observations]. *)
Definition assign_one (distance_threshold : float) (frame : Z)
    (tracks : list nat) (observations : list Obs)
    (cost_matrix : list (list float))
    (st : list Track * gset nat * gset nat) (ij : nat * nat)
    : result (list Track * gset nat * gset nat) :=
  let '(h, assigned_tracks, assigned_observations) := st in
  let '(i, j) := ij in
  row ← subscript cost_matrix i;
  c ← subscript row j;
  if (c <? distance_threshold)%float then
    a ← subscript tracks i;
    obs ← subscript observations j;
    Ok (alter (matched frame obs c) a h,
        assigned_tracks ∪ {[ i ]}, assigned_observations ∪ {[ j ]})
  else Ok st.

(** Line 266. *)
Definition new_track (p : Params) (frame : Z) (obs : Obs) (track_id : Z)
    : Track :=
  mkTrack (kf_new (process_noise p) (measurement_noise p) obs)
          track_id 0 [obs] 0 [frame].

(** Lines 257-267: the body of the loop over the detections.  The state is
    the store, the list [tracks] and the counter [track_id]. *)
Definition birth (p : Params) (frame : Z) (observations : list Obs)
    (assigned_observations : gset nat)
    (st : list Track * list nat * Z) (j : nat)
    : result (list Track * list nat * Z) :=
  let '(h, tracks, track_id) := st in
  if decide (j ∈ assigned_observations) then Ok st
  else
    obs ← subscript observations j;
    Ok (h ++ [new_track p frame obs track_id],
        tracks ++ [length h], track_id + 1).

(** Lines 272-275: the body of the registration loop. *)
Definition register (h : list Track) (all_tracks : list nat) (a : nat)
    : list nat :=
  if decide (id_ (h !!! a) ∈ (λ b, id_ (h !!! b)) <$> all_tracks)
  then all_tracks
  else all_tracks ++ [a].

(** Lines 227-275: one iteration of the frame loop. *)
Definition frame_step (p : Params) (df : DataFrame) (st : LoopState)
    (frame : Z) : result LoopState :=
  let observations := observations_of df frame in
  let h1 := predict_all (heap st) (tracks st) in
  let cost_matrix := cost_matrix_of h1 (tracks st) observations in
  let '(track_indices, observation_indices) :=
    linear_sum_assignment cost_matrix in
  '(h2, _, assigned_observations) ←
    foldlM (assign_one (distance_threshold p) frame (tracks st)
                       observations cost_matrix)
           (h1, ∅, ∅) (zip track_indices observation_indices);
  '(h3, tracks3, track_id3) ←
    foldlM (birth p frame observations assigned_observations)
           (h2, tracks st, track_id st) (seq 0 (length observations));
  let tracks4 :=
    filter (λ a, last_seen (h3 !!! a) ≤ max_frames_before_death p) tracks3 in
  let all_tracks5 := foldl (register h3) (all_tracks st) tracks4 in
  Ok (mkLoop h3 tracks4 all_tracks5 track_id3).

(** Lines 226-275 over a list of frames; the run uses
    [range(start_frame, end_frame + 1)]. *)
Definition frame_loop (p : Params) (df : DataFrame) (st : LoopState)
    (frames : list Z) : result LoopState :=
  foldlM (frame_step p df) st frames.

Definition frame_range (start_frame end_frame : Z) : list Z :=
  seqZ start_frame (end_frame + 1 - start_frame).

(** [sorted(l, key=..., reverse=True)].  CPython reverses the list, runs its
    stable ascending sort, and reverses the result; the stable sort is
    written here as an insertion sort. *)
Fixpoint insert_by {A : Type} (key : A → nat) (x : A) (l : list A) : list A :=
  match l with
  | [] => [x]
  | y :: l' =>
    if decide (key x ≤ key y)%nat then x :: l else y :: insert_by key x l'
  end.

Definition stable_sort {A : Type} (key : A → nat) (l : list A) : list A :=
  foldr (insert_by key) [] l.

Definition sorted_reverse {A : Type} (key : A → nat) (l : list A) : list A :=
  reverse (stable_sort key (reverse l)).

(** Line 277: the test of the quality filter. *)
Definition good_track (t : Track) : Prop :=
  (5 < length (positions t))%nat ∧ (100 <? distance t)%float = true.

Global Instance good_track_dec (t : Track) : Decision (good_track t).
Proof. unfold good_track. apply _. Defined.

(** The list [all_tracks] as the dicts it refers to. *)
Definition registry (st : LoopState) : list Track :=
  (λ a, heap st !!! a) <$> all_tracks st.

(** Lines 277-279. *)
Definition filter_and_sort (st : LoopState) : list Track :=
  sorted_reverse (λ t, length (positions t)) (filter good_track (registry st)).

End Tracker.

(** ** The associations of a frame

    Names for what one iteration of the frame loop decides, taken from the
    same cost matrix and the same assignment as [frame_step]: the pairs the
    assignment proposes, the matches the threshold accepts, the detections
    that start a track. *)

Section Associations.
Context {tracklib : TrackLib}.

(** A proposed pair with what the loop body reads for it: the row [i] and
    the column [j], the cost [cost_matrix[i, j]], the reference [tracks[i]]
    and the detection [observations[j]]. *)
Record Match : Type := mkMatch {
  m_i : nat;
  m_j : nat;
  m_cost : float;
  m_track : nat;
  m_obs : Obs
}.

(** The cost matrix of the frame: lines 230-238 on the state the frame
    starts from. *)
Definition frame_costs (df : DataFrame) (st : LoopState) (frame : Z)
    : list (list float) :=
  cost_matrix_of (predict_all (heap st) (tracks st)) (tracks st)
                 (observations_of df frame).

(** Line 241 and the [zip] of line 246. *)
Definition proposed (df : DataFrame) (st : LoopState) (frame : Z)
    : list (nat * nat) :=
  let '(track_indices, observation_indices) :=
    linear_sum_assignment (frame_costs df st frame) in
  zip track_indices observation_indices.

Definition resolve (df : DataFrame) (st : LoopState) (frame : Z)
    (ij : nat * nat) : option Match :=
  row ← frame_costs df st frame !! ij.1;
  c ← row !! ij.2;
  a ← tracks st !! ij.1;
  obs ← observations_of df frame !! ij.2;
  Some (mkMatch ij.1 ij.2 c a obs).

Definition proposed_matches (df : DataFrame) (st : LoopState) (frame : Z)
    : list Match :=
  omap (resolve df st frame) (proposed df st frame).

(** Line 247: the test that accepts a proposed pair. *)
Definition below_threshold (p : Params) (m : Match) : Prop :=
  (m_cost m <? distance_threshold p)%float = true.

Global Instance below_threshold_dec p m : Decision (below_threshold p m).
Proof. unfold below_threshold. apply _. Defined.

Definition accepted (p : Params) (df : DataFrame) (st : LoopState)
    (frame : Z) : list Match :=
  filter (below_threshold p) (proposed_matches df st frame).

(** Line 258: the detections, with their index, that no accepted match
    consumed, in the order of the loop. *)
Definition births (p : Params) (df : DataFrame) (st : LoopState)
    (frame : Z) : list (nat * Obs) :=
  let observations := observations_of df frame in
  filter (λ jo, jo.1 ∉ m_j <$> accepted p df st frame)
         (zip (seq 0 (length observations)) observations).

(** The track dicts the frame allocates, in order. *)
Definition newborn (p : Params) (df : DataFrame) (st : LoopState)
    (frame : Z) : list Track :=
  imap (λ k jo, new_track p frame jo.2 (track_id st + Z.of_nat k))
       (births p df st frame).

(** The active track at address [a] receives an accepted match. *)
Definition matched_in_frame (p : Params) (df : DataFrame) (st : LoopState)
    (frame : Z) (a : nat) : Prop :=
  ∃ m, m ∈ accepted p df st frame ∧ m_track m = a.

Global Instance matched_in_frame_dec p df st frame a :
  Decision (matched_in_frame p df st frame a).
Proof.
  refine (cast_if (decide (a ∈ m_track <$> accepted p df st frame)));
    unfold matched_in_frame; rewrite list_elem_of_fmap in *.
  - destruct e as (m & -> & Hm). eauto.
  - intros (m & Hm & <-). apply n. eauto.
Defined.

(** The state between two frames that the loop maintains. *)
Record wf (p : Params) (st : LoopState) : Prop := mkWf {
  wf_ids : ∀ a t, heap st !! a = Some t → id_ t = Z.of_nat a;
  wf_next : track_id st = Z.of_nat (length (heap st));
  wf_tracks_sorted : StronglySorted lt (tracks st);
  wf_tracks_valid : Forall (λ a, (a < length (heap st))%nat) (tracks st);
  wf_all_sorted : StronglySorted lt (all_tracks st);
  wf_all_valid : Forall (λ a, (a < length (heap st))%nat) (all_tracks st);
  wf_tracks_all : tracks st ⊆ all_tracks st;
  wf_alive :
    Forall (λ a, last_seen (heap st !!! a) ≤ max_frames_before_death p)
           (tracks st);
  wf_last_seen : Forall (λ t, 0 ≤ last_seen t) (heap st);
  wf_positions :
    Forall (λ t, positions t ≠ [] ∧
                 length (positions t) = length (frame_ids t)) (heap st);
  wf_registered :
    0 ≤ max_frames_before_death p →
    all_tracks st = seq 0 (length (heap st))
}.

(** Lines 248-252 for an accepted match: the track it updates and how. *)
Definition match_update (frame : Z) (m : Match) : nat * (Track → Track) :=
  (m_track m, matched frame (m_obs m) (m_cost m)).

(** Tracks updated in place, one after the other. *)
Definition alter_all (upds : list (nat * (Track → Track))) (h : list Track)
    : list Track :=
  foldl (λ h af, alter af.2 af.1 h) h upds.

(** The store after the predict loop and the update loop of the frame,
    lines 230-254. *)
Definition heap_after_update (p : Params) (df : DataFrame) (st : LoopState)
    (frame : Z) : list Track :=
  alter_all (match_update frame <$> accepted p df st frame)
            (predict_all (heap st) (tracks st)).

(** The store and the active list after the whole iteration. *)
Definition heap_after_frame (p : Params) (df : DataFrame) (st : LoopState)
    (frame : Z) : list Track :=
  heap_after_update p df st frame ++ newborn p df st frame.

Definition tracks_after_frame (p : Params) (df : DataFrame) (st : LoopState)
    (frame : Z) : list nat :=
  filter (λ a, last_seen (heap_after_frame p df st frame !!! a)
               ≤ max_frames_before_death p)
         (tracks st ++ seq (length (heap st)) (length (births p df st frame))).

End Associations.

(** ** One run: [track_insects_one_file] *)

(** The dict [counter]. *)
Record Counter : Type := mkCounter {
  n_inside : Z;
  n_enter : Z;
  n_exit : Z;
  n_outside : Z
}.

Definition counter_zero : Counter := mkCounter 0 0 0 0.

(** [counter[track_direction] += 1]. *)
Definition count (c : Counter) (d : Direction) : Counter :=
  match d with
  | inside => mkCounter (n_inside c + 1) (n_enter c) (n_exit c) (n_outside c)
  | enter => mkCounter (n_inside c) (n_enter c + 1) (n_exit c) (n_outside c)
  | exit => mkCounter (n_inside c) (n_enter c) (n_exit c + 1) (n_outside c)
  | outside => mkCounter (n_inside c) (n_enter c) (n_exit c) (n_outside c + 1)
  end.

(** The number of tracks counted. *)
Definition counter_total (c : Counter) : Z :=
  n_inside c + n_enter c + n_exit c + n_outside c.

Section Run.
Context {mathlib : MathLib} {tracklib : TrackLib}.

(** Line 288: the direction of one track, from its first and its last
    position ([positions[0]] and [positions[-1]]). *)
Definition track_direction (ellipse : option Zone) (track : Track)
    : result Direction :=
  start ← subscript (positions track) 0;
  end_ ← subscript (positions track) (length (positions track) - 1);
  check_direction start end_ ellipse.

(** Lines 281-289. *)
Definition count_directions (ellipse : option Zone) (all_tracks : list Track)
    : result Counter :=
  foldlM (λ counter track,
            d ← track_direction ellipse track; Ok (count counter d))
         counter_zero all_tracks.

(** The attributes of [self] the tracker reads and writes.  Attributes that
    clash with a name above carry the prefix [self_]. *)
Record KalmanFilterCLI : Type := mkCLI {
  self_all_tracks : list Track;
  self_df : option DataFrame;
  start_frame : Z;
  end_frame : Z;
  self_process_noise : float;
  self_measurement_noise : float;
  self_distance_threshold : float;
  self_max_frames_before_death : Z;
  date : option string;
  counter : Counter;
  ellipses : gmap string Zone;
  ellipse : option Zone;
  file_path : string;
  csv_files : list string
}.

(** Lines 205-208. *)
Definition params_of (self : KalmanFilterCLI) : Params :=
  mkParams (self_process_noise self) (self_measurement_noise self)
           (self_distance_threshold self) (self_max_frames_before_death self).

(** Line 227 on [self.df]: [None] cannot be subscripted, which shows as soon
    as the loop runs once. *)
Definition table_of (self : KalmanFilterCLI) (frames : list Z)
    : result DataFrame :=
  match self_df self, frames with
  | Some df, _ => Ok df
  | None, [] => Ok []
  | None, _ :: _ => Raise TypeError
  end.

(** Lines 204-280: the tracking part of the run, up to the assignment of
    [self.all_tracks]. *)
Definition tracking_result (self : KalmanFilterCLI) : result (list Track) :=
  let frames := frame_range (start_frame self) (end_frame self) in
  df ← table_of self frames;
  st ← frame_loop (params_of self) df loop_init frames;
  Ok (filter_and_sort st).

Definition set_result (self : KalmanFilterCLI) (all_tracks : list Track)
    (counter : Counter) : KalmanFilterCLI :=
  mkCLI all_tracks (self_df self) (start_frame self) (end_frame self)
        (self_process_noise self) (self_measurement_noise self)
        (self_distance_threshold self) (self_max_frames_before_death self)
        (date self) counter (ellipses self) (ellipse self)
        (file_path self) (csv_files self).

(** [track_insects_one_file], lines 200-291.  An exception leaves the
    method before [self.counter] is assigned; the model keeps no state of a
    run that raised. *)
Definition track_insects_one_file (self : KalmanFilterCLI)
    : result KalmanFilterCLI :=
  all_tracks ← tracking_result self;
  counter ← count_directions (ellipse self) all_tracks;
  Ok (set_result self all_tracks counter).

(** What a run hands to its caller. *)
Definition run_output (self : KalmanFilterCLI) : list Track * Counter :=
  (self_all_tracks self, counter self).

End Run.

(** ** File names: [utils.py] *)

Definition is_digit (c : Ascii.ascii) : bool :=
  (48 <=? Ascii.nat_of_ascii c)%nat && (Ascii.nat_of_ascii c <=? 57)%nat.

(** The first [n] characters of [s] when they are [n] digits. *)
Fixpoint take_digits (n : nat) (s : string) : option string :=
  match n with
  | O => Some EmptyString
  | S n' =>
    match s with
    | EmptyString => None
    | String c s' =>
      if is_digit c then String c <$> take_digits n' s' else None
    end
  end.

(** The leftmost match of the pattern of [n] digits: [re.findall(...)[0]],
    or [None] when nothing matches. *)
Fixpoint first_digits (n : nat) (s : string) : option string :=
  match take_digits n s with
  | Some d => Some d
  | None =>
    match s with
    | EmptyString => None
    | String _ s' => first_digits n s'
    end
  end.

(** [get_date_from_filename], lines 15-20, and [get_time_from_filename],
    lines 22-27 of [utils.py]. *)
Definition get_date_from_filename (filename : string) : option string :=
  first_digits 8 filename.

Definition get_time_from_filename (filename : string) : option string :=
  first_digits 6 filename.

(** [os.path.basename] on a POSIX path: what follows the last slash. *)
Fixpoint basename_from (acc : string) (p : string) : string :=
  match p with
  | EmptyString => acc
  | String c p' =>
    if Ascii.eqb c (Ascii.ascii_of_nat 47) then basename_from p' p' else basename_from acc p'
  end.

Definition basename (p : string) : string := basename_from p p.

(** [needle in line] on strings. *)
Fixpoint contains (needle line : string) : bool :=
  String.prefix needle line ||
  match line with
  | EmptyString => false
  | String _ line' => contains needle line'
  end.

(** ** The batch driver: [track_insects] *)

(** What [pd.read_csv] finds in a file: whether the three columns are
    there, and the rows. *)
Record Table : Type := mkTable {
  has_columns : bool;
  rows : DataFrame
}.

Section Batch.
Context {mathlib : MathLib} {tracklib : TrackLib}.

(** [reset_variables], lines 74-91.  The thresholds, the zone table and
    the zone of the last file are not reset. *)
Definition reset_variables (self : KalmanFilterCLI) : KalmanFilterCLI :=
  mkCLI [] None 1 1 0x1.a36e2eb1c432dp-14 0x1.999999999999ap-4
        (self_distance_threshold self) (self_max_frames_before_death self)
        None counter_zero (ellipses self) (ellipse self)
        (file_path self) (csv_files self).

(** [min()] and [max()] of a column. *)
Definition column_min (l : list Z) : Z := foldr Z.min (default 0 (head l)) l.
Definition column_max (l : list Z) : Z := foldr Z.max (default 0 (head l)) l.

(** The zone of a date, [self.ellipses[date] if date in self.ellipses else
    None]; a file name without a date has the date [None], which is no key
    of the table. *)
Definition zone_of (ellipses : gmap string Zone) (date : option string)
    : option Zone :=
  date ≫= (ellipses !!.).

(** [date in self.ellipses]. *)
Definition has_zone (ellipses : gmap string Zone) (date : option string)
    : bool :=
  if zone_of ellipses date is Some _ then true else false.

(** [load_csv], lines 93-120, on a disk that maps paths to tables. *)
Definition load_csv (disk : string → option Table) (self : KalmanFilterCLI)
    (path : string) : result (bool * KalmanFilterCLI) :=
  match disk path with
  | None => Raise FileNotFoundError
  | Some table =>
    if negb (has_columns table) then Ok (false, reset_variables self)
    else
      let record_count := length (rows table) in
      if decide (record_count < 5)%nat then Ok (false, reset_variables self)
      else
        let min_frame := column_min (video_frame_id <$> rows table) in
        let max_frame := column_max (video_frame_id <$> rows table) in
        if decide (Z.abs (max_frame - min_frame) < 5)
        then Ok (false, reset_variables self)
        else
          let date := get_date_from_filename path in
          Ok (true,
              mkCLI (self_all_tracks self) (Some (rows table))
                    min_frame max_frame
                    (self_process_noise self) (self_measurement_noise self)
                    (self_distance_threshold self)
                    (self_max_frames_before_death self)
                    date (counter self) (ellipses self)
                    (zone_of (ellipses self) date)
                    path (csv_files self))
  end.

(** [check_already_processed], lines 122-134, on the lines of
    [track-stats.csv]. *)
Definition check_already_processed (stats : list string) (path : string)
    : bool :=
  existsb (contains (basename path)) stats.

(** The line [write_stats_to_csv_file] appends to [track-stats.csv], lines
    161-162 and, for a file without data, line 149. *)
Definition join_fields (name : string) (fields : list Z) : string :=
  foldl (λ acc n, acc +:+ "," +:+ pretty n) name fields.

Definition stats_line (self : KalmanFilterCLI) : string :=
  join_fields (basename (file_path self))
    [ Z.of_nat (length (default [] (self_df self)));
      Z.of_nat (length (self_all_tracks self));
      n_enter (counter self); n_exit (counter self);
      n_inside (counter self); n_outside (counter self) ].

Definition no_data_line (path : string) : string :=
  join_fields (basename path) [0; 0; 0; 0; 0; 0].

(** Lines 178-198: the body of the loop over the files.  The state is
    [self] and the lines of [track-stats.csv]. *)
Definition process_file (disk : string → option Table)
    (w : KalmanFilterCLI * list string) (file : string)
    : result (KalmanFilterCLI * list string) :=
  let '(self, stats) := w in
  let file_date := get_date_from_filename file in
  if negb (has_zone (ellipses self) file_date) then Ok w
  else
    let self := reset_variables self in
    if check_already_processed stats file then Ok (self, stats)
    else
      '(csv_loaded, self) ← load_csv disk self file;
      if csv_loaded : bool then
        self ← track_insects_one_file self;
        Ok (self, stats ++ [stats_line self])
      else Ok (self, stats ++ [no_data_line file]).

(** The loop of [track_insects], lines 177-198, over a list of files. *)
Definition track_files (disk : string → option Table)
    (w : KalmanFilterCLI * list string) (files : list string)
    : result (KalmanFilterCLI * list string) :=
  foldlM (process_file disk) w files.

(** [track_insects], lines 165-198. *)
Definition track_insects (disk : string → option Table)
    (w : KalmanFilterCLI * list string)
    : result (KalmanFilterCLI * list string) :=
  track_files disk w (csv_files w.1).

End Batch.

(** ** A small instance of the libraries

    Stand-ins for libm, filterpy, numpy and scipy with which the model runs
    on concrete tables: polynomial sine and cosine, a fixed-gain
    constant-velocity filter, the Euclidean norm, and the assignment that
    pairs row [i] with column [i]. *)

Module Demo.
Local Open Scope float_scope.

Definition cos_poly (x : float) : float :=
  let x2 := x * x in
  1 - x2 / 2 * (1 - x2 / 12 * (1 - x2 / 30 * (1 - x2 / 56 * (1 - x2 / 90)))).

Definition sin_poly (x : float) : float :=
  let x2 := x * x in
  x * (1 - x2 / 6 * (1 - x2 / 20 * (1 - x2 / 42 * (1 - x2 / 72 * (1 - x2 / 110))))).

Definition math : MathLib := {| cos := cos_poly; sin := sin_poly |}.

(** Position and velocity. *)
Definition filter_state : Type := (Obs * Obs)%type.

Definition filter_new (_ _ : float) (obs : Obs) : filter_state :=
  (obs, (0, 0)).

Definition filter_predict (s : filter_state) : filter_state :=
  ((s.1.1 + s.2.1, s.1.2 + s.2.2), s.2).

Definition filter_update (s : filter_state) (z : Obs) : filter_state :=
  (z, (s.2.1 + (z.1 - s.1.1), s.2.2 + (z.2 - s.1.2))).

Definition euclid (p q : Obs) : float :=
  sqrt (sq (p.1 - q.1) + sq (p.2 - q.2)).

Definition diagonal_assignment (cost_matrix : list (list float))
    : list nat * list nat :=
  let k := (length cost_matrix `min` length (default [] (head cost_matrix)))%nat in
  (seq 0 k, seq 0 k).

Definition lib : TrackLib := {|
  KalmanFilter := filter_state;
  kf_new := filter_new;
  predict := filter_predict;
  update := filter_update;
  kf_x := fst;
  norm_diff := euclid;
  linear_sum_assignment := diagonal_assignment
|}.

(** A table of eight frames with one detection each, which moves 40 units
    along [x] in every other frame. *)
Definition table : Table :=
  mkTable true
    (zip_with (λ frame x, mkRow frame x 100) (seqZ 1 8)
              [0; 40; 40; 80; 80; 120; 120; 160]).

Definition path : string := "detected-bees/bees_20240601_101500.csv".

Definition disk (file : string) : option Table :=
  if decide (file = path) then Some table else None.

(** The zone of the first of June: centre (100, 100), axes 120 and 80, no
    rotation. *)
Definition zone : Zone := mkZone (100, 100) (120, 80) 0.

Definition params : Params :=
  mkParams 0x1.a36e2eb1c432dp-14 0x1.999999999999ap-4 50 20%Z.

(** The same configuration with a negative age limit. *)
Definition params_negative_limit : Params :=
  mkParams 0x1.a36e2eb1c432dp-14 0x1.999999999999ap-4 50 (-1)%Z.

(** The object as [__init__] leaves it, with the zones of [ellipses] and
    the file of the folder. *)
Definition cli (ellipses : gmap string Zone)
    : KalmanFilterCLI (tracklib := lib) :=
  mkCLI [] None 1 1 0x1.a36e2eb1c432dp-14 0x1.999999999999ap-4 50 20%Z
        None counter_zero ellipses None EmptyString [path].

(** The object once [load_csv] has read the file, with the zone [ellipse]. *)
Definition ready (ellipse : option Zone)
    : KalmanFilterCLI (tracklib := lib) :=
  mkCLI [] (Some (rows table)) 1 8
        0x1.a36e2eb1c432dp-14 0x1.999999999999ap-4 50 20%Z
        (Some "20240601") counter_zero ∅ ellipse path [path].

(** The same inputs in an object that holds the results of an earlier
    run. *)
Definition ready_used (ellipse : option Zone)
    : KalmanFilterCLI (tracklib := lib) :=
  mkCLI [new_track params 7%Z (1, 2) 3%Z] (Some (rows table)) 1 8
        0x1.a36e2eb1c432dp-14 0x1.999999999999ap-4 50 20%Z
        (Some "20230101") (mkCounter 1 2 3 4) {[ "20240601" := zone ]}
        ellipse "detected-bees/bees_20230101_090000.csv" [].

(** A detection at one place in frame 1 and again in frame [back]. *)
Definition gap_table (back : Z) : DataFrame :=
  [mkRow 1 10 10; mkRow back 10 10].

End Demo.

(** * More of the program *)

(** ** Runs over consecutive frames *)

Section ConsecutiveFramesDefs.
Context {tracklib : TrackLib}.

(** What the loop maintains of every track while it walks through the
    frames [start], [start + 1], ...: [n] is the number of frames done. *)
Definition frames_kept (p : Params) (start : Z) (n : nat) (st : LoopState)
    : Prop :=
  ∀ a t, heap st !! a = Some t →
    StronglySorted Z.lt (frame_ids t) ∧
    Forall (λ f, start ≤ f < start + Z.of_nat n) (frame_ids t) ∧
    (a ∈ tracks st →
       ∃ f, last (frame_ids t) = Some f ∧
            f + last_seen t = start + Z.of_nat n - 1) ∧
    (a ∉ tracks st → 0 ≤ max_frames_before_death p →
       last_seen t = max_frames_before_death p + 1).

End ConsecutiveFramesDefs.

(** * The viewer: [tracking-gui.py] and the text file it reads

    The tracker appends a block of text to [track-stats.txt] for every file;
    the viewer reads the blocks back.  Text is a [string] whose characters
    are the code points below 256. *)

(** ** Python's [int] on text *)

Definition nl : string := String (Ascii.ascii_of_nat 10) EmptyString.

(** The blanks that [int] strips from the ends of its argument. *)
Definition is_space (c : Ascii.ascii) : bool :=
  let n := Ascii.nat_of_ascii c in
  ((9 <=? n) && (n <=? 13) || (n =? 32) || (n =? 133) || (n =? 160))%nat.

Fixpoint lstrip (s : string) : string :=
  match s with
  | String c s' => if is_space c then lstrip s' else s
  | EmptyString => EmptyString
  end.

Fixpoint rstrip (s : string) : string :=
  match s with
  | EmptyString => EmptyString
  | String c s' =>
    match rstrip s' with
    | EmptyString => if is_space c then EmptyString else String c EmptyString
    | r => String c r
    end
  end.

Definition digit_value (c : Ascii.ascii) : Z :=
  Z.of_nat (Ascii.nat_of_ascii c) - 48.

(** The digits of an integer literal, with single underscores between
    digits: the value and the number of digits, or [None]. *)
Fixpoint int_digits (s : string) (acc : Z) (n : nat) (after_digit : bool)
    : option (Z * nat) :=
  match s with
  | EmptyString => if after_digit then Some (acc, n) else None
  | String c s' =>
    if is_digit c then int_digits s' (10 * acc + digit_value c) (S n) true
    else if Ascii.eqb c (Ascii.ascii_of_nat 95) then
      if after_digit then int_digits s' acc n false else None
    else None
  end.

Section Int.
(** [sys.get_int_max_str_digits()]: 4300 unless the interpreter is told
    otherwise, 0 for no limit. *)
Variable max_str_digits : nat.

(** [int(s)] in base ten; [None] is ValueError. *)
Definition py_int (s : string) : option Z :=
  let s := rstrip (lstrip s) in
  let '(negative, body) :=
    match s with
    | String c s' =>
      if Ascii.eqb c (Ascii.ascii_of_nat 45) then (true, s')
      else if Ascii.eqb c (Ascii.ascii_of_nat 43) then (false, s')
      else (false, s)
    | EmptyString => (false, s)
    end in
  '(v, n) ← int_digits body 0 0 false;
  if ((0 <? max_str_digits) && (max_str_digits <? n) && (640 <? n))%nat
  then None
  else Some (if negative : bool then - v else v).

(** ** [format_time], lines 9-22 *)

(** [round(minute/10)*10]: the quotient is a float and [round] takes a half
    to the even neighbour.  For the two characters of [time[2:4]] the minute
    lies between -9 and 99, where the quotient falls on a half exactly when
    the minute ends in 5. *)
Definition minute_10_interval (minute : Z) : Z :=
  let q := minute / 10 in
  let r := minute mod 10 in
  (if r <? 5 then q
   else if 5 <? r then q + 1
   else if Z.even q then q else q + 1) * 10.

(** [f"{n:02d}"]. *)
Definition pad2 (n : Z) : string :=
  if decide (0 ≤ n < 10) then "0" +:+ pretty n else pretty n.

Definition format_time (time : option string) : option (option string) :=
  match time with
  | None => Some None
  | Some time =>
    hour ← py_int (String.substring 0 2 time);
    minute ← py_int (String.substring 2 2 time);
    let ampm := if decide (hour < 12) then "AM" else "PM" in
    let hour := if decide (hour mod 12 ≠ 0) then hour mod 12 else 12 in
    Some (Some (pretty hour +:+ ":" +:+ pad2 (minute_10_interval minute)
                  +:+ " " +:+ ampm))
  end.

End Int.

(** Text without a line end inside. *)
Definition line_end (c : Ascii.ascii) : bool :=
  let n := Ascii.nat_of_ascii c in ((n =? 10) || (n =? 13))%nat.

Definition one_line (s : string) : bool :=
  forallb (λ c, negb (line_end c)) (String.list_ascii_of_string s).

(** Text whose last line is complete: it is empty or ends in [\n]. *)
Fixpoint ends_line (s : string) : bool :=
  match s with
  | EmptyString => true
  | String c EmptyString => Ascii.eqb c (Ascii.ascii_of_nat 10)
  | String _ s' => ends_line s'
  end.

(** Characters that are neither a capital letter nor a line end. *)
Definition plain_char (c : Ascii.ascii) : bool :=
  let n := Ascii.nat_of_ascii c in
  negb ((65 <=? n) && (n <=? 90))%nat && negb (line_end c).

Definition plain (s : string) : bool :=
  forallb plain_char (String.list_ascii_of_string s).

Definition all_digits (s : string) : bool :=
  forallb is_digit (String.list_ascii_of_string s).

(** ** Dictionaries in insertion order *)

Section Dict.
Context {K V : Type} `{EqDecision K}.

Fixpoint dict_get (d : list (K * V)) (k : K) : option V :=
  match d with
  | [] => None
  | (k', v) :: d' => if decide (k' = k) then Some v else dict_get d' k
  end.

(** [d[k] = v]: a key that is there keeps its place. *)
Fixpoint dict_set (d : list (K * V)) (k : K) (v : V) : list (K * V) :=
  match d with
  | [] => [(k, v)]
  | (k', v') :: d' =>
    if decide (k' = k) then (k, v) :: d' else (k', v') :: dict_set d' k v
  end.

Definition dict_has (d : list (K * V)) (k : K) : bool :=
  bool_decide (is_Some (dict_get d k)).

End Dict.

(** ** Searching a line *)

(** [re.search]: the leftmost place where the pattern matches. *)
Fixpoint re_search {A : Type} (pattern : string → option A) (s : string)
    : option A :=
  match pattern s with
  | Some a => Some a
  | None =>
    match s with
    | EmptyString => None
    | String _ s' => re_search pattern s'
    end
  end.

(** What follows a literal text at the start of [s]. *)
Fixpoint after (literal s : string) : option string :=
  match literal, s with
  | EmptyString, _ => Some s
  | String a literal', String b s' =>
    if Ascii.eqb a b then after literal' s' else None
  | String _ _, EmptyString => None
  end.

Fixpoint drop_chars (n : nat) (s : string) : string :=
  match n, s with
  | S n', String _ s' => drop_chars n' s'
  | _, _ => s
  end.

(** [\d+]: the digits at the start of [s], as many as there are. *)
Fixpoint span_digits (s : string) : string :=
  match s with
  | String c s' => if is_digit c then String c (span_digits s') else EmptyString
  | EmptyString => EmptyString
  end.

(** The pattern [CSV File: (\d{8})_(\d{6})\.csv] at the start of [s]: the
    two groups. *)
Definition csv_file_pattern (s : string) : option (string * string) :=
  s ← after "CSV File: " s;
  d ← take_digits 8 s;
  s ← after "_" (drop_chars 8 s);
  t ← take_digits 6 s;
  _ ← after ".csv" (drop_chars 6 s);
  Some (d, t).

(** A pattern [literal(\d+)] at the start of [s]: the group. *)
Definition number_pattern (literal s : string) : option string :=
  s ← after literal s;
  match span_digits s with
  | EmptyString => None
  | digits => Some digits
  end.

(** ** [parse_tracking_data], lines 25-84 *)

(** The five counts of a file, [None] where not read yet; the empty
    dictionary before the first file. *)
Definition Data : Type := list (string * option Z).

Definition TrackingData : Type :=
  list (option string * list (option string * Data)).

Record ParseState : Type := mkParse {
  tracking_data : TrackingData;
  current_date : option string;
  current_time : option string;
  current_data : Data
}.

Definition parse_init : ParseState := mkParse [] None None [].

Definition fresh_data : Data :=
  [("Total Tracks", None); ("Enter", None); ("Exit", None);
   ("Inside", None); ("Outside", None)]%string.

(** A string or [None] as a condition. *)
Definition truthy (s : option string) : bool :=
  match s with
  | Some (String _ _) => true
  | _ => false
  end.

Definition all_none (d : Data) : bool :=
  forallb (λ kv, if kv.2 is None then true else false) d.

Definition all_filled (d : Data) : bool :=
  forallb (λ kv, if kv.2 is Some _ then true else false) d.

Section Parse.
Variable max_str_digits : nat.

(** Lines 40-54. *)
Definition read_file_name (st : ParseState) (line : string) : ParseState :=
  if contains "CSV File" line then
    match re_search csv_file_pattern line with
    | Some (d, t) =>
      if negb (contains "No Data Found" line)
      then mkParse (tracking_data st) (Some d) (Some t) fresh_data
      else mkParse (tracking_data st) None None (current_data st)
    | None => st
    end
  else st.

(** [current_data[name] = int(match.group(1))] when the pattern matches. *)
Definition read_number (name literal line : string) (d : Data)
    : option Data :=
  match re_search (number_pattern literal) line with
  | Some digits =>
    n ← py_int max_str_digits digits; Some (dict_set d name (Some n))
  | None => Some d
  end.

(** Lines 57-60. *)
Definition read_total_tracks (st : ParseState) (line : string)
    : option ParseState :=
  if contains "Total Tracks:" line && truthy (current_date st)
     && truthy (current_time st)
  then
    d ← read_number "Total Tracks" "Total Tracks: " line (current_data st);
    Some (mkParse (tracking_data st) (current_date st) (current_time st) d)
  else Some st.

(** Lines 63-76. *)
Definition read_counts (st : ParseState) (line : string)
    : option ParseState :=
  if negb (all_none (current_data st)) then
    d ← read_number "Enter" "Enter: " line (current_data st);
    d ← read_number "Exit" "Exit: " line d;
    d ← read_number "Inside" "Inside: " line d;
    d ← read_number "Outside" "Outside: " line d;
    Some (mkParse (tracking_data st) (current_date st) (current_time st) d)
  else Some st.

(** Lines 79-82. *)
Definition store (st : ParseState) : option ParseState :=
  if all_filled (current_data st) then
    let td :=
      if dict_has (tracking_data st) (current_date st) then tracking_data st
      else dict_set (tracking_data st) (current_date st) [] in
    label ← format_time max_str_digits (current_time st);
    let day := default [] (dict_get td (current_date st)) in
    Some (mkParse
            (dict_set td (current_date st)
                      (dict_set day label (current_data st)))
            (current_date st) (current_time st) (current_data st))
  else Some st.

(** The time of the file being read is a group of the pattern: six
    digits. *)
Definition time_read (st : ParseState) : Prop :=
  ∀ t, current_time st = Some t →
    all_digits t = true ∧ String.length t = 6%nat.

(** The counts stored for a date and a label. *)
Definition stored (td : TrackingData) (d : option string)
    (label : option string) : option Data :=
  day ← dict_get td d; dict_get day label.

(** The body of the loop over the lines. *)
Definition parse_line (st : ParseState) (line : string)
    : option ParseState :=
  let st := read_file_name st line in
  st ← read_total_tracks st line;
  st ← read_counts st line;
  store st.

Fixpoint parse_lines (st : ParseState) (lines : list string)
    : option ParseState :=
  match lines with
  | [] => Some st
  | line :: lines => st ← parse_line st line; parse_lines st lines
  end.

(** [parse_tracking_data] on the lines of the file. *)
Definition parse_tracking_data (lines : list string) : option TrackingData :=
  tracking_data <$> parse_lines parse_init lines.

(** Line 153 of [plot_data]: the labels from 6 AM to 8:50 PM. *)
Definition all_times : option (list (option string)) :=
  mapM (λ hm : Z * Z,
          format_time max_str_digits
            (Some (pad2 hm.1 +:+ pad2 hm.2 +:+ "00")))
       (hour ← seqZ 6 15; minute ← (λ k, 10 * k) <$> seqZ 0 6;
        [(hour, minute)]).

End Parse.

(** ** The text file: what the tracker writes and how the viewer reads it *)

(** Reading a text file translates the line ends [\r\n] and [\r] to
    [\n]. *)
Fixpoint universal_newlines (s : string) : string :=
  match s with
  | EmptyString => EmptyString
  | String c s' =>
    if Ascii.eqb c (Ascii.ascii_of_nat 13) then
      match s' with
      | String c' s'' =>
        if Ascii.eqb c' (Ascii.ascii_of_nat 10)
        then String c' (universal_newlines s'')
        else String (Ascii.ascii_of_nat 10) (universal_newlines s')
      | EmptyString => nl
      end
    else String c (universal_newlines s')
  end.

(** The lines of a text, each with its line end; the last line can be
    without one. *)
Fixpoint split_lines (s : string) : list string :=
  match s with
  | EmptyString => []
  | String c s' =>
    if Ascii.eqb c (Ascii.ascii_of_nat 10) then nl :: split_lines s'
    else
      match split_lines s' with
      | [] => [String c EmptyString]
      | line :: lines => String c line :: lines
      end
  end.

(** [file.readlines()]. *)
Definition readlines (text : string) : list string :=
  split_lines (universal_newlines text).

(** The characters of Python's text of a number. *)
Definition number_char (c : Ascii.ascii) : bool :=
  is_digit c ||
  existsb (Ascii.eqb c) (String.list_ascii_of_string ".e+-infa").

Section Writer.
Context {tracklib : TrackLib}.
(** The text that [f"{self.distance_threshold}"] gives. *)
Variable threshold_text : float → string.

Definition separator : string :=
  "-------------------------------------------------" +:+ nl.

(** [write_stats_to_csv_file], lines 136-162: what it appends to
    [track-stats.txt], one element for every [f.write]. *)
Definition stats_text (self : KalmanFilterCLI) : list string :=
  [ separator;
    "CSV File: " +:+ basename (file_path self) +:+ ". Total Records: "
      +:+ pretty (Z.of_nat (length (default [] (self_df self))))
      +:+ ". Date: " +:+ default "None" (date self) +:+ nl;
    "Start Frame: " +:+ pretty (start_frame self) +:+ ". End Frame: "
      +:+ pretty (end_frame self) +:+ nl;
    "Distance Threshold: " +:+ threshold_text (self_distance_threshold self)
      +:+ ". Max Frames Before Death: "
      +:+ pretty (self_max_frames_before_death self) +:+ nl;
    "Total Tracks: " +:+ pretty (Z.of_nat (length (self_all_tracks self)))
      +:+ nl;
    "Enter: " +:+ pretty (n_enter (counter self)) +:+ ". Exit: "
      +:+ pretty (n_exit (counter self)) +:+ ". Inside: "
      +:+ pretty (n_inside (counter self)) +:+ ". Outside: "
      +:+ pretty (n_outside (counter self)) +:+ nl;
    separator ].

Definition no_data_text (path : string) : list string :=
  [ separator;
    "CSV File: " +:+ basename path +:+ ". No Data Found" +:+ nl;
    separator ].

(** The file after the writes. *)
Definition append_text (old : string) (writes : list string) : string :=
  foldl String.append old writes.

End Writer.

(** * The folder of tables: [load_csv_folder], lines 46-60 *)

(** [s.endswith(suffix)]. *)
Fixpoint ends_with (suffix s : string) : bool :=
  String.eqb s suffix ||
  match s with
  | EmptyString => false
  | String _ s' => ends_with suffix s'
  end.

(** [os.path.join(a, b)] on a POSIX system. *)
Definition path_join (a b : string) : string :=
  if String.prefix "/" b then b
  else if String.eqb a "" || ends_with "/" a then a +:+ b
  else a +:+ "/" +:+ b.

(** [a < b] on sort keys that are a text or [None]: texts compare character
    by character, and [None] compares with nothing. *)
Definition key_lt (a b : option string) : result bool :=
  match a, b with
  | Some x, Some y => Ok (String.ltb x y)
  | _, _ => Raise TypeError
  end.

(** The order of two keys that are texts. *)
Definition key_le (a b : option string) : Prop :=
  match a, b with
  | Some x, Some y => String.le x y
  | _, _ => False
  end.

(** [sorted(l, key=..., reverse=True)] with such keys.  As for
    [sorted_reverse], the list is reversed, sorted by a stable ascending
    sort that only asks [<], and reversed again; the sort is written as an
    insertion sort.  In a list of two or more every element takes part in a
    comparison, in CPython's sort as in this one, so that a key [None]
    raises in both. *)
Fixpoint insert_by_key {A : Type} (key : A → option string) (x : A)
    (l : list A) : result (list A) :=
  match l with
  | [] => Ok [x]
  | y :: l' =>
    lt ← key_lt (key y) (key x);
    if lt : bool then cons y <$> insert_by_key key x l' else Ok (x :: l)
  end.

Fixpoint stable_sort_by_key {A : Type} (key : A → option string)
    (l : list A) : result (list A) :=
  match l with
  | [] => Ok []
  | x :: l' => s ← stable_sort_by_key key l'; insert_by_key key x s
  end.

Definition sorted_by_key_reverse {A : Type} (key : A → option string)
    (l : list A) : result (list A) :=
  reverse <$> stable_sort_by_key key (reverse l).

(** The paths of the tables of a folder, before they are sorted: lines
    53-54 on the names that [os.listdir] returns. *)
Definition csv_paths (folder_path : string) (listing : list string)
    : list string :=
  path_join folder_path <$> filter (λ f, ends_with ".csv" f = true) listing.

(** Lines 55-56: [self.csv_files] for a folder with the names [listing]. *)
Definition load_csv_folder (folder_path : string) (listing : list string)
    : result (list string) :=
  by_time ← sorted_by_key_reverse get_time_from_filename
               (csv_paths folder_path listing);
  sorted_by_key_reverse get_date_from_filename by_time.

(** ** A small instance for the viewer

    The table of [Demo] under a name of the form the viewer looks for, with
    the zone of its date. *)

Module DemoViewer.

Definition path : string := "detected-bees/20240601_101500.csv".

Definition disk (file : string) : option Table :=
  if decide (file = path) then Some Demo.table else None.

(** The threshold of [__init__], the integer 50, as text. *)
Definition threshold_text (x : float) : string := "50".

Definition zones : gmap string Zone := {[ "20240601" := Demo.zone ]}.

(** The object as [__init__] leaves it. *)
Definition cli : KalmanFilterCLI (tracklib := Demo.lib) :=
  mkCLI [] None 1 1 0x1.a36e2eb1c432dp-14 0x1.999999999999ap-4 50 20%Z
        None counter_zero zones None EmptyString [path].

(** The object once [load_csv] has read the file. *)
Definition loaded : KalmanFilterCLI (tracklib := Demo.lib) :=
  mkCLI [] (Some (rows Demo.table)) 1 8
        0x1.a36e2eb1c432dp-14 0x1.999999999999ap-4 50 20%Z
        (Some "20240601") counter_zero zones (Some Demo.zone) path [path].

(** The object after the run. *)
Definition ran : KalmanFilterCLI (tracklib := Demo.lib) :=
  match track_insects_one_file (mathlib := Demo.math) loaded with
  | Ok self => self
  | Raise _ => loaded
  end.

(** The batch of [Demo] on an empty statistics file. *)
Definition batch_start
    : KalmanFilterCLI (tracklib := Demo.lib) * list string :=
  (Demo.cli zones, []).

Definition batch_done
    : KalmanFilterCLI (tracklib := Demo.lib) * list string :=
  match track_insects (mathlib := Demo.math) Demo.disk batch_start with
  | Ok w => w
  | Raise _ => batch_start
  end.

End DemoViewer.
(** * Facts about the zone geometry *)

Section FloatFacts.
Local Open Scope float_scope.

(** A comparison with a NaN is false, on either side. *)
Lemma leb_nan_l (x y : float) : Prim2SF x = S754_nan → (x <=? y) = false.
Proof. intros Hx. rewrite leb_spec, Hx. reflexivity. Qed.

Lemma leb_nan_r (x y : float) : Prim2SF y = S754_nan → (x <=? y) = false.
Proof.
  intros Hy. rewrite leb_spec, Hy. unfold SFleb, SFcompare.
  by destruct (Prim2SF x).
Qed.

(** NaN propagates through the arithmetic of the ellipse equation. *)
Lemma mul_nan_l (x y : float) : Prim2SF x = S754_nan → Prim2SF (x * y) = S754_nan.
Proof. intros Hx. rewrite mul_spec, Hx. reflexivity. Qed.

Lemma div_nan_l (x y : float) : Prim2SF x = S754_nan → Prim2SF (x / y) = S754_nan.
Proof. intros Hx. rewrite div_spec, Hx. reflexivity. Qed.

Lemma add_nan_l (x y : float) : Prim2SF x = S754_nan → Prim2SF (x + y) = S754_nan.
Proof. intros Hx. rewrite add_spec, Hx. reflexivity. Qed.

Lemma add_nan_r (x y : float) : Prim2SF y = S754_nan → Prim2SF (x + y) = S754_nan.
Proof.
  intros Hy. rewrite add_spec, Hy. unfold SF64add, SFadd.
  by destruct (Prim2SF x).
Qed.

(** Every float that is not a NaN lies on one side of zero. *)
Lemma leb_zero_total (x : float) :
  Prim2SF x ≠ S754_nan → (x <=? 0) = false → (0 <=? x) = true.
Proof.
  intros Hx. rewrite !leb_spec.
  change (Prim2SF 0) with (S754_zero false).
  unfold SFleb, SFcompare.
  destruct (Prim2SF x) as [s|s| |s m e]; try done; by destruct s.
Qed.

End FloatFacts.

Section GeometryFacts.
Context {mathlib : MathLib}.
Local Open Scope float_scope.

(** A point that satisfies the ellipse inequality has rotated coordinates
    that are numbers: a NaN on either side makes the comparison false. *)
Lemma inside_not_nan (x_rot y_rot a b : float) :
  (sq x_rot / sq a + sq y_rot / sq b <=? 1) = true →
  Prim2SF x_rot ≠ S754_nan ∧ Prim2SF y_rot ≠ S754_nan.
Proof.
  intros Hin. split; intros Hnan.
  - rewrite leb_nan_l in Hin; [done|].
    by apply add_nan_l, div_nan_l, mul_nan_l.
  - rewrite leb_nan_l in Hin; [done|].
    by apply add_nan_r, div_nan_l, mul_nan_l.
Qed.

(** The chain of sign tests, once the point is inside: the fourth test never
    fails after the first three did. *)
Lemma sign_chain_total (x_rot y_rot : float) :
  Prim2SF x_rot ≠ S754_nan → Prim2SF y_rot ≠ S754_nan →
  (y_rot <=? 0) && (x_rot <=? 0) = false →
  (y_rot <=? 0) && (0 <=? x_rot) = false →
  (0 <=? y_rot) && (x_rot <=? 0) = false →
  (0 <=? y_rot) && (0 <=? x_rot) = true.
Proof.
  intros Hx Hy H1 H2 H3.
  pose proof (leb_zero_total x_rot Hx) as Tx.
  pose proof (leb_zero_total y_rot Hy) as Ty.
  destruct (y_rot <=? 0), (x_rot <=? 0); simpl in *; try done.
  - rewrite Tx in H2; done.
  - rewrite Ty in H3; done.
  - rewrite Tx, Ty; done.
Qed.

(** The value of [ellipse_quad] on a zone: the chain of the source with its
    last test dropped, which never fails once the first three did. *)
Lemma ellipse_quad_chain (pos : Obs) (z : Zone) :
  let xp := pos.1 - (center z).1 in
  let yp := pos.2 - (center z).2 in
  let theta := radians (rotation_degrees z) in
  let x_rot := xp * cos (- theta) - yp * sin (- theta) in
  let y_rot := xp * sin (- theta) + yp * cos (- theta) in
  let a := (axes z).1 / 2 in
  let b := (axes z).2 / 2 in
  ellipse_quad pos (Some z) =
  Ok (Some
        (if x_rot * x_rot / (a * a) + y_rot * y_rot / (b * b) <=? 1
         then if (y_rot <=? 0) && (x_rot <=? 0) then upper_right
              else if (y_rot <=? 0) && (0 <=? x_rot) then lower_right
              else if (0 <=? y_rot) && (x_rot <=? 0) then upper_left
              else lower_left
         else quad_outside)) ∧
  ((x_rot * x_rot / (a * a) + y_rot * y_rot / (b * b) <=? 1) = true →
   (y_rot <=? 0) && (x_rot <=? 0) = false →
   (y_rot <=? 0) && (0 <=? x_rot) = false →
   (0 <=? y_rot) && (x_rot <=? 0) = false →
   (0 <=? y_rot) && (0 <=? x_rot) = true).
Proof.
  destruct pos as [x y], z as [[h k] [w l] rot]. simpl.
  set (theta := radians rot).
  set (x_rot := (x - h) * cos (- theta) - (y - k) * sin (- theta)).
  set (y_rot := (x - h) * sin (- theta) + (y - k) * cos (- theta)).
  fold (sq x_rot) (sq y_rot) (sq (w / 2)) (sq (l / 2)).
  destruct (sq x_rot / sq (w / 2) + sq y_rot / sq (l / 2) <=? 1) eqn:Hin;
    [|done].
  destruct (inside_not_nan _ _ _ _ Hin) as [Hx Hy].
  pose proof (sign_chain_total x_rot y_rot Hx Hy) as Hlast.
  split; [|by intros _].
  destruct ((y_rot <=? 0) && (x_rot <=? 0)) eqn:E1; [done|].
  destruct ((y_rot <=? 0) && (0 <=? x_rot)) eqn:E2; [done|].
  destruct ((0 <=? y_rot) && (x_rot <=? 0)) eqn:E3; [done|].
  by rewrite Hlast.
Qed.

(** C2.  [ellipse_quad] translates the point by the zone centre, rotates it
    by minus the rotation (in radians), halves the axes, and returns a
    quadrant label exactly when the rotated point satisfies the ellipse
    inequality; the label is the first of the four sign cases, in the order
    the source lists them, that applies; every other point is [outside].
    The function always returns one of its five labels. *)
Theorem ellipse_quad_classifies (pos : Obs) (z : Zone) :
  let xp := pos.1 - (center z).1 in
  let yp := pos.2 - (center z).2 in
  let theta := radians (rotation_degrees z) in
  let x_rot := xp * cos (- theta) - yp * sin (- theta) in
  let y_rot := xp * sin (- theta) + yp * cos (- theta) in
  let a := (axes z).1 / 2 in
  let b := (axes z).2 / 2 in
  let in_ellipse := x_rot * x_rot / (a * a) + y_rot * y_rot / (b * b) <=? 1 in
  ∃ q : Quadrant,
    ellipse_quad pos (Some z) = Ok (Some q) ∧
    (q ≠ quad_outside ↔ in_ellipse = true) ∧
    (in_ellipse = false → q = quad_outside) ∧
    (in_ellipse = true →
       ((y_rot <=? 0) && (x_rot <=? 0) = true → q = upper_right) ∧
       ((y_rot <=? 0) && (x_rot <=? 0) = false →
        (y_rot <=? 0) && (0 <=? x_rot) = true → q = lower_right) ∧
       ((y_rot <=? 0) && (x_rot <=? 0) = false →
        (y_rot <=? 0) && (0 <=? x_rot) = false →
        (0 <=? y_rot) && (x_rot <=? 0) = true → q = upper_left) ∧
       ((y_rot <=? 0) && (x_rot <=? 0) = false →
        (y_rot <=? 0) && (0 <=? x_rot) = false →
        (0 <=? y_rot) && (x_rot <=? 0) = false →
        (0 <=? y_rot) && (0 <=? x_rot) = true ∧ q = lower_left)).
Proof.
  intros xp yp theta x_rot y_rot a b in_ellipse.
  destruct (ellipse_quad_chain pos z) as [Hq Hlast].
  fold xp yp theta x_rot y_rot a b in Hq, Hlast.
  fold in_ellipse in Hq, Hlast.
  eexists. split; [exact Hq|].
  destruct in_ellipse.
  - split_and!; [| done |].
    + split; [done|]. intros _.
      by repeat case_match.
    + intros _. split_and!.
      * by intros ->.
      * by intros -> ->.
      * by intros -> -> ->.
      * intros E1 E2 E3. split; [by apply Hlast|]. by rewrite E1, E2, E3.
  - split_and!; [|done|done]. split; [by intros []|done].
Qed.

(** [ellipse_quad] with a zone raises nothing and returns a label. *)
Lemma ellipse_quad_total (pos : Obs) (z : Zone) :
  ∃ q : Quadrant, ellipse_quad pos (Some z) = Ok (Some q).
Proof. destruct (ellipse_quad_chain pos z) as [Hq _]. eauto. Qed.

(** Without a zone the first subscript of the ellipse raises. *)
Lemma ellipse_quad_no_zone (pos : Obs) :
  ellipse_quad pos None = Raise TypeError.
Proof. reflexivity. Qed.

Lemma check_direction_no_zone (start end_ : Obs) :
  check_direction start end_ None = Raise TypeError.
Proof. reflexivity. Qed.

(** C8.  With [s] and [e] saying whether the quadrant of the start and of
    the end point is upper-left or upper-right, [check_direction] returns
    inside for [s] and [e], exit for [s] alone, enter for [e] alone and
    outside for neither. *)
Theorem check_direction_table (start end_ : Obs) (z : Zone) :
  ∃ qs qe : Quadrant,
    ellipse_quad start (Some z) = Ok (Some qs) ∧
    ellipse_quad end_ (Some z) = Ok (Some qe) ∧
    let s := qs = upper_left ∨ qs = upper_right in
    let e := qe = upper_left ∨ qe = upper_right in
    (s ∧ e → check_direction start end_ (Some z) = Ok inside) ∧
    (s ∧ ¬ e → check_direction start end_ (Some z) = Ok exit) ∧
    (¬ s ∧ e → check_direction start end_ (Some z) = Ok enter) ∧
    (¬ s ∧ ¬ e → check_direction start end_ (Some z) = Ok outside).
Proof.
  destruct (ellipse_quad_total start z) as [qs Hs].
  destruct (ellipse_quad_total end_ z) as [qe He].
  exists qs, qe. split; [done|]. split; [done|].
  unfold check_direction. rewrite Hs, He. simpl.
  destruct qs, qe; simpl; repeat split; intros [Hs' He']; try done;
    try (by destruct Hs' as [|]); try (by destruct He' as [|]);
    try (exfalso; apply Hs'; auto; fail);
    try (exfalso; apply He'; auto; fail).
Qed.

(** A direction is always produced when a zone is given. *)
Lemma check_direction_total (start end_ : Obs) (z : Zone) :
  ∃ d : Direction, check_direction start end_ (Some z) = Ok d.
Proof.
  destruct (ellipse_quad_total start z) as [qs Hs].
  destruct (ellipse_quad_total end_ z) as [qe He].
  unfold check_direction. rewrite Hs, He. simpl.
  destruct (is_inside (Some qs)), (is_inside (Some qe)); simpl; eauto.
Qed.

End GeometryFacts.

(** * Facts about the frame loop *)

Section ResultFacts.
Context {A B : Type}.

Lemma subscript_Ok (l : list A) (i : nat) (a : A) :
  subscript l i = Ok a ↔ l !! i = Some a.
Proof.
  unfold subscript. destruct (l !! i); split; intros E; by simplify_eq.
Qed.

Lemma subscript_lookup (l : list A) (i : nat) (a : A) :
  l !! i = Some a → subscript l i = Ok a.
Proof. apply subscript_Ok. Qed.

Lemma bind_Ok (a : A) (f : A → result B) : Ok a ≫= f = f a.
Proof. reflexivity. Qed.

Lemma foldlM_app (f : B → A → result B) (b : B) (l1 l2 : list A) :
  foldlM f b (l1 ++ l2) = foldlM f b l1 ≫= λ b', foldlM f b' l2.
Proof.
  revert b. induction l1 as [|x l1 IH]; intros b; simpl; [done|].
  destruct (f b x) as [b'|e]; simpl; [apply IH|done].
Qed.

Lemma foldlM_snoc (f : B → A → result B) (b : B) (l : list A) (x : A) :
  foldlM f b (l ++ [x]) = foldlM f b l ≫= λ b', f b' x.
Proof.
  rewrite foldlM_app. destruct (foldlM f b l) as [b'|e]; simpl; [|done].
  by destruct (f b' x).
Qed.

End ResultFacts.

Section AlterAll.
Context {tracklib : TrackLib}.

Lemma alter_all_cons af upds h :
  alter_all (af :: upds) h = alter_all upds (alter af.2 af.1 h).
Proof. reflexivity. Qed.

Lemma length_alter_all upds h : length (alter_all upds h) = length h.
Proof.
  revert h. induction upds as [|af upds IH]; intros h; [done|].
  rewrite alter_all_cons, IH. apply length_alter.
Qed.

Lemma alter_all_lookup_notin upds h (a : nat) :
  a ∉ upds.*1 → alter_all upds h !! a = h !! a.
Proof.
  revert h. induction upds as [|[b g] upds IH]; intros h Hnotin; [done|].
  rewrite fmap_cons, not_elem_of_cons in Hnotin. destruct Hnotin as [Hab Hn].
  rewrite alter_all_cons, IH by done. simpl in *.
  by apply list_lookup_alter_ne.
Qed.

Lemma alter_all_lookup_in upds h (a : nat) f :
  NoDup upds.*1 → (a, f) ∈ upds → alter_all upds h !! a = f <$> h !! a.
Proof.
  revert h. induction upds as [|[b g] upds IH]; intros h Hnd Hin.
  { by apply elem_of_nil in Hin. }
  rewrite fmap_cons in Hnd. apply NoDup_cons in Hnd as [Hb Hnd].
  rewrite alter_all_cons. simpl in *.
  apply elem_of_cons in Hin as [Heq|Hin].
  - simplify_eq. rewrite alter_all_lookup_notin by done.
    rewrite list_lookup_alter. by rewrite decide_True.
  - assert (a ≠ b) as Hab.
    { intros ->. apply Hb. apply list_elem_of_fmap. by exists (b, f). }
    rewrite IH by done. f_equal. by apply list_lookup_alter_ne.
Qed.

(** The predict loop is such a sequence of updates. *)
Lemma predict_all_alter_all h (tracks : list nat) :
  predict_all h tracks = alter_all ((λ a, (a, predicted)) <$> tracks) h.
Proof.
  unfold predict_all, alter_all. revert h.
  induction tracks as [|a tracks IH]; intros h; simpl; [done|apply IH].
Qed.

Lemma length_predict_all h (tracks : list nat) :
  length (predict_all h tracks) = length h.
Proof. rewrite predict_all_alter_all. apply length_alter_all. Qed.

Lemma predict_all_lookup_in h (tracks : list nat) a :
  NoDup tracks → a ∈ tracks →
  predict_all h tracks !! a = predicted <$> h !! a.
Proof.
  intros Hnd Hin. rewrite predict_all_alter_all.
  apply alter_all_lookup_in.
  - rewrite <-list_fmap_compose. by rewrite list_fmap_id.
  - apply list_elem_of_fmap. by exists a.
Qed.

Lemma predict_all_lookup_notin h (tracks : list nat) a :
  a ∉ tracks → predict_all h tracks !! a = h !! a.
Proof.
  intros Hnotin. rewrite predict_all_alter_all.
  apply alter_all_lookup_notin.
  rewrite <-list_fmap_compose. by rewrite list_fmap_id.
Qed.

End AlterAll.

Section Loops.
Context {tracklib : TrackLib}.
Implicit Types (p : Params) (df : DataFrame) (st : LoopState) (frame : Z).

(** ** The cost matrix *)

Lemma length_frame_costs df st frame :
  length (frame_costs df st frame) = length (tracks st).
Proof. unfold frame_costs, cost_matrix_of. by rewrite length_fmap. Qed.

Lemma frame_costs_rows df st frame :
  Forall (λ row, length row = length (observations_of df frame))
         (frame_costs df st frame).
Proof.
  unfold frame_costs, cost_matrix_of. apply Forall_fmap, Forall_true.
  intros a. simpl. by rewrite length_fmap.
Qed.

Lemma frame_costs_lookup df st frame i j a obs :
  tracks st !! i = Some a →
  observations_of df frame !! j = Some obs →
  frame_costs df st frame !! i ≫= (.!! j) =
  Some (norm_diff (kf_x (kf (predict_all (heap st) (tracks st) !!! a))) obs).
Proof.
  intros Hi Hj. unfold frame_costs, cost_matrix_of.
  rewrite list_lookup_fmap, Hi. simpl.
  by rewrite list_lookup_fmap, Hj.
Qed.

(** Every pair in range resolves. *)
Lemma resolve_in_range df st frame i j :
  (i < length (tracks st))%nat →
  (j < length (observations_of df frame))%nat →
  is_Some (resolve df st frame (i, j)).
Proof.
  intros Hi Hj.
  apply lookup_lt_is_Some_2 in Hi as [a Ha].
  apply lookup_lt_is_Some_2 in Hj as [obs Hobs].
  pose proof (frame_costs_lookup df st frame i j a obs Ha Hobs) as Hc.
  unfold resolve. simpl.
  destruct (frame_costs df st frame !! i) as [row|]; [|done]. simpl in *.
  rewrite Hc. simpl. rewrite Ha. simpl. rewrite Hobs. simpl. eauto.
Qed.

Lemma resolve_Some df st frame ij m :
  resolve df st frame ij = Some m →
  m_i m = ij.1 ∧ m_j m = ij.2 ∧
  tracks st !! ij.1 = Some (m_track m) ∧
  observations_of df frame !! ij.2 = Some (m_obs m) ∧
  ∃ row, frame_costs df st frame !! ij.1 = Some row ∧
         row !! ij.2 = Some (m_cost m).
Proof.
  unfold resolve. intros Hr.
  destruct (frame_costs df st frame !! ij.1) as [row|]; [|done]. simpl in Hr.
  destruct (row !! ij.2) as [c|] eqn:Hc; [|done]. simpl in Hr.
  destruct (tracks st !! ij.1) as [a|]; [|done]. simpl in Hr.
  destruct (observations_of df frame !! ij.2) as [obs|]; [|done].
  simpl in Hr. simplify_eq. simpl. eauto 10.
Qed.

(** The cost of a resolved pair is the distance between the predicted
    position of the track and the detection. *)
Lemma resolve_cost df st frame ij m :
  resolve df st frame ij = Some m →
  m_cost m =
  norm_diff (kf_x (kf (predict_all (heap st) (tracks st) !!! m_track m)))
            (m_obs m).
Proof.
  intros Hr. apply resolve_Some in Hr as (_ & _ & Ha & Hobs & row & Hrow & Hc).
  pose proof (frame_costs_lookup df st frame _ _ _ _ Ha Hobs) as Hl.
  rewrite Hrow in Hl. simpl in Hl. rewrite Hc in Hl. by simplify_eq.
Qed.

(** ** The loop over the proposed pairs, lines 244-254 *)

Lemma assign_loop p df st frame (pairs : list (nat * nat)) h
    (assigned_tracks assigned_observations : gset nat) :
  Forall (λ ij, is_Some (resolve df st frame ij)) pairs →
  let acc := filter (below_threshold p) (omap (resolve df st frame) pairs) in
  foldlM (assign_one (distance_threshold p) frame (tracks st)
            (observations_of df frame) (frame_costs df st frame))
         (h, assigned_tracks, assigned_observations) pairs =
  Ok (alter_all (match_update frame <$> acc) h,
      assigned_tracks ∪ list_to_set (m_i <$> acc),
      assigned_observations ∪ list_to_set (m_j <$> acc)).
Proof.
  intros Hres. simpl.
  revert h assigned_tracks assigned_observations.
  induction Hres as [|[i j] pairs [m Hm] _ IH]; intros h ats aos.
  { simpl. by rewrite !union_empty_r_L. }
  simpl. rewrite Hm.
  apply resolve_Some in Hm as (Hi & Hj & Ha & Hobs & row & Hrow & Hc).
  simpl in *.
  rewrite (subscript_lookup _ _ _ Hrow). simpl.
  rewrite (subscript_lookup _ _ _ Hc). simpl.
  rewrite filter_cons.
  destruct (decide (below_threshold p m)) as [Hlt|Hnlt].
  - unfold below_threshold in Hlt. rewrite Hlt.
    rewrite (subscript_lookup _ _ _ Ha). simpl.
    rewrite (subscript_lookup _ _ _ Hobs). simpl.
    rewrite IH. simpl. rewrite Hi, Hj.
    by rewrite !(assoc_L (∪)).
  - unfold below_threshold in Hnlt. apply not_true_is_false in Hnlt.
    rewrite Hnlt. apply IH.
Qed.

(** ** The loop over the detections, lines 257-267 *)

Lemma birth_loop p frame (observations : list Obs) (aos : gset nat)
    (jos : list (nat * Obs)) h (tracks : list nat) (tid : Z) :
  Forall (λ jo, observations !! jo.1 = Some jo.2) jos →
  let born := filter (λ jo, jo.1 ∉ aos) jos in
  foldlM (birth p frame observations aos) (h, tracks, tid) (jos.*1) =
  Ok (h ++ imap (λ k jo, new_track p frame jo.2 (tid + Z.of_nat k)) born,
      tracks ++ seq (length h) (length born),
      tid + Z.of_nat (length born)).
Proof.
  intros Hjos. simpl. revert h tracks tid.
  induction Hjos as [|[j o] jos Hj _ IH]; intros h tracks tid.
  { simpl. by rewrite !app_nil_r, Z.add_0_r. }
  simpl in *. rewrite filter_cons. simpl.
  destruct (decide (j ∈ aos)) as [Hin|Hout].
  - rewrite decide_False by (intros Hn; by apply Hn). apply IH.
  - rewrite decide_True by done.
    rewrite (subscript_lookup _ _ _ Hj). simpl. rewrite IH. simpl.
    rewrite length_app. simpl.
    rewrite <-!app_assoc. simpl.
    replace (length h + 1)%nat with (S (length h)) by lia.
    rewrite Z.add_0_r.
    f_equal. f_equal; [f_equal|lia].
    f_equal. f_equal. apply imap_ext. intros k [j' o'] _. simpl.
    f_equal. lia.
Qed.

Lemma indexed_observations (observations : list Obs) :
  (zip (seq 0 (length observations)) observations).*1 =
    seq 0 (length observations) ∧
  Forall (λ jo, observations !! jo.1 = Some jo.2)
         (zip (seq 0 (length observations)) observations).
Proof.
  split.
  - apply fst_zip. by rewrite length_seq.
  - apply Forall_lookup_2. intros k [j o] Hk. simpl.
    apply lookup_zip_with_Some in Hk as (j' & o' & Heq & Hseq & Ho).
    simplify_eq. apply lookup_seq in Hseq as [-> _]. done.
Qed.

End Loops.

Section Step.
Context {tracklib : TrackLib}.
Implicit Types (p : Params) (df : DataFrame) (st : LoopState) (frame : Z).

(** ** What a valid assignment proposes *)

Lemma proposed_valid df st frame :
  valid_assignment →
  Forall (λ ij, (ij.1 < length (tracks st))%nat ∧
                (ij.2 < length (observations_of df frame))%nat)
         (proposed df st frame) ∧
  NoDup (proposed df st frame).*1 ∧ NoDup (proposed df st frame).*2.
Proof.
  intros Hval. unfold proposed.
  specialize (Hval (frame_costs df st frame) _ (frame_costs_rows df st frame)).
  destruct (linear_sum_assignment (frame_costs df st frame)) as [rs cs].
  destruct Hval as (Hlen & Hrs & Hcs & Hndr & Hndc).
  rewrite length_frame_costs in Hrs.
  rewrite fst_zip, snd_zip by lia. split; [|done].
  apply Forall_lookup_2. intros k [i j] Hk.
  apply lookup_zip_with_Some in Hk as (i' & j' & Heq & Hi & Hj). simplify_eq.
  split; simpl.
  - eapply (Forall_lookup_1 _ _ _ _ Hrs Hi).
  - eapply (Forall_lookup_1 _ _ _ _ Hcs Hj).
Qed.

Lemma proposed_resolve df st frame :
  valid_assignment →
  Forall (λ ij, is_Some (resolve df st frame ij)) (proposed df st frame).
Proof.
  intros Hval. destruct (proposed_valid df st frame Hval) as (Hrange & _).
  eapply Forall_impl; [exact Hrange|].
  intros [i j] [Hi Hj]. by apply resolve_in_range.
Qed.

(** Every proposed pair resolves, so the resolved list mirrors the proposed
    one. *)
Lemma proposed_matches_fields df st frame :
  valid_assignment →
  m_i <$> proposed_matches df st frame = (proposed df st frame).*1 ∧
  m_j <$> proposed_matches df st frame = (proposed df st frame).*2.
Proof.
  intros Hval. unfold proposed_matches.
  pose proof (proposed_resolve df st frame Hval) as Hres.
  induction Hres as [|ij pairs [m Hm] _ [IH1 IH2]]; [done|].
  cbn [omap list_omap]. rewrite Hm, !fmap_cons, IH1, IH2.
  apply resolve_Some in Hm as (-> & -> & _). done.
Qed.

Lemma proposed_matches_elem df st frame m :
  m ∈ proposed_matches df st frame ↔
  ∃ ij, ij ∈ proposed df st frame ∧ resolve df st frame ij = Some m.
Proof. unfold proposed_matches. apply list_elem_of_omap. Qed.

Lemma accepted_elem p df st frame m :
  m ∈ accepted p df st frame ↔
  m ∈ proposed_matches df st frame ∧
  (m_cost m <? distance_threshold p)%float = true.
Proof. unfold accepted. rewrite list_elem_of_filter. tauto. Qed.

(** ** One iteration in closed form *)

Lemma frame_step_closed p df st frame :
  valid_assignment →
  frame_step p df st frame =
  Ok (mkLoop (heap_after_frame p df st frame) (tracks_after_frame p df st frame)
             (foldl (register (heap_after_frame p df st frame))
                    (all_tracks st) (tracks_after_frame p df st frame))
             (track_id st + Z.of_nat (length (births p df st frame)))).
Proof.
  intros Hval.
  pose proof (proposed_resolve df st frame Hval) as Hres.
  unfold tracks_after_frame, heap_after_frame.
  unfold frame_step, heap_after_update, newborn, births, accepted,
    proposed_matches.
  unfold proposed in *. fold (frame_costs df st frame).
  destruct (linear_sum_assignment (frame_costs df st frame)) as [rs cs].
  rewrite (assign_loop p df st frame _ _ _ _ Hres). simpl.
  destruct (indexed_observations (observations_of df frame)) as [Hfst Hjos].
  rewrite <-Hfst at 1.
  rewrite (birth_loop p frame _ _ _ _ _ _ Hjos). simpl.
  rewrite length_alter_all, length_predict_all.
  set (acc := filter (below_threshold p) (omap (resolve df st frame) (zip rs cs))).
  assert (Hfilter :
    filter (λ jo : nat * Obs, jo.1 ∉ (∅ ∪ list_to_set (m_j <$> acc) : gset nat))
           (zip (seq 0 (length (observations_of df frame)))
                (observations_of df frame)) =
    filter (λ jo : nat * Obs, jo.1 ∉ m_j <$> acc)
           (zip (seq 0 (length (observations_of df frame)))
                (observations_of df frame))).
  { apply list_filter_iff. intros [j o]. simpl.
    by rewrite union_empty_l_L, elem_of_list_to_set. }
  rewrite Hfilter. done.
Qed.

(** With a valid assignment an iteration raises nothing. *)
Lemma frame_step_Ok p df st frame :
  valid_assignment → ∃ st', frame_step p df st frame = Ok st'.
Proof. intros Hval. rewrite frame_step_closed by done. eauto. Qed.

Lemma frame_loop_Ok p df st (frames : list Z) :
  valid_assignment → ∃ st', frame_loop p df st frames = Ok st'.
Proof.
  intros Hval. unfold frame_loop. revert st.
  induction frames as [|frame frames IH]; intros st; simpl; [eauto|].
  destruct (frame_step_Ok p df st frame Hval) as [st1 ->]. simpl. apply IH.
Qed.

End Step.

Section Heap.
Context {tracklib : TrackLib}.
Implicit Types (p : Params) (df : DataFrame) (st : LoopState) (frame : Z).

Lemma NoDup_fmap_eq {A B : Type} (f : A → B) (l : list A) (x y : A) :
  NoDup (f <$> l) → x ∈ l → y ∈ l → f x = f y → x = y.
Proof.
  intros Hnd Hx Hy Hf.
  apply list_elem_of_lookup in Hx as [i Hi].
  apply list_elem_of_lookup in Hy as [j Hj].
  assert (i = j) as ->; [|congruence].
  eapply NoDup_lookup; [exact Hnd| |].
  - rewrite list_lookup_fmap, Hi. done.
  - rewrite list_lookup_fmap, Hj. simpl. by rewrite Hf.
Qed.

(** ** The accepted matches *)

Lemma accepted_NoDup p df st frame :
  valid_assignment →
  NoDup (m_i <$> accepted p df st frame) ∧
  NoDup (m_j <$> accepted p df st frame).
Proof.
  intros Hval.
  destruct (proposed_valid df st frame Hval) as (_ & Hnd1 & Hnd2).
  destruct (proposed_matches_fields df st frame Hval) as [E1 E2].
  split.
  - eapply sublist_NoDup; [rewrite <-E1 in Hnd1; exact Hnd1|].
    apply fmap_sublist, sublist_filter.
  - eapply sublist_NoDup; [rewrite <-E2 in Hnd2; exact Hnd2|].
    apply fmap_sublist, sublist_filter.
Qed.

Lemma accepted_lookup p df st frame m :
  m ∈ accepted p df st frame →
  tracks st !! m_i m = Some (m_track m) ∧
  observations_of df frame !! m_j m = Some (m_obs m).
Proof.
  intros Hm. apply accepted_elem in Hm as [Hm _].
  apply proposed_matches_elem in Hm as (ij & _ & Hr).
  apply resolve_Some in Hr as (-> & -> & Ha & Hobs & _). done.
Qed.

Lemma accepted_active p df st frame m :
  m ∈ accepted p df st frame → m_track m ∈ tracks st.
Proof.
  intros Hm. apply accepted_lookup in Hm as [Ha _].
  by eapply list_elem_of_lookup_2.
Qed.

(** Two accepted matches for one track are one match. *)
Lemma accepted_track_unique p df st frame m1 m2 :
  valid_assignment → NoDup (tracks st) →
  m1 ∈ accepted p df st frame → m2 ∈ accepted p df st frame →
  m_track m1 = m_track m2 → m1 = m2.
Proof.
  intros Hval Hnd H1 H2 Heq.
  destruct (accepted_NoDup p df st frame Hval) as [Hndi _].
  apply (NoDup_fmap_eq m_i (accepted p df st frame)); try done.
  destruct (accepted_lookup _ _ _ _ _ H1) as [Ha1 _].
  destruct (accepted_lookup _ _ _ _ _ H2) as [Ha2 _].
  rewrite Heq in Ha1. exact (NoDup_lookup _ _ _ _ Hnd Ha1 Ha2).
Qed.

(** Two accepted matches for one detection are one match. *)
Lemma accepted_detection_unique p df st frame m1 m2 :
  valid_assignment →
  m1 ∈ accepted p df st frame → m2 ∈ accepted p df st frame →
  m_j m1 = m_j m2 → m1 = m2.
Proof.
  intros Hval H1 H2 Heq.
  destruct (accepted_NoDup p df st frame Hval) as [_ Hndj].
  by apply (NoDup_fmap_eq m_j (accepted p df st frame)).
Qed.

Lemma accepted_tracks_NoDup p df st frame :
  valid_assignment → NoDup (tracks st) →
  NoDup (m_track <$> accepted p df st frame).
Proof.
  intros Hval Hnd.
  destruct (accepted_NoDup p df st frame Hval) as [Hndi _].
  apply NoDup_fmap_2_strong; [|by eapply NoDup_fmap_1].
  intros m1 m2 H1 H2 Heq. by eapply accepted_track_unique.
Qed.

(** ** The store after the update loop *)

Lemma length_heap_after_update p df st frame :
  length (heap_after_update p df st frame) = length (heap st).
Proof.
  unfold heap_after_update. by rewrite length_alter_all, length_predict_all.
Qed.

Lemma match_update_fst p df st frame :
  (match_update frame <$> accepted p df st frame).*1 =
  m_track <$> accepted p df st frame.
Proof. by rewrite <-list_fmap_compose. Qed.

Lemma heap_matched p df st frame m t :
  valid_assignment → NoDup (tracks st) →
  m ∈ accepted p df st frame → heap st !! m_track m = Some t →
  heap_after_update p df st frame !! m_track m =
  Some (matched frame (m_obs m) (m_cost m) (predicted t)).
Proof.
  intros Hval Hnd Hm Ht. unfold heap_after_update.
  rewrite (alter_all_lookup_in _ _ _ (matched frame (m_obs m) (m_cost m))).
  - rewrite predict_all_lookup_in, Ht; [done..|].
    by eapply accepted_active.
  - rewrite match_update_fst. by apply accepted_tracks_NoDup.
  - apply list_elem_of_fmap. by exists m.
Qed.

Lemma heap_unmatched p df st frame a t :
  NoDup (tracks st) → a ∈ tracks st →
  ¬ matched_in_frame p df st frame a → heap st !! a = Some t →
  heap_after_update p df st frame !! a = Some (predicted t).
Proof.
  intros Hnd Ha Hno Ht. unfold heap_after_update.
  rewrite alter_all_lookup_notin.
  - by rewrite predict_all_lookup_in, Ht.
  - rewrite match_update_fst. intros Hin.
    apply list_elem_of_fmap in Hin as (m & -> & Hm).
    apply Hno. by exists m.
Qed.

Lemma heap_inactive p df st frame a :
  a ∉ tracks st →
  heap_after_update p df st frame !! a = heap st !! a.
Proof.
  intros Ha. unfold heap_after_update.
  rewrite alter_all_lookup_notin.
  - by apply predict_all_lookup_notin.
  - rewrite match_update_fst. intros Hin.
    apply list_elem_of_fmap in Hin as (m & -> & Hm).
    apply Ha. by eapply accepted_active.
Qed.

(** The cost of an accepted match, on the state the frame starts from. *)
Lemma proposed_cost df st frame m t :
  NoDup (tracks st) →
  m ∈ proposed_matches df st frame → heap st !! m_track m = Some t →
  m_cost m = norm_diff (kf_x (predict (kf t))) (m_obs m).
Proof.
  intros Hnd Hm Ht.
  apply proposed_matches_elem in Hm as (ij & _ & Hr).
  rewrite (resolve_cost _ _ _ _ _ Hr).
  apply resolve_Some in Hr as (_ & _ & Ha & _).
  apply list_elem_of_lookup_2 in Ha.
  pose proof (predict_all_lookup_in (heap st) _ _ Hnd Ha) as Hl.
  rewrite Ht in Hl. simpl in Hl.
  by rewrite (list_lookup_total_correct _ _ _ Hl).
Qed.

End Heap.

Section Invariant.
Context {tracklib : TrackLib}.
Implicit Types (p : Params) (df : DataFrame) (st : LoopState) (frame : Z).

(** ** Properties that in-place updates keep *)

Lemma Forall_alter_all (P : Track → Prop) upds h :
  Forall P h →
  (∀ af t, af ∈ upds → P t → P (af.2 t)) →
  Forall P (alter_all upds h).
Proof.
  revert h. induction upds as [|af upds IH]; intros h Hh Hupd; [done|].
  rewrite alter_all_cons. apply IH.
  - apply Forall_alter; [done|]. intros t _ Ht. apply Hupd; [left|done].
  - intros af' t Hin. apply Hupd. by right.
Qed.

Lemma fmap_alter_all {B : Type} (g : Track → B) upds h :
  (∀ af t, af ∈ upds → g (af.2 t) = g t) →
  g <$> alter_all upds h = g <$> h.
Proof.
  revert h. induction upds as [|af upds IH]; intros h Hupd; [done|].
  rewrite alter_all_cons, IH by (intros af' t Hin; apply Hupd; by right).
  rewrite (list_fmap_alter g af.2 id).
  - apply list_alter_id. done.
  - apply Forall_true. intros t. simpl. apply Hupd. left.
Qed.

Lemma heap_after_update_ids p df st frame :
  id_ <$> heap_after_update p df st frame = id_ <$> heap st.
Proof.
  unfold heap_after_update. rewrite fmap_alter_all.
  - rewrite predict_all_alter_all. apply fmap_alter_all.
    intros af t Hin. apply list_elem_of_fmap in Hin as (a & -> & _). done.
  - intros af t Hin. apply list_elem_of_fmap in Hin as (m & -> & _). done.
Qed.

Lemma heap_after_update_Forall (P : Track → Prop) p df st frame :
  Forall P (heap st) →
  (∀ t, P t → P (predicted t)) →
  (∀ t obs c, P t → P (matched frame obs c t)) →
  Forall P (heap_after_update p df st frame).
Proof.
  intros Hh Hpred Hmatch. unfold heap_after_update.
  apply Forall_alter_all.
  - rewrite predict_all_alter_all. apply Forall_alter_all; [done|].
    intros af t Hin. apply list_elem_of_fmap in Hin as (a & -> & _).
    apply Hpred.
  - intros af t Hin. apply list_elem_of_fmap in Hin as (m & -> & _).
    apply Hmatch.
Qed.

(** ** The tracks a frame allocates *)

Lemma length_newborn p df st frame :
  length (newborn p df st frame) = length (births p df st frame).
Proof. unfold newborn. apply length_imap. Qed.

Lemma newborn_lookup p df st frame k t :
  newborn p df st frame !! k = Some t ↔
  ∃ jo, births p df st frame !! k = Some jo ∧
        t = new_track p frame jo.2 (track_id st + Z.of_nat k).
Proof. unfold newborn. apply list_lookup_imap_Some. Qed.

Lemma newborn_Forall (P : Track → Prop) p df st frame :
  (∀ obs tid, P (new_track p frame obs tid)) →
  Forall P (newborn p df st frame).
Proof.
  intros HP. apply Forall_lookup_2. intros k t Hk.
  apply newborn_lookup in Hk as (jo & _ & ->). apply HP.
Qed.

(** ** The registration loop, lines 272-275 *)

Lemma filter_ext_elem {A : Type} (P Q : A → Prop)
    `{∀ x, Decision (P x)} `{∀ x, Decision (Q x)} (l : list A) :
  (∀ x, x ∈ l → P x ↔ Q x) → filter P l = filter Q l.
Proof.
  induction l as [|x l IH]; intros Hext; [done|].
  rewrite !filter_cons.
  rewrite IH by (intros y Hy; apply Hext; by right).
  destruct (decide (P x)) as [HP|HP].
  - rewrite decide_True; [done|]. by apply Hext; [left|].
  - rewrite decide_False; [done|]. intros HQ. apply HP. by apply Hext; [left|].
Qed.

Lemma register_known (h : list Track) (all : list nat) (a : nat) :
  (∀ b t, h !! b = Some t → id_ t = Z.of_nat b) →
  (a < length h)%nat → Forall (λ b, (b < length h)%nat) all →
  register h all a = if decide (a ∈ all) then all else all ++ [a].
Proof.
  intros Hids Ha Hall. unfold register.
  assert (Hid : ∀ b, (b < length h)%nat → id_ (h !!! b) = Z.of_nat b).
  { intros b Hb. apply lookup_lt_is_Some_2 in Hb as [t Ht].
    rewrite (list_lookup_total_correct _ _ _ Ht). by apply Hids. }
  assert (Hmap : (λ b, id_ (h !!! b)) <$> all = Z.of_nat <$> all).
  { apply Forall_fmap_ext. eapply Forall_impl; [exact Hall|]. apply Hid. }
  rewrite Hmap, Hid by done.
  destruct (decide (a ∈ all)) as [Hin|Hout].
  - rewrite decide_True; [done|]. apply list_elem_of_fmap. eauto.
  - rewrite decide_False; [done|]. intros Hin.
    apply list_elem_of_fmap in Hin as (b & Hb & Hin).
    apply Nat2Z.inj in Hb. by subst.
Qed.

Lemma register_loop (h : list Track) (all l : list nat) :
  (∀ b t, h !! b = Some t → id_ t = Z.of_nat b) →
  Forall (λ b, (b < length h)%nat) all →
  Forall (λ b, (b < length h)%nat) l →
  NoDup l →
  foldl (register h) all l = all ++ filter (λ a, a ∉ all) l.
Proof.
  intros Hids Hall Hl Hnd. revert all Hall.
  induction l as [|a l IH]; intros all Hall; simpl.
  { by rewrite app_nil_r. }
  apply Forall_cons in Hl as [Ha Hl]. apply NoDup_cons in Hnd as [Hal Hnd].
  rewrite register_known by done. rewrite filter_cons.
  destruct (decide (a ∈ all)) as [Hin|Hout].
  - rewrite decide_False by (intros Hn; by apply Hn). by apply IH.
  - rewrite decide_True by done.
    rewrite (IH Hl Hnd) by (apply Forall_app; split; [done|by constructor]).
    rewrite <-app_assoc. simpl. f_equal. f_equal.
    apply filter_ext_elem. intros b Hb.
    rewrite not_elem_of_app, not_elem_of_cons.
    split; [tauto|]. intros Hn. split; [done|]. split; [|apply not_elem_of_nil].
    intros ->. done.
Qed.

Lemma filter_none {A : Type} (P : A → Prop) `{∀ x, Decision (P x)}
    (l : list A) :
  (∀ x, x ∈ l → ¬ P x) → filter P l = [].
Proof.
  induction l as [|x l IH]; intros Hno; [done|].
  rewrite filter_cons, decide_False by (apply Hno; left).
  apply IH. intros y Hy. apply Hno. by right.
Qed.

Lemma filter_all {A : Type} (P : A → Prop) `{∀ x, Decision (P x)}
    (l : list A) :
  (∀ x, x ∈ l → P x) → filter P l = l.
Proof.
  induction l as [|x l IH]; intros Hall; [done|].
  rewrite filter_cons, decide_True by (apply Hall; left).
  f_equal. apply IH. intros y Hy. apply Hall. by right.
Qed.

(** ** Sorted lists of addresses *)

Lemma StronglySorted_seq (n k : nat) : StronglySorted lt (seq n k).
Proof.
  revert n. induction k as [|k IH]; intros n; simpl; constructor; [apply IH|].
  apply Forall_forall. intros x Hx. apply elem_of_seq in Hx. lia.
Qed.

Lemma StronglySorted_filter {A : Type} (R : relation A) (P : A → Prop)
    `{∀ x, Decision (P x)} (l : list A) :
  StronglySorted R l → StronglySorted R (filter P l).
Proof.
  induction 1 as [|x l Hl IH Hx]; [constructor|].
  rewrite filter_cons. destruct (decide (P x)); [|done].
  constructor; [done|].
  apply Forall_forall. intros y Hy. apply list_elem_of_filter in Hy as [_ Hy].
  by eapply (proj1 (Forall_forall _ _) Hx).
Qed.

Lemma StronglySorted_lt_NoDup (l : list nat) : StronglySorted lt l → NoDup l.
Proof.
  induction 1 as [|x l Hl IH Hx]; constructor; [|done].
  intros Hin. eapply (proj1 (Forall_forall _ _) Hx) in Hin. lia.
Qed.

Lemma StronglySorted_lt_app (l1 l2 : list nat) (n : nat) :
  StronglySorted lt l1 → StronglySorted lt l2 →
  Forall (λ a, (a < n)%nat) l1 → Forall (λ a, (n ≤ a)%nat) l2 →
  StronglySorted lt (l1 ++ l2).
Proof.
  intros H1 H2 F1 F2. apply StronglySorted_app. split; [|done].
  intros x1 x2 Hx1 Hx2.
  eapply (proj1 (Forall_forall _ _) F1) in Hx1.
  eapply (proj1 (Forall_forall _ _) F2) in Hx2. lia.
Qed.

(** ** The store after a frame *)

Lemma length_heap_after_frame p df st frame :
  length (heap_after_frame p df st frame) =
  (length (heap st) + length (births p df st frame))%nat.
Proof.
  unfold heap_after_frame.
  by rewrite length_app, length_heap_after_update, length_newborn.
Qed.

Lemma heap_after_frame_old p df st frame a :
  (a < length (heap st))%nat →
  heap_after_frame p df st frame !! a = heap_after_update p df st frame !! a.
Proof.
  intros Ha. unfold heap_after_frame.
  apply lookup_app_l. by rewrite length_heap_after_update.
Qed.

Lemma heap_after_frame_new p df st frame k :
  heap_after_frame p df st frame !! (length (heap st) + k)%nat =
  newborn p df st frame !! k.
Proof.
  unfold heap_after_frame.
  rewrite lookup_app_r by (rewrite length_heap_after_update; lia).
  rewrite length_heap_after_update. f_equal. lia.
Qed.

Lemma heap_after_frame_ids p df st frame :
  wf p st →
  ∀ a t, heap_after_frame p df st frame !! a = Some t → id_ t = Z.of_nat a.
Proof.
  intros Hwf a t Ht.
  destruct (decide (a < length (heap st))%nat) as [Ha|Ha].
  - rewrite heap_after_frame_old in Ht by done.
    assert (Hid : (id_ <$> heap_after_update p df st frame) !! a = Some (id_ t))
      by (by rewrite list_lookup_fmap, Ht).
    rewrite heap_after_update_ids, list_lookup_fmap in Hid.
    destruct (heap st !! a) as [t0|] eqn:Ht0; [|done].
    simpl in Hid. simplify_eq. rewrite <-Hid. by eapply wf_ids.
  - replace a with (length (heap st) + (a - length (heap st)))%nat in Ht by lia.
    rewrite heap_after_frame_new in Ht.
    apply newborn_lookup in Ht as (jo & _ & ->). simpl.
    rewrite (wf_next p st Hwf). lia.
Qed.

Lemma heap_after_frame_Forall (P : Track → Prop) p df st frame :
  Forall P (heap st) →
  (∀ t, P t → P (predicted t)) →
  (∀ t obs c, P t → P (matched frame obs c t)) →
  (∀ obs tid, P (new_track p frame obs tid)) →
  Forall P (heap_after_frame p df st frame).
Proof.
  intros Hh Hpred Hmatch Hnew. unfold heap_after_frame.
  apply Forall_app. split.
  - by apply heap_after_update_Forall.
  - by apply newborn_Forall.
Qed.

(** A track born in the frame has [last_seen = 0] at its end. *)
Lemma newborn_last_seen p df st frame a :
  a ∈ seq (length (heap st)) (length (births p df st frame)) →
  last_seen (heap_after_frame p df st frame !!! a) = 0.
Proof.
  intros Ha. apply elem_of_seq in Ha.
  assert (is_Some (newborn p df st frame !! (a - length (heap st))%nat))
    as [t Ht].
  { apply lookup_lt_is_Some_2. rewrite length_newborn. lia. }
  rewrite <-heap_after_frame_new in Ht.
  replace (length (heap st) + (a - length (heap st)))%nat with a in Ht by lia.
  rewrite (list_lookup_total_correct _ _ _ Ht).
  rewrite <-(Nat.sub_add (length (heap st)) a), Nat.add_comm in Ht by lia.
  rewrite heap_after_frame_new in Ht.
  apply newborn_lookup in Ht as (jo & _ & ->). done.
Qed.

(** ** The lists after a frame *)

Lemma tracks_after_frame_split p df st frame :
  tracks_after_frame p df st frame =
  filter (λ a, last_seen (heap_after_frame p df st frame !!! a)
               ≤ max_frames_before_death p) (tracks st) ++
  filter (λ a, last_seen (heap_after_frame p df st frame !!! a)
               ≤ max_frames_before_death p)
         (seq (length (heap st)) (length (births p df st frame))).
Proof. unfold tracks_after_frame. apply filter_app. Qed.

Lemma tracks_after_frame_sorted p df st frame :
  wf p st → StronglySorted lt (tracks_after_frame p df st frame).
Proof.
  intros Hwf. unfold tracks_after_frame. apply StronglySorted_filter.
  apply (StronglySorted_lt_app _ _ (length (heap st))).
  - by apply (wf_tracks_sorted p).
  - apply StronglySorted_seq.
  - by apply (wf_tracks_valid p).
  - apply Forall_forall. intros a Ha. apply elem_of_seq in Ha. lia.
Qed.

Lemma tracks_after_frame_valid p df st frame :
  wf p st →
  Forall (λ a, (a < length (heap_after_frame p df st frame))%nat)
         (tracks_after_frame p df st frame).
Proof.
  intros Hwf. apply Forall_forall. intros a Ha.
  unfold tracks_after_frame in Ha.
  apply list_elem_of_filter in Ha as [_ Ha].
  rewrite length_heap_after_frame.
  apply elem_of_app in Ha as [Ha|Ha].
  - eapply (proj1 (Forall_forall _ _) (wf_tracks_valid p st Hwf)) in Ha. lia.
  - apply elem_of_seq in Ha. lia.
Qed.

Lemma registry_after_frame p df st frame :
  wf p st →
  foldl (register (heap_after_frame p df st frame)) (all_tracks st)
        (tracks_after_frame p df st frame) =
  all_tracks st ++
  filter (λ a, last_seen (heap_after_frame p df st frame !!! a)
               ≤ max_frames_before_death p)
         (seq (length (heap st)) (length (births p df st frame))).
Proof.
  intros Hwf. rewrite register_loop.
  - f_equal. rewrite tracks_after_frame_split, filter_app.
    rewrite filter_none, app_nil_l.
    + apply filter_all. intros a Ha Hin.
      apply list_elem_of_filter in Ha as [_ Ha]. apply elem_of_seq in Ha.
      eapply (proj1 (Forall_forall _ _) (wf_all_valid p st Hwf)) in Hin. lia.
    + intros a Ha Hnotin. apply Hnotin.
      apply list_elem_of_filter in Ha as [_ Ha].
      by apply (wf_tracks_all p st Hwf).
  - by apply heap_after_frame_ids.
  - eapply Forall_impl; [exact (wf_all_valid p st Hwf)|].
    intros a Ha. simpl in *. rewrite length_heap_after_frame. lia.
  - by apply tracks_after_frame_valid.
  - by apply StronglySorted_lt_NoDup, tracks_after_frame_sorted.
Qed.

End Invariant.

Section WellFormed.
Context {tracklib : TrackLib}.
Implicit Types (p : Params) (df : DataFrame) (st : LoopState) (frame : Z).

Lemma wf_init p : wf p loop_init.
Proof.
  split; simpl; try done; constructor.
Qed.

(** One iteration keeps the invariant. *)
Lemma wf_step p df st frame st' :
  valid_assignment → wf p st →
  frame_step p df st frame = Ok st' → wf p st'.
Proof.
  intros Hval Hwf Hstep. rewrite frame_step_closed in Hstep by done.
  injection Hstep as <-.
  pose proof (registry_after_frame p df st frame Hwf) as Hreg.
  split; simpl; rewrite ?Hreg.
  - by apply heap_after_frame_ids.
  - rewrite length_heap_after_frame, (wf_next p st Hwf). lia.
  - by apply tracks_after_frame_sorted.
  - by apply tracks_after_frame_valid.
  - apply (StronglySorted_lt_app _ _ (length (heap st))).
    + by apply (wf_all_sorted p).
    + apply StronglySorted_filter, StronglySorted_seq.
    + by apply (wf_all_valid p).
    + apply Forall_forall. intros a Ha.
      apply list_elem_of_filter in Ha as [_ Ha]. apply elem_of_seq in Ha. lia.
  - apply Forall_app. split.
    + eapply Forall_impl; [exact (wf_all_valid p st Hwf)|].
      intros a Ha. simpl in *. rewrite length_heap_after_frame. lia.
    + apply Forall_forall. intros a Ha.
      apply list_elem_of_filter in Ha as [_ Ha]. apply elem_of_seq in Ha.
      rewrite length_heap_after_frame. lia.
  - rewrite tracks_after_frame_split. intros a Ha.
    apply elem_of_app in Ha as [Ha|Ha]; apply elem_of_app; [left|by right].
    apply list_elem_of_filter in Ha as [_ Ha]. by apply (wf_tracks_all p st Hwf).
  - apply Forall_forall. intros a Ha. unfold tracks_after_frame in Ha.
    by apply list_elem_of_filter in Ha as [Ha _].
  - apply heap_after_frame_Forall; simpl; try done; try lia.
    by apply (wf_last_seen p).
  - apply heap_after_frame_Forall; simpl; try done.
    + by apply (wf_positions p).
    + intros t obs c [Hne Hlen]. split.
      * intros Hnil. by apply app_eq_nil in Hnil as [_ ?].
      * rewrite !length_app, Hlen. done.
  - intros Hmax. rewrite (wf_registered p st Hwf Hmax).
    rewrite filter_all.
    + rewrite length_heap_after_frame. by rewrite seq_app.
    + intros a Ha. by rewrite newborn_last_seen.
Qed.

(** Every state the loop reaches from its start satisfies the invariant. *)
Lemma wf_loop p df st (frames : list Z) st' :
  valid_assignment → wf p st →
  frame_loop p df st frames = Ok st' → wf p st'.
Proof.
  intros Hval. unfold frame_loop. revert st.
  induction frames as [|frame frames IH]; intros st Hwf Hloop; simpl in *.
  { by simplify_eq. }
  destruct (frame_step p df st frame) as [st1|e] eqn:Hstep; [|done].
  simpl in Hloop. eapply IH; [|exact Hloop]. by eapply wf_step.
Qed.

(** A run of the loop and one more iteration, with what they maintain. *)
Lemma loop_then_step p df (frames : list Z) frame :
  valid_assignment →
  ∃ st st',
    frame_loop p df loop_init frames = Ok st ∧
    frame_step p df st frame = Ok st' ∧
    frame_loop p df loop_init (frames ++ [frame]) = Ok st' ∧
    wf p st ∧ wf p st' ∧
    heap st' = heap_after_frame p df st frame ∧
    tracks st' = tracks_after_frame p df st frame.
Proof.
  intros Hval.
  destruct (frame_loop_Ok p df loop_init frames Hval) as [st Hst].
  destruct (frame_step_Ok p df st frame Hval) as [st' Hst'].
  pose proof (wf_loop p df _ _ _ Hval (wf_init p) Hst) as Hwf.
  exists st, st'. split_and!; try done.
  - unfold frame_loop in *. by rewrite foldlM_snoc, Hst.
  - by eapply wf_step.
  - rewrite frame_step_closed in Hst' by done. by injection Hst' as <-.
  - rewrite frame_step_closed in Hst' by done. by injection Hst' as <-.
Qed.

End WellFormed.

Section FrameFacts.
Context {tracklib : TrackLib}.
Implicit Types (p : Params) (df : DataFrame) (st : LoopState) (frame : Z).

Lemma accepted_proposed p df st frame m :
  m ∈ accepted p df st frame → m ∈ proposed_matches df st frame.
Proof. intros Hm. by apply accepted_elem in Hm as [Hm _]. Qed.

Lemma proposed_lookup df st frame m :
  m ∈ proposed_matches df st frame →
  tracks st !! m_i m = Some (m_track m) ∧
  observations_of df frame !! m_j m = Some (m_obs m).
Proof.
  intros Hm. apply proposed_matches_elem in Hm as (ij & _ & Hr).
  apply resolve_Some in Hr as (-> & -> & Ha & Hobs & _). done.
Qed.

(** The assignment proposes every track and every detection at most once. *)
Lemma proposed_track_unique df st frame m1 m2 :
  valid_assignment → NoDup (tracks st) →
  m1 ∈ proposed_matches df st frame → m2 ∈ proposed_matches df st frame →
  m_track m1 = m_track m2 → m1 = m2.
Proof.
  intros Hval Hnd H1 H2 Heq.
  destruct (proposed_valid df st frame Hval) as (_ & Hnd1 & _).
  destruct (proposed_matches_fields df st frame Hval) as [E1 _].
  rewrite <-E1 in Hnd1.
  apply (NoDup_fmap_eq m_i (proposed_matches df st frame)); try done.
  destruct (proposed_lookup _ _ _ _ H1) as [Ha1 _].
  destruct (proposed_lookup _ _ _ _ H2) as [Ha2 _].
  rewrite Heq in Ha1. exact (NoDup_lookup _ _ _ _ Hnd Ha1 Ha2).
Qed.

Lemma proposed_detection_unique df st frame m1 m2 :
  valid_assignment →
  m1 ∈ proposed_matches df st frame → m2 ∈ proposed_matches df st frame →
  m_j m1 = m_j m2 → m1 = m2.
Proof.
  intros Hval H1 H2 Heq.
  destruct (proposed_valid df st frame Hval) as (_ & _ & Hnd2).
  destruct (proposed_matches_fields df st frame Hval) as [_ E2].
  rewrite <-E2 in Hnd2.
  by apply (NoDup_fmap_eq m_j (proposed_matches df st frame)).
Qed.

(** ** The detections that start a track *)

Lemma births_elem p df st frame j obs :
  (j, obs) ∈ births p df st frame ↔
  observations_of df frame !! j = Some obs ∧
  ∀ m, m ∈ accepted p df st frame → m_j m ≠ j.
Proof.
  unfold births. rewrite list_elem_of_filter. simpl.
  rewrite list_elem_of_fmap.
  assert ((j, obs) ∈ zip (seq 0 (length (observations_of df frame)))
                         (observations_of df frame) ↔
          observations_of df frame !! j = Some obs) as ->.
  { rewrite list_elem_of_lookup. split.
    - intros [k Hk].
      apply lookup_zip_with_Some in Hk as (j' & o' & Heq & Hseq & Ho).
      simplify_eq. apply lookup_seq in Hseq as [-> _]. done.
    - intros Hj. exists j. apply lookup_zip_with_Some.
      exists j, obs. split_and!; [done| |done].
      apply lookup_seq. split; [done|]. by eapply lookup_lt_Some. }
  split.
  - intros [Hno Hj]. split; [done|]. intros m Hm Heq. apply Hno. eauto.
  - intros [Hj Hno]. split; [|done]. intros (m & Heq & Hm). by eapply Hno.
Qed.

Lemma births_NoDup p df st frame : NoDup (births p df st frame).*1.
Proof.
  eapply sublist_NoDup; [|apply fmap_sublist, sublist_filter].
  rewrite (proj1 (indexed_observations _)). apply NoDup_seq.
Qed.

Lemma births_index_unique p df st frame k1 k2 j o1 o2 :
  births p df st frame !! k1 = Some (j, o1) →
  births p df st frame !! k2 = Some (j, o2) → k1 = k2.
Proof.
  intros H1 H2. eapply NoDup_lookup; [apply births_NoDup| |].
  - rewrite list_lookup_fmap, H1. done.
  - rewrite list_lookup_fmap, H2. done.
Qed.

(** The track a birth allocates. *)
Lemma birth_track p df st frame k j obs :
  births p df st frame !! k = Some (j, obs) →
  heap_after_frame p df st frame !! (length (heap st) + k)%nat =
  Some (new_track p frame obs (track_id st + Z.of_nat k)).
Proof.
  intros Hk. rewrite heap_after_frame_new.
  apply newborn_lookup. by exists (j, obs).
Qed.

(** ** The tracks of before, after the frame *)

Lemma active_matched p df st frame m t :
  valid_assignment → wf p st →
  m ∈ accepted p df st frame → heap st !! m_track m = Some t →
  heap_after_frame p df st frame !! m_track m =
  Some (matched frame (m_obs m) (m_cost m) (predicted t)).
Proof.
  intros Hval Hwf Hm Ht.
  rewrite heap_after_frame_old by (by eapply lookup_lt_Some).
  apply heap_matched; try done.
  by apply StronglySorted_lt_NoDup, (wf_tracks_sorted p).
Qed.

Lemma active_unmatched p df st frame a t :
  wf p st → a ∈ tracks st →
  ¬ matched_in_frame p df st frame a → heap st !! a = Some t →
  heap_after_frame p df st frame !! a = Some (predicted t).
Proof.
  intros Hwf Ha Hno Ht.
  rewrite heap_after_frame_old by (by eapply lookup_lt_Some).
  apply heap_unmatched; try done.
  by apply StronglySorted_lt_NoDup, (wf_tracks_sorted p).
Qed.

Lemma inactive_untouched p df st frame a :
  (a < length (heap st))%nat → a ∉ tracks st →
  heap_after_frame p df st frame !! a = heap st !! a.
Proof.
  intros Hlt Ha. rewrite heap_after_frame_old by done.
  by apply heap_inactive.
Qed.

Lemma active_track_exists p st a :
  wf p st → a ∈ tracks st → ∃ t, heap st !! a = Some t.
Proof.
  intros Hwf Ha. apply lookup_lt_is_Some_2.
  by eapply (proj1 (Forall_forall _ _) (wf_tracks_valid p st Hwf)).
Qed.

End FrameFacts.

(** * The claims about the frame loop

    Each theorem is about a run of the loop over any list of frames followed
    by one more iteration: [st] is the state at the end of the earlier
    frames, [st'] the state at the end of the frame.  The only assumption is
    what scipy documents of the assignment it returns. *)

Section FrameClaims.
Context {tracklib : TrackLib}.
Implicit Types (p : Params) (df : DataFrame) (st : LoopState) (frame : Z).

Lemma heap_ids_seq p st :
  wf p st → id_ <$> heap st = Z.of_nat <$> seq 0 (length (heap st)).
Proof.
  intros Hwf. apply list_eq. intros a. rewrite !list_lookup_fmap.
  destruct (heap st !! a) as [t|] eqn:Ht; simpl.
  - rewrite (wf_ids p st Hwf a t Ht).
    rewrite (proj2 (lookup_seq 0 _ a a)); [done|].
    split; [done|]. by eapply lookup_lt_Some.
  - apply lookup_ge_None in Ht.
    rewrite (proj2 (lookup_ge_None (seq 0 (length (heap st))) a)); [done|].
    by rewrite length_seq.
Qed.

Lemma heap_ids_sorted p st :
  wf p st → StronglySorted Z.lt (id_ <$> heap st).
Proof.
  intros Hwf. rewrite (heap_ids_seq p st Hwf).
  apply (StronglySorted_fmap _ lt); [|apply StronglySorted_seq].
  intros x y Hxy. lia.
Qed.

Lemma StronglySorted_Zlt_NoDup (l : list Z) : StronglySorted Z.lt l → NoDup l.
Proof.
  induction 1 as [|x l Hl IH Hx]; constructor; [|done].
  intros Hin. eapply (proj1 (Forall_forall _ _) Hx) in Hin. lia.
Qed.

Lemma heap_after_frame_take p df st frame :
  id_ <$> take (length (heap st)) (heap_after_frame p df st frame) =
  id_ <$> heap st.
Proof.
  unfold heap_after_frame.
  rewrite take_app_length' by (by rewrite length_heap_after_update).
  apply heap_after_update_ids.
Qed.

Lemma heap_after_frame_drop p df st frame :
  drop (length (heap st)) (heap_after_frame p df st frame) =
  newborn p df st frame.
Proof.
  unfold heap_after_frame.
  by rewrite drop_app_length' by (by rewrite length_heap_after_update).
Qed.

(** C6.  Within a run the ids of the tracks are pairwise distinct and
    strictly increasing in creation order: the store lists the tracks in
    the order of their creation, a frame keeps the ids of the tracks of
    before and appends the tracks it creates, and every track it creates
    has an id above every id given before. *)
Theorem track_ids_increasing p df (frames : list Z) frame :
  valid_assignment →
  ∃ st st',
    frame_loop p df loop_init frames = Ok st ∧
    frame_loop p df loop_init (frames ++ [frame]) = Ok st' ∧
    id_ <$> take (length (heap st)) (heap st') = id_ <$> heap st ∧
    drop (length (heap st)) (heap st') = newborn p df st frame ∧
    StronglySorted Z.lt (id_ <$> heap st') ∧
    NoDup (id_ <$> heap st') ∧
    (∀ t new, t ∈ heap st → new ∈ newborn p df st frame → id_ t < id_ new).
Proof.
  intros Hval.
  destruct (loop_then_step p df frames frame Hval)
    as (st & st' & Hst & Hstep & Hst' & Hwf & Hwf' & Hheap & Htracks).
  exists st, st'. split_and!; try done.
  - rewrite Hheap. apply heap_after_frame_take.
  - rewrite Hheap. apply heap_after_frame_drop.
  - by apply (heap_ids_sorted p).
  - by apply StronglySorted_Zlt_NoDup, (heap_ids_sorted p).
  - intros t new Ht Hnew.
    apply list_elem_of_lookup in Ht as [a Ha].
    apply list_elem_of_lookup in Hnew as [k Hk].
    rewrite (wf_ids p st Hwf a t Ha).
    apply newborn_lookup in Hk as (jo & _ & ->). simpl.
    rewrite (wf_next p st Hwf). apply lookup_lt_Some in Ha. lia.
Qed.

(** C4.  At the end of a frame a track that was active when the frame
    started has [last_seen = 0] exactly when it received an accepted match
    in the frame, and otherwise one more than at the end of the frame
    before; a track born in the frame has [last_seen = 0].  A track that is
    no longer active is not touched. *)
Theorem last_seen_reset_or_increment p df (frames : list Z) frame :
  valid_assignment →
  ∃ st st',
    frame_loop p df loop_init frames = Ok st ∧
    frame_step p df st frame = Ok st' ∧
    (∀ a, a ∈ tracks st →
       ∃ t t', heap st !! a = Some t ∧ heap st' !! a = Some t' ∧
         (matched_in_frame p df st frame a → last_seen t' = 0) ∧
         (¬ matched_in_frame p df st frame a →
            last_seen t' = last_seen t + 1) ∧
         (last_seen t' = 0 ↔ matched_in_frame p df st frame a)) ∧
    drop (length (heap st)) (heap st') = newborn p df st frame ∧
    (∀ new, new ∈ newborn p df st frame → last_seen new = 0) ∧
    (∀ a, (a < length (heap st))%nat → a ∉ tracks st →
       heap st' !! a = heap st !! a).
Proof.
  intros Hval.
  destruct (loop_then_step p df frames frame Hval)
    as (st & st' & Hst & Hstep & Hst' & Hwf & Hwf' & Hheap & Htracks).
  exists st, st'. split_and!; try done.
  - intros a Ha. destruct (active_track_exists p st a Hwf Ha) as [t Ht].
    assert (0 ≤ last_seen t) as Hpos.
    { apply list_elem_of_lookup_2 in Ht.
      by eapply (proj1 (Forall_forall _ _) (wf_last_seen p st Hwf)). }
    rewrite Hheap.
    destruct (decide (matched_in_frame p df st frame a)) as [Hm|Hno].
    + destruct Hm as (m & Hm & <-).
      exists t, (matched frame (m_obs m) (m_cost m) (predicted t)).
      split_and!; try done.
      * by apply active_matched.
      * intros Hno. exfalso. apply Hno. by exists m.
      * split; [|done]. intros _. by exists m.
    + exists t, (predicted t). split_and!; try done.
      * by apply active_unmatched.
      * simpl. split; [lia|done].
  - rewrite Hheap. apply heap_after_frame_drop.
  - intros new Hnew. apply list_elem_of_lookup in Hnew as [k Hk].
    by apply newborn_lookup in Hk as (jo & _ & ->).
  - intros a Hlt Ha. rewrite Hheap. by apply inactive_untouched.
Qed.

Lemma registry_all p st :
  wf p st → 0 ≤ max_frames_before_death p → registry st = heap st.
Proof.
  intros Hwf Hmax. unfold registry.
  rewrite (wf_registered p st Hwf Hmax).
  apply list_eq. intros a. rewrite list_lookup_fmap.
  destruct (heap st !! a) as [t|] eqn:Ht.
  - rewrite (proj2 (lookup_seq 0 _ a a)).
    + simpl. by rewrite (list_lookup_total_correct _ _ _ Ht).
    + split; [done|]. by eapply lookup_lt_Some.
  - apply lookup_ge_None in Ht.
    rewrite (proj2 (lookup_ge_None (seq 0 (length (heap st))) a)); [done|].
    by rewrite length_seq.
Qed.

Lemma registry_ids p st :
  wf p st → id_ <$> registry st = Z.of_nat <$> all_tracks st.
Proof.
  intros Hwf. unfold registry. rewrite <-list_fmap_compose.
  apply Forall_fmap_ext.
  eapply Forall_impl; [exact (wf_all_valid p st Hwf)|].
  intros a Ha. simpl in *. apply lookup_lt_is_Some_2 in Ha as [t Ht].
  rewrite (list_lookup_total_correct _ _ _ Ht). by eapply wf_ids.
Qed.

Lemma registry_ids_sorted p st :
  wf p st → StronglySorted Z.lt (id_ <$> registry st).
Proof.
  intros Hwf. rewrite (registry_ids p st Hwf).
  apply (StronglySorted_fmap _ lt); [|by apply (wf_all_sorted p)].
  intros x y Hxy. lia.
Qed.

(** C5, with the condition the code needs.  A track leaves the active list
    at the end of the first frame at whose end its [last_seen] exceeds
    [max_frames_before_death]: at the start of a frame no active track
    exceeds the limit, and at its end the active tracks are those, of the
    tracks active before and the tracks born in the frame, that do not
    exceed it.  No id occurs twice in the registry, and for a limit that is
    not negative the registry holds every track ever created, pruned or
    not, once. *)
Theorem pruning_and_registry p df (frames : list Z) frame :
  valid_assignment →
  ∃ st st',
    frame_loop p df loop_init frames = Ok st ∧
    frame_step p df st frame = Ok st' ∧
    Forall (λ a, last_seen (heap st !!! a) ≤ max_frames_before_death p)
           (tracks st) ∧
    (∀ a, a ∈ tracks st' ↔
          (a ∈ tracks st ∨
           (length (heap st) ≤ a < length (heap st'))%nat) ∧
          last_seen (heap st' !!! a) ≤ max_frames_before_death p) ∧
    Forall (λ a, ¬ (last_seen (heap st' !!! a) > max_frames_before_death p))
           (tracks st') ∧
    NoDup (id_ <$> registry st') ∧
    (0 ≤ max_frames_before_death p → registry st' = heap st').
Proof.
  intros Hval.
  destruct (loop_then_step p df frames frame Hval)
    as (st & st' & Hst & Hstep & Hst' & Hwf & Hwf' & Hheap & Htracks).
  exists st, st'. split_and!; try done.
  - by apply (wf_alive p).
  - intros a. rewrite Htracks, Hheap. unfold tracks_after_frame.
    rewrite list_elem_of_filter, elem_of_app, elem_of_seq.
    rewrite length_heap_after_frame. tauto.
  - eapply Forall_impl; [exact (wf_alive p st' Hwf')|].
    intros a Ha. simpl in *. lia.
  - by apply StronglySorted_Zlt_NoDup, (registry_ids_sorted p).
  - intros Hmax. by apply (registry_all p).
Qed.

(** C3.  Every pair the assignment proposes has as cost the distance
    between the predicted position of its track and its detection.  The pair
    is accepted exactly when that cost is strictly below the threshold, and
    then the track is updated with the detection.  A pair that is not
    accepted leaves its track as the predict loop left it, and its
    detection starts a new track.  A track with no accepted match is left
    as the predict loop left it. *)
Theorem threshold_gate p df (frames : list Z) frame :
  valid_assignment →
  ∃ st st',
    frame_loop p df loop_init frames = Ok st ∧
    frame_step p df st frame = Ok st' ∧
    (∀ m, m ∈ proposed_matches df st frame →
       ∃ t, heap st !! m_track m = Some t ∧
         m_cost m = norm_diff (kf_x (predict (kf t))) (m_obs m) ∧
         (m ∈ accepted p df st frame ↔
          (m_cost m <? distance_threshold p)%float = true) ∧
         ((m_cost m <? distance_threshold p)%float = true →
          heap st' !! m_track m =
          Some (matched frame (m_obs m) (m_cost m) (predicted t))) ∧
         ((m_cost m <? distance_threshold p)%float = false →
          heap st' !! m_track m = Some (predicted t) ∧
          ∃ k, births p df st frame !! k = Some (m_j m, m_obs m) ∧
               heap st' !! (length (heap st) + k)%nat =
               Some (new_track p frame (m_obs m)
                               (track_id st + Z.of_nat k)))) ∧
    (∀ a t, a ∈ tracks st → heap st !! a = Some t →
       ¬ matched_in_frame p df st frame a →
       heap st' !! a = Some (predicted t)).
Proof.
  intros Hval.
  destruct (loop_then_step p df frames frame Hval)
    as (st & st' & Hst & Hstep & Hst' & Hwf & Hwf' & Hheap & Htracks).
  pose proof (StronglySorted_lt_NoDup _ (wf_tracks_sorted p st Hwf)) as Hnd.
  exists st, st'. split_and!; try done.
  - intros m Hm. destruct (proposed_lookup _ _ _ _ Hm) as [Ha Hobs].
    assert (m_track m ∈ tracks st) as Hact by (by eapply list_elem_of_lookup_2).
    destruct (active_track_exists p st _ Hwf Hact) as [t Ht].
    exists t. rewrite Hheap. split_and!; try done.
    + by apply (proposed_cost df st frame).
    + rewrite accepted_elem. tauto.
    + intros Hlt. apply active_matched; try done.
      apply accepted_elem. done.
    + intros Hge.
      assert (∀ m', m' ∈ accepted p df st frame → m' ≠ m) as Hother.
      { intros m' Hm' ->. apply accepted_elem in Hm' as [_ Hlt]. congruence. }
      split.
      * apply active_unmatched; try done.
        intros (m' & Hm' & Heq). apply (Hother m' Hm').
        eapply proposed_track_unique; try done.
        by eapply accepted_proposed.
      * assert ((m_j m, m_obs m) ∈ births p df st frame) as Hb.
        { apply births_elem. split; [done|]. intros m' Hm' Heq.
          apply (Hother m' Hm').
          eapply proposed_detection_unique; try done.
          by eapply accepted_proposed. }
        apply list_elem_of_lookup in Hb as [k Hk]. exists k.
        split; [done|]. by eapply birth_track.
  - intros a t Ha Ht Hno. rewrite Hheap. by apply active_unmatched.
Qed.

(** C10.  Every detection of a frame is consumed exactly once.  Either one
    accepted match, and only one, has the detection: then the detection
    and the frame are appended to the positions and the frame ids of the
    one track of that match, and the detection starts no track.  Or no
    accepted match has it: then it is one entry, and only one, of the
    births of the frame, and the track allocated for that entry has the
    detection as its only position and the frame as its only frame id.
    The frame allocates one track for each birth and no other. *)
Theorem detection_consumed_once p df (frames : list Z) frame :
  valid_assignment →
  ∃ st st',
    frame_loop p df loop_init frames = Ok st ∧
    frame_step p df st frame = Ok st' ∧
    length (heap st') =
      (length (heap st) + length (births p df st frame))%nat ∧
    ∀ j obs, observations_of df frame !! j = Some obs →
      ((∃ m t t',
          m ∈ accepted p df st frame ∧ m_j m = j ∧ m_obs m = obs ∧
          (∀ m', m' ∈ accepted p df st frame → m_j m' = j → m' = m) ∧
          m_track m ∈ tracks st ∧
          heap st !! m_track m = Some t ∧
          heap st' !! m_track m = Some t' ∧
          positions t' = positions t ++ [obs] ∧
          frame_ids t' = frame_ids t ++ [frame]) ∧
       (∀ o, (j, o) ∉ births p df st frame))
      ∨
      ((∀ m, m ∈ accepted p df st frame → m_j m ≠ j) ∧
       ∃ k new,
          births p df st frame !! k = Some (j, obs) ∧
          (∀ k' o, births p df st frame !! k' = Some (j, o) → k' = k) ∧
          heap st' !! (length (heap st) + k)%nat = Some new ∧
          positions new = [obs] ∧ frame_ids new = [frame]).
Proof.
  intros Hval.
  destruct (loop_then_step p df frames frame Hval)
    as (st & st' & Hst & Hstep & Hst' & Hwf & Hwf' & Hheap & Htracks).
  exists st, st'. split_and!; try done.
  { rewrite Hheap. apply length_heap_after_frame. }
  intros j obs Hj. rewrite Hheap.
  destruct (decide (j ∈ m_j <$> accepted p df st frame)) as [Hin|Hout].
  - left. apply list_elem_of_fmap in Hin as (m & -> & Hm).
    destruct (accepted_lookup _ _ _ _ _ Hm) as [Ha Hobs].
    assert (m_obs m = obs) as Hobs' by congruence.
    pose proof (accepted_active _ _ _ _ _ Hm) as Hact.
    destruct (active_track_exists p st _ Hwf Hact) as [t Ht].
    split.
    + exists m, t, (matched frame (m_obs m) (m_cost m) (predicted t)).
      split_and!; try done.
      * intros m' Hm' Heq. by eapply accepted_detection_unique.
      * by apply active_matched.
      * simpl. by rewrite Hobs'.
    + intros o Hb. apply births_elem in Hb as [_ Hno]. by eapply Hno.
  - right.
    assert (∀ m, m ∈ accepted p df st frame → m_j m ≠ j) as Hno.
    { intros m Hm Heq. apply Hout. apply list_elem_of_fmap. eauto. }
    split; [done|].
    assert ((j, obs) ∈ births p df st frame) as Hb by (by apply births_elem).
    apply list_elem_of_lookup in Hb as [k Hk].
    exists k, (new_track p frame obs (track_id st + Z.of_nat k)).
    split_and!; try done.
    + intros k' o Hk'. by eapply births_index_unique.
    + by eapply birth_track.
Qed.

End FrameClaims.

(** * The sort that ends a run *)

Section Sorting.
Context {A : Type} (key : A → nat).

Lemma insert_by_Permutation (x : A) (l : list A) :
  insert_by key x l ≡ₚ x :: l.
Proof.
  induction l as [|y l IH]; simpl; [done|].
  destruct (decide (key x ≤ key y)%nat); [done|].
  rewrite IH. apply Permutation_swap.
Qed.

Lemma stable_sort_Permutation (l : list A) : stable_sort key l ≡ₚ l.
Proof.
  unfold stable_sort. induction l as [|x l IH]; simpl; [done|].
  by rewrite insert_by_Permutation, IH.
Qed.

Lemma insert_by_sorted (x : A) (l : list A) :
  StronglySorted (λ a b, key a ≤ key b)%nat l →
  StronglySorted (λ a b, key a ≤ key b)%nat (insert_by key x l).
Proof.
  induction 1 as [|y l Hl IH Hy]; simpl.
  { repeat constructor. }
  destruct (decide (key x ≤ key y)%nat) as [Hle|Hgt].
  - constructor; [by constructor|].
    constructor; [done|].
    eapply Forall_impl; [exact Hy|]. intros z Hz. simpl in *. lia.
  - constructor; [done|].
    rewrite insert_by_Permutation. constructor; [lia|done].
Qed.

Lemma stable_sort_sorted (l : list A) :
  StronglySorted (λ a b, key a ≤ key b)%nat (stable_sort key l).
Proof.
  unfold stable_sort. induction l as [|x l IH]; simpl; [constructor|].
  by apply insert_by_sorted.
Qed.

(** Stability: the elements of one key keep their order. *)
Lemma insert_by_filter (k : nat) (x : A) (l : list A) :
  filter (λ a, key a = k) (insert_by key x l) =
  filter (λ a, key a = k) (x :: l).
Proof.
  induction l as [|y l IH]; simpl; [done|].
  destruct (decide (key x ≤ key y)%nat) as [Hle|Hgt]; [done|].
  rewrite (filter_cons _ y), IH, !filter_cons.
  destruct (decide (key y = k)), (decide (key x = k)); try done. lia.
Qed.

Lemma stable_sort_filter (k : nat) (l : list A) :
  filter (λ a, key a = k) (stable_sort key l) = filter (λ a, key a = k) l.
Proof.
  unfold stable_sort. induction l as [|x l IH]; simpl; [done|].
  rewrite insert_by_filter, !filter_cons, IH. done.
Qed.

Lemma StronglySorted_reverse (R : relation A) (l : list A) :
  StronglySorted R l → StronglySorted (flip R) (reverse l).
Proof.
  induction 1 as [|x l Hl IH Hx]; [constructor|].
  rewrite reverse_cons. apply StronglySorted_app. split_and!.
  - intros y z Hy Hz. apply list_elem_of_singleton in Hz as ->.
    rewrite elem_of_reverse in Hy. unfold flip.
    by eapply (proj1 (Forall_forall _ _) Hx).
  - done.
  - repeat constructor.
Qed.

Lemma sorted_reverse_Permutation (l : list A) : sorted_reverse key l ≡ₚ l.
Proof.
  unfold sorted_reverse.
  by rewrite reverse_Permutation, stable_sort_Permutation, reverse_Permutation.
Qed.

Lemma sorted_reverse_descending (l : list A) :
  StronglySorted (λ a b, key b ≤ key a)%nat (sorted_reverse key l).
Proof.
  unfold sorted_reverse.
  apply (StronglySorted_reverse (λ a b, key a ≤ key b)%nat).
  apply stable_sort_sorted.
Qed.

Lemma sorted_reverse_stable (k : nat) (l : list A) :
  filter (λ a, key a = k) (sorted_reverse key l) = filter (λ a, key a = k) l.
Proof.
  unfold sorted_reverse.
  rewrite filter_reverse, stable_sort_filter, filter_reverse.
  apply reverse_involutive.
Qed.

End Sorting.

(** * One run *)

Section RunFacts.
Context {mathlib : MathLib} {tracklib : TrackLib}.

Lemma filter_and_sort_elem (st : LoopState) (t : Track) :
  t ∈ filter_and_sort st ↔
  t ∈ registry st ∧
  (5 < length (positions t))%nat ∧ (100 <? distance t)%float = true.
Proof.
  unfold filter_and_sort.
  rewrite sorted_reverse_Permutation, list_elem_of_filter.
  unfold good_track. tauto.
Qed.

(** With a table loaded and a valid assignment the tracking part of a run
    returns, and returns the filtered and sorted registry. *)
Lemma tracking_result_Ok (self : KalmanFilterCLI) (df : DataFrame) :
  valid_assignment → self_df self = Some df →
  ∃ st,
    frame_loop (params_of self) df loop_init
               (frame_range (start_frame self) (end_frame self)) = Ok st ∧
    wf (params_of self) st ∧
    tracking_result self = Ok (filter_and_sort st).
Proof.
  intros Hval Hdf.
  destruct (frame_loop_Ok (params_of self) df loop_init
              (frame_range (start_frame self) (end_frame self)) Hval)
    as [st Hst].
  exists st. split; [done|]. split.
  - by eapply wf_loop; [|apply wf_init|].
  - unfold tracking_result, table_of. rewrite Hdf. simpl.
    rewrite Hst. done.
Qed.

(** C7.  After the frame range the surviving list is the tracks of the
    registry with more than 5 positions and a distance above 100, each
    once, in descending order of the number of positions; the tracks of
    one length keep the order of the registry, which is the order of
    creation. *)
Theorem survivors_filtered_sorted (self : KalmanFilterCLI) (df : DataFrame) :
  valid_assignment → self_df self = Some df →
  ∃ st result,
    frame_loop (params_of self) df loop_init
               (frame_range (start_frame self) (end_frame self)) = Ok st ∧
    tracking_result self = Ok result ∧
    result ≡ₚ filter good_track (registry st) ∧
    (∀ t, t ∈ result ↔
          t ∈ registry st ∧
          (5 < length (positions t))%nat ∧ (100 <? distance t)%float = true) ∧
    StronglySorted
      (λ t1 t2, length (positions t2) ≤ length (positions t1))%nat result ∧
    (∀ n, filter (λ t, length (positions t) = n) result =
          filter (λ t, length (positions t) = n)
                 (filter good_track (registry st))) ∧
    StronglySorted Z.lt (id_ <$> registry st) ∧
    (∀ n, StronglySorted Z.lt
            (id_ <$> filter (λ t, length (positions t) = n) result)).
Proof.
  intros Hval Hdf.
  destruct (tracking_result_Ok self df Hval Hdf) as (st & Hst & Hwf & Hres).
  pose proof (registry_ids_sorted _ _ Hwf) as Hsorted.
  assert (Hstable : ∀ n,
    filter (λ t, length (positions t) = n) (filter_and_sort st) =
    filter (λ t, length (positions t) = n) (filter good_track (registry st))).
  { intros n. unfold filter_and_sort.
    apply (sorted_reverse_stable (λ t, length (positions t))). }
  exists st, (filter_and_sort st). split_and!; try done.
  - apply sorted_reverse_Permutation.
  - apply filter_and_sort_elem.
  - apply (sorted_reverse_descending (λ t, length (positions t))).
  - intros n. rewrite Hstable.
    eapply (StronglySorted_fmap id_ (λ t1 t2, id_ t1 < id_ t2)); [done|].
    do 2 apply StronglySorted_filter.
    clear -Hsorted. induction (registry st) as [|t l IH]; [constructor|].
    rewrite fmap_cons in Hsorted. apply StronglySorted_inv in Hsorted as [Hl Ht].
    constructor; [by apply IH|]. by rewrite Forall_fmap in Ht.
Qed.

(** ** Counting the directions *)

Lemma track_direction_Ok (z : Zone) (t : Track) :
  positions t ≠ [] → ∃ d, track_direction (Some z) t = Ok d.
Proof.
  intros Hne. unfold track_direction.
  destruct (positions t) as [|o l] eqn:Hp; [done|].
  assert (is_Some ((o :: l) !! (length (o :: l) - 1)%nat)) as [o' Ho'].
  { apply lookup_lt_is_Some_2. simpl. lia. }
  rewrite (subscript_lookup (o :: l) 0 o), bind_Ok by done.
  rewrite (subscript_lookup _ _ _ Ho'), bind_Ok.
  apply check_direction_total.
Qed.

Lemma track_direction_no_zone (t : Track) :
  positions t ≠ [] → track_direction None t = Raise TypeError.
Proof.
  intros Hne. unfold track_direction.
  destruct (positions t) as [|o l] eqn:Hp; [done|].
  assert (is_Some ((o :: l) !! (length (o :: l) - 1)%nat)) as [o' Ho'].
  { apply lookup_lt_is_Some_2. simpl. lia. }
  rewrite (subscript_lookup (o :: l) 0 o), bind_Ok by done.
  rewrite (subscript_lookup _ _ _ Ho'), bind_Ok.
  apply check_direction_no_zone.
Qed.

Lemma count_directions_Ok (z : Zone) (l : list Track) :
  Forall (λ t, positions t ≠ []) l →
  ∃ c, count_directions (Some z) l = Ok c.
Proof.
  unfold count_directions. generalize counter_zero.
  induction l as [|t l IH]; intros c Hl; simpl; [eauto|].
  apply Forall_cons in Hl as [Ht Hl].
  destruct (track_direction_Ok z t Ht) as [d ->]. simpl. by apply IH.
Qed.

(** Without a zone the first surviving track stops the run. *)
Lemma count_directions_no_zone (t : Track) (l : list Track) :
  positions t ≠ [] → count_directions None (t :: l) = Raise TypeError.
Proof.
  intros Ht. unfold count_directions. simpl.
  by rewrite track_direction_no_zone.
Qed.

Lemma survivors_positions (st : LoopState) :
  Forall (λ t, positions t ≠ []) (filter_and_sort st).
Proof.
  apply Forall_forall. intros t Ht.
  apply filter_and_sort_elem in Ht as (_ & Hlen & _).
  intros Hnil. rewrite Hnil in Hlen. simpl in Hlen. lia.
Qed.

(** A run with a table and a zone returns: it stores the surviving list
    and the counts. *)
Lemma track_insects_one_file_Ok (self : KalmanFilterCLI) (df : DataFrame)
    (z : Zone) :
  valid_assignment → self_df self = Some df → ellipse self = Some z →
  ∃ st c,
    frame_loop (params_of self) df loop_init
               (frame_range (start_frame self) (end_frame self)) = Ok st ∧
    track_insects_one_file self =
    Ok (set_result self (filter_and_sort st) c).
Proof.
  intros Hval Hdf Hz.
  destruct (tracking_result_Ok self df Hval Hdf) as (st & Hst & Hwf & Hres).
  destruct (count_directions_Ok z _ (survivors_positions st)) as [c Hc].
  exists st, c. split; [done|].
  unfold track_insects_one_file. rewrite Hres. simpl.
  rewrite Hz, Hc. done.
Qed.

(** A run without a zone raises as soon as a track survives. *)
Lemma track_insects_one_file_no_zone (self : KalmanFilterCLI)
    (t : Track) (l : list Track) :
  ellipse self = None → tracking_result self = Ok (t :: l) →
  (5 < length (positions t))%nat →
  track_insects_one_file self = Raise TypeError.
Proof.
  intros Hz Hres Hlen. unfold track_insects_one_file.
  rewrite Hres. simpl. rewrite Hz, count_directions_no_zone; [done|].
  intros Hnil. rewrite Hnil in Hlen. simpl in Hlen. lia.
Qed.

(** C9.  A run is a function of the table, the frame range, the four
    parameters and the zone: two runs that agree on them return the same
    surviving tracks, with their ids, positions and frame ids, the same
    direction for every track, and the same counts, whatever else the two
    objects hold from earlier runs. *)
Theorem run_deterministic (self1 self2 : KalmanFilterCLI) :
  self_df self1 = self_df self2 →
  start_frame self1 = start_frame self2 →
  end_frame self1 = end_frame self2 →
  params_of self1 = params_of self2 →
  ellipse self1 = ellipse self2 →
  run_output <$> track_insects_one_file self1 =
    run_output <$> track_insects_one_file self2 ∧
  tracking_result self1 = tracking_result self2 ∧
  (∀ t, track_direction (ellipse self1) t = track_direction (ellipse self2) t).
Proof.
  intros Hdf Hstart Hend Hp Hz.
  assert (tracking_result self1 = tracking_result self2) as Hres.
  { unfold tracking_result, table_of. by rewrite Hdf, Hstart, Hend, Hp. }
  split_and!; [|done|by rewrite Hz].
  unfold track_insects_one_file. rewrite Hres, Hz.
  destruct (tracking_result self2) as [l|e]; [|done]. simpl.
  by destruct (count_directions (ellipse self2) l).
Qed.

End RunFacts.

(** * The batch driver *)

Section BatchFacts.
Context {mathlib : MathLib} {tracklib : TrackLib}.

Lemma load_csv_ellipses disk (self : KalmanFilterCLI) path ok self' :
  load_csv disk self path = Ok (ok, self') → ellipses self' = ellipses self.
Proof.
  unfold load_csv. intros Hload.
  destruct (disk path) as [table|]; [|done].
  repeat (case_match || case_decide); by simplify_eq.
Qed.

Lemma track_insects_one_file_ellipses (self self' : KalmanFilterCLI) :
  track_insects_one_file self = Ok self' → ellipses self' = ellipses self.
Proof.
  unfold track_insects_one_file. intros Hrun.
  destruct (tracking_result self) as [l|e]; [|done]. simpl in Hrun.
  destruct (count_directions (ellipse self) l) as [c|e]; [|done].
  simpl in Hrun. by simplify_eq.
Qed.

(** The zone table is the same for every file of a batch. *)
Lemma process_file_ellipses disk (self self' : KalmanFilterCLI)
    (stats stats' : list string) file :
  process_file disk (self, stats) file = Ok (self', stats') →
  ellipses self' = ellipses self.
Proof.
  unfold process_file. intros Hp.
  destruct (has_zone (ellipses self) (get_date_from_filename file));
    simpl in Hp; [|by simplify_eq].
  destruct (check_already_processed stats file); [by simplify_eq|].
  destruct (load_csv disk (reset_variables self) file) as [[ok s1]|e] eqn:Hl;
    [|done].
  apply load_csv_ellipses in Hl. simpl in *.
  destruct ok.
  - destruct (track_insects_one_file s1) as [s2|e] eqn:Hr; [|done].
    apply track_insects_one_file_ellipses in Hr. simpl in Hp.
    simplify_eq. congruence.
  - simplify_eq. done.
Qed.

(** Lines 180-183: a file whose date has no zone changes nothing. *)
Lemma process_file_no_zone disk (self : KalmanFilterCLI)
    (stats : list string) file :
  has_zone (ellipses self) (get_date_from_filename file) = false →
  process_file disk (self, stats) file = Ok (self, stats).
Proof. unfold process_file. by intros ->. Qed.

(** C1, as the code has it.  When no zone is registered for the date of a
    file, the batch driver skips the file before it loads or tracks
    anything: the object and the statistics file stay as they were, and the
    batch goes on with the files that follow, as if the file were not in
    the folder.  No tracking result, direction or count is produced for
    the file. *)
Theorem no_zone_file_skipped disk (self : KalmanFilterCLI)
    (stats : list string) (file : string) (before after : list string) :
  has_zone (ellipses self) (get_date_from_filename file) = false →
  process_file disk (self, stats) file = Ok (self, stats) ∧
  track_files disk (self, stats) (before ++ file :: after) =
  track_files disk (self, stats) (before ++ after).
Proof.
  intros Hzone. split; [by apply process_file_no_zone|].
  unfold track_files. rewrite !foldlM_app.
  assert (∀ w, foldlM (process_file disk) (self, stats) before = Ok w →
               ellipses w.1 = ellipses self) as Hinv.
  { clear Hzone. revert self stats.
    induction before as [|f before IH]; intros self stats w Hw.
    { simpl in Hw. by simplify_eq. }
    cbn [foldlM] in Hw.
    destruct (process_file disk (self, stats) f) as [[s1 st1]|e] eqn:Hp;
      [|by simpl in Hw].
    apply process_file_ellipses in Hp. rewrite bind_Ok in Hw.
    rewrite <-Hp. by eapply IH. }
  destruct (foldlM (process_file disk) (self, stats) before)
    as [[s1 st1]|e]; [|done].
  specialize (Hinv _ eq_refl). cbn [fst] in Hinv.
  rewrite !bind_Ok. cbn [foldlM].
  rewrite process_file_no_zone by (by rewrite Hinv). done.
Qed.

End BatchFacts.

(** * Further properties of the run *)

Section MoreFacts.
Context {mathlib : MathLib} {tracklib : TrackLib}.
Implicit Types (p : Params) (df : DataFrame) (st : LoopState) (frame : Z).

(** With a valid assignment no subscript of the frame loop is out of
    range: the loop runs to the end of any list of frames, from any
    state. *)
Theorem frame_loop_never_raises p df st (frames : list Z) :
  valid_assignment →
  ∃ st', frame_loop p df st frames = Ok st'.
Proof. apply frame_loop_Ok. Qed.

(** At the end of every frame every track has as many frame ids as
    positions, and at least one. *)
Theorem positions_match_frame_ids p df (frames : list Z) :
  valid_assignment →
  ∃ st,
    frame_loop p df loop_init frames = Ok st ∧
    Forall (λ t, length (positions t) = length (frame_ids t) ∧
                 positions t ≠ []) (heap st).
Proof.
  intros Hval.
  destruct (frame_loop_Ok p df loop_init frames Hval) as [st Hst].
  exists st. split; [done|].
  pose proof (wf_loop p df _ _ _ Hval (wf_init p) Hst) as Hwf.
  eapply Forall_impl; [exact (wf_positions p st Hwf)|].
  intros t [Hne Hlen]. done.
Qed.

(** The distance of a track grows by the cost of its accepted match, and
    only then; a track starts with distance 0. *)
Theorem distance_accumulates_match_cost p df (frames : list Z) frame :
  valid_assignment →
  ∃ st st',
    frame_loop p df loop_init frames = Ok st ∧
    frame_step p df st frame = Ok st' ∧
    (∀ a, a ∈ tracks st →
       ∃ t t', heap st !! a = Some t ∧ heap st' !! a = Some t' ∧
         (∀ m, m ∈ accepted p df st frame → m_track m = a →
               distance t' = (distance t + m_cost m)%float) ∧
         (¬ matched_in_frame p df st frame a → distance t' = distance t)) ∧
    (∀ new, new ∈ newborn p df st frame → distance new = 0%float).
Proof.
  intros Hval.
  destruct (loop_then_step p df frames frame Hval)
    as (st & st' & Hst & Hstep & Hst' & Hwf & Hwf' & Hheap & Htracks).
  exists st, st'. split_and!; try done.
  - intros a Ha. destruct (active_track_exists p st a Hwf Ha) as [t Ht].
    rewrite Hheap.
    destruct (decide (matched_in_frame p df st frame a)) as [Hm|Hno].
    + destruct Hm as (m & Hm & <-).
      exists t, (matched frame (m_obs m) (m_cost m) (predicted t)).
      split_and!; try done.
      * by apply active_matched.
      * intros m' Hm' Heq.
        assert (m' = m) as ->; [|done].
        eapply accepted_track_unique; try done.
        by apply StronglySorted_lt_NoDup, (wf_tracks_sorted p).
      * intros Hno. exfalso. apply Hno. by exists m.
    + exists t, (predicted t). split_and!; try done.
      * by apply active_unmatched.
      * intros m Hm Heq. exfalso. apply Hno. by exists m.
  - intros new Hnew. apply list_elem_of_lookup in Hnew as [k Hk].
    by apply newborn_lookup in Hk as (jo & _ & ->).
Qed.

Lemma counter_total_count (c : Counter) (d : Direction) :
  counter_total (count c d) = counter_total c + 1.
Proof. unfold counter_total. destruct d; simpl; lia. Qed.

Lemma count_directions_total (ellipse : option Zone) (l : list Track)
    (c : Counter) :
  count_directions ellipse l = Ok c →
  counter_total c = Z.of_nat (length l).
Proof.
  unfold count_directions.
  assert (∀ c0 c, foldlM (λ counter track,
             d ← track_direction ellipse track; Ok (count counter d)) c0 l
           = Ok c → counter_total c = counter_total c0 + Z.of_nat (length l))
    as Hgen.
  { induction l as [|t l IH]; intros c0 c' Hc.
    - simpl in Hc. simplify_eq. simpl. lia.
    - cbn [foldlM] in Hc.
      destruct (track_direction ellipse t) as [d|e]; [|by simpl in Hc].
      rewrite !bind_Ok in Hc. apply IH in Hc.
      rewrite Hc, counter_total_count. simpl length. lia. }
  intros Hc. by apply Hgen in Hc.
Qed.

(** A run on a loaded table with a zone returns; it stores the surviving
    list of the tracking part, and the four counts add up to the number of
    surviving tracks. *)
Theorem run_with_zone_counts_survivors (self : KalmanFilterCLI)
    (df : DataFrame) (z : Zone) :
  valid_assignment → self_df self = Some df → ellipse self = Some z →
  ∃ self',
    track_insects_one_file self = Ok self' ∧
    tracking_result self = Ok (self_all_tracks self') ∧
    counter_total (counter self') =
      Z.of_nat (length (self_all_tracks self')).
Proof.
  intros Hval Hdf Hz.
  destruct (tracking_result_Ok self df Hval Hdf) as (st & Hst & Hwf & Hres).
  destruct (count_directions_Ok z _ (survivors_positions st)) as [c Hc].
  exists (set_result self (filter_and_sort st) c).
  split_and!; try done.
  - unfold track_insects_one_file. rewrite Hres, bind_Ok, Hz, Hc. done.
  - simpl. by eapply count_directions_total.
Qed.

(** A file that a line of the statistics file names is not processed
    again: the object is reset and nothing is written. *)
Theorem processed_file_not_repeated disk (self : KalmanFilterCLI)
    (stats : list string) (file : string) :
  has_zone (ellipses self) (get_date_from_filename file) = true →
  check_already_processed stats file = true →
  process_file disk (self, stats) file = Ok (reset_variables self, stats).
Proof. unfold process_file. by intros -> ->. Qed.

End MoreFacts.

Section FileNames.

Lemma take_digits_Some (n : nat) (s d : string) :
  take_digits n s = Some d →
  String.length d = n ∧
  Forall (λ c, is_digit c = true) (String.list_ascii_of_string d) ∧
  String.prefix d s = true.
Proof.
  revert s d. induction n as [|n IH]; intros s d Hd; simpl in Hd.
  { simplify_eq. simpl. split_and!; [done|constructor|by destruct s]. }
  destruct s as [|c s]; [done|].
  destruct (is_digit c) eqn:Hc; [|done].
  destruct (take_digits n s) as [d'|] eqn:Hd'; [|done].
  simpl in Hd. simplify_eq.
  destruct (IH _ _ Hd') as (Hlen & Hall & Hpre).
  simpl. split_and!.
  - by rewrite Hlen.
  - by constructor.
  - destruct (Ascii.ascii_dec c c); [done|congruence].
Qed.

Lemma contains_prefix (needle line : string) :
  String.prefix needle line = true → contains needle line = true.
Proof. intros Hp. destruct line; cbn [contains]; by rewrite Hp. Qed.

Lemma contains_tail (needle : string) (c : Ascii.ascii) (line : string) :
  contains needle line = true → contains needle (String c line) = true.
Proof. intros Hc. cbn [contains]. rewrite Hc. apply orb_true_r. Qed.

Lemma first_digits_Some (n : nat) (s d : string) :
  first_digits n s = Some d →
  String.length d = n ∧
  Forall (λ c, is_digit c = true) (String.list_ascii_of_string d) ∧
  contains d s = true.
Proof.
  induction s as [|c s IH]; intros Hd.
  - cbn [first_digits] in Hd.
    destruct (take_digits n EmptyString) as [d'|] eqn:Ht; [|done].
    simplify_eq. apply take_digits_Some in Ht as (? & ? & ?).
    split_and!; try done. by apply contains_prefix.
  - cbn [first_digits] in Hd.
    destruct (take_digits n (String c s)) as [d'|] eqn:Ht.
    + simplify_eq. apply take_digits_Some in Ht as (? & ? & ?).
      split_and!; try done. by apply contains_prefix.
    + destruct (IH Hd) as (? & ? & ?). split_and!; try done.
      by apply contains_tail.
Qed.

(** The date [get_date_from_filename] finds is eight decimal digits that
    stand together in the file name. *)
Theorem date_is_eight_digits_of_name (filename d : string) :
  get_date_from_filename filename = Some d →
  String.length d = 8%nat ∧
  Forall (λ c, is_digit c = true) (String.list_ascii_of_string d) ∧
  contains d filename = true.
Proof. apply first_digits_Some. Qed.

Lemma date_is_eight_digits_of_name_witness :
  get_date_from_filename Demo.path = Some "20240601" ∧
  String.length "20240601" = 8%nat ∧
  Forall (λ c, is_digit c = true) (String.list_ascii_of_string "20240601") ∧
  contains "20240601" Demo.path = true.
Proof.
  split; [reflexivity|].
  exact (date_is_eight_digits_of_name Demo.path "20240601" eq_refl).
Defined.

End FileNames.

(** * The small instance *)

Module DemoFacts.
Import Demo.

Lemma assignment_valid : valid_assignment (tracklib := lib).
Proof.
  intros cost_matrix m Hrows. simpl. unfold diagonal_assignment.
  assert (length cost_matrix `min` length (default [] (head cost_matrix))
          ≤ length cost_matrix)%nat as Hn by lia.
  assert (length cost_matrix `min` length (default [] (head cost_matrix))
          ≤ m)%nat as Hm.
  { destruct cost_matrix as [|row cm]; [simpl; lia|].
    apply Forall_cons in Hrows as [<- _].
    change (default [] (head (row :: cm))) with row. lia. }
  revert Hn Hm.
  generalize (length cost_matrix `min` length (default [] (head cost_matrix)))%nat.
  intros k Hn Hm.
  split_and!; try apply NoDup_seq; try done.
  - apply Forall_forall. intros i Hi. apply elem_of_seq in Hi. lia.
  - apply Forall_forall. intros j Hj. apply elem_of_seq in Hj. lia.
Qed.

End DemoFacts.

(** * The claims at concrete inputs

    The table of [Demo] has one detection in each of the frames 1 to 8; the
    statements below instantiate the theorems on its first frames. *)

Section Witnesses.
Local Existing Instance Demo.lib.
Local Existing Instance Demo.math.

(** C6 on the frames 1 and 2 followed by frame 3. *)
Lemma track_ids_increasing_witness :
  valid_assignment ∧
  let p := Demo.params in
  let df := rows Demo.table in
  let frames := [1; 2] in
  let frame := 3 in
  ∃ st st',
    frame_loop p df loop_init frames = Ok st ∧
    frame_loop p df loop_init (frames ++ [frame]) = Ok st' ∧
    id_ <$> take (length (heap st)) (heap st') = id_ <$> heap st ∧
    drop (length (heap st)) (heap st') = newborn p df st frame ∧
    StronglySorted Z.lt (id_ <$> heap st') ∧
    NoDup (id_ <$> heap st') ∧
    (∀ t new, t ∈ heap st → new ∈ newborn p df st frame → id_ t < id_ new).
Proof.
  split; [exact DemoFacts.assignment_valid|].
  exact (track_ids_increasing Demo.params (rows Demo.table) [1; 2] 3
           DemoFacts.assignment_valid).
Defined.

(** C4 on the frames 1 and 2 followed by frame 3. *)
Lemma last_seen_reset_or_increment_witness :
  valid_assignment ∧
  let p := Demo.params in
  let df := rows Demo.table in
  let frames := [1; 2] in
  let frame := 3 in
  ∃ st st',
    frame_loop p df loop_init frames = Ok st ∧
    frame_step p df st frame = Ok st' ∧
    (∀ a, a ∈ tracks st →
       ∃ t t', heap st !! a = Some t ∧ heap st' !! a = Some t' ∧
         (matched_in_frame p df st frame a → last_seen t' = 0) ∧
         (¬ matched_in_frame p df st frame a →
            last_seen t' = last_seen t + 1) ∧
         (last_seen t' = 0 ↔ matched_in_frame p df st frame a)) ∧
    drop (length (heap st)) (heap st') = newborn p df st frame ∧
    (∀ new, new ∈ newborn p df st frame → last_seen new = 0) ∧
    (∀ a, (a < length (heap st))%nat → a ∉ tracks st →
       heap st' !! a = heap st !! a).
Proof.
  split; [exact DemoFacts.assignment_valid|].
  exact (last_seen_reset_or_increment Demo.params (rows Demo.table) [1; 2] 3
           DemoFacts.assignment_valid).
Defined.

(** C5 on the frames 1 and 2 followed by frame 3. *)
Lemma pruning_and_registry_witness :
  valid_assignment ∧
  let p := Demo.params in
  let df := rows Demo.table in
  let frames := [1; 2] in
  let frame := 3 in
  ∃ st st',
    frame_loop p df loop_init frames = Ok st ∧
    frame_step p df st frame = Ok st' ∧
    Forall (λ a, last_seen (heap st !!! a) ≤ max_frames_before_death p)
           (tracks st) ∧
    (∀ a, a ∈ tracks st' ↔
          (a ∈ tracks st ∨
           (length (heap st) ≤ a < length (heap st'))%nat) ∧
          last_seen (heap st' !!! a) ≤ max_frames_before_death p) ∧
    Forall (λ a, ¬ (last_seen (heap st' !!! a) > max_frames_before_death p))
           (tracks st') ∧
    NoDup (id_ <$> registry st') ∧
    (0 ≤ max_frames_before_death p → registry st' = heap st').
Proof.
  split; [exact DemoFacts.assignment_valid|].
  exact (pruning_and_registry Demo.params (rows Demo.table) [1; 2] 3
           DemoFacts.assignment_valid).
Defined.

(** C5 without its condition on the limit fails.  With the limit -1 the
    first frame creates the track of id 0 from its detection; the track has
    [last_seen = 0], which exceeds the limit, so the pruning at the end of
    the frame removes it from the active list before the registration loop
    runs: the track was created and is not in the registry. *)
Lemma negative_limit_never_registers :
  (λ st, (id_ <$> heap st, tracks st, id_ <$> registry st)) <$>
    frame_loop Demo.params_negative_limit (rows Demo.table) loop_init [1] =
  Ok ([0], [], []).
Proof. by vm_compute. Qed.

(** C3 on the frames 1 and 2 followed by frame 3. *)
Lemma threshold_gate_witness :
  valid_assignment ∧
  let p := Demo.params in
  let df := rows Demo.table in
  let frames := [1; 2] in
  let frame := 3 in
  ∃ st st',
    frame_loop p df loop_init frames = Ok st ∧
    frame_step p df st frame = Ok st' ∧
    (∀ m, m ∈ proposed_matches df st frame →
       ∃ t, heap st !! m_track m = Some t ∧
         m_cost m = norm_diff (kf_x (predict (kf t))) (m_obs m) ∧
         (m ∈ accepted p df st frame ↔
          (m_cost m <? distance_threshold p)%float = true) ∧
         ((m_cost m <? distance_threshold p)%float = true →
          heap st' !! m_track m =
          Some (matched frame (m_obs m) (m_cost m) (predicted t))) ∧
         ((m_cost m <? distance_threshold p)%float = false →
          heap st' !! m_track m = Some (predicted t) ∧
          ∃ k, births p df st frame !! k = Some (m_j m, m_obs m) ∧
               heap st' !! (length (heap st) + k)%nat =
               Some (new_track p frame (m_obs m)
                               (track_id st + Z.of_nat k)))) ∧
    (∀ a t, a ∈ tracks st → heap st !! a = Some t →
       ¬ matched_in_frame p df st frame a →
       heap st' !! a = Some (predicted t)).
Proof.
  split; [exact DemoFacts.assignment_valid|].
  exact (threshold_gate Demo.params (rows Demo.table) [1; 2] 3
           DemoFacts.assignment_valid).
Defined.

(** C10 on the frames 1 and 2 followed by frame 3. *)
Lemma detection_consumed_once_witness :
  valid_assignment ∧
  let p := Demo.params in
  let df := rows Demo.table in
  let frames := [1; 2] in
  let frame := 3 in
  ∃ st st',
    frame_loop p df loop_init frames = Ok st ∧
    frame_step p df st frame = Ok st' ∧
    length (heap st') =
      (length (heap st) + length (births p df st frame))%nat ∧
    ∀ j obs, observations_of df frame !! j = Some obs →
      ((∃ m t t',
          m ∈ accepted p df st frame ∧ m_j m = j ∧ m_obs m = obs ∧
          (∀ m', m' ∈ accepted p df st frame → m_j m' = j → m' = m) ∧
          m_track m ∈ tracks st ∧
          heap st !! m_track m = Some t ∧
          heap st' !! m_track m = Some t' ∧
          positions t' = positions t ++ [obs] ∧
          frame_ids t' = frame_ids t ++ [frame]) ∧
       (∀ o, (j, o) ∉ births p df st frame))
      ∨
      ((∀ m, m ∈ accepted p df st frame → m_j m ≠ j) ∧
       ∃ k new,
          births p df st frame !! k = Some (j, obs) ∧
          (∀ k' o, births p df st frame !! k' = Some (j, o) → k' = k) ∧
          heap st' !! (length (heap st) + k)%nat = Some new ∧
          positions new = [obs] ∧ frame_ids new = [frame]).
Proof.
  split; [exact DemoFacts.assignment_valid|].
  exact (detection_consumed_once Demo.params (rows Demo.table) [1; 2] 3
           DemoFacts.assignment_valid).
Defined.

(** C7 on the whole table. *)
Lemma survivors_filtered_sorted_witness :
  (valid_assignment ∧
   self_df (Demo.ready (Some Demo.zone)) = Some (rows Demo.table)) ∧
  let self := Demo.ready (Some Demo.zone) in
  let df := rows Demo.table in
  ∃ st result,
    frame_loop (params_of self) df loop_init
               (frame_range (start_frame self) (end_frame self)) = Ok st ∧
    tracking_result self = Ok result ∧
    result ≡ₚ filter good_track (registry st) ∧
    (∀ t, t ∈ result ↔
          t ∈ registry st ∧
          (5 < length (positions t))%nat ∧ (100 <? distance t)%float = true) ∧
    StronglySorted
      (λ t1 t2, length (positions t2) ≤ length (positions t1))%nat result ∧
    (∀ n, filter (λ t, length (positions t) = n) result =
          filter (λ t, length (positions t) = n)
                 (filter good_track (registry st))) ∧
    StronglySorted Z.lt (id_ <$> registry st) ∧
    (∀ n, StronglySorted Z.lt
            (id_ <$> filter (λ t, length (positions t) = n) result)).
Proof.
  split; [split; [exact DemoFacts.assignment_valid|reflexivity]|].
  exact (survivors_filtered_sorted (Demo.ready (Some Demo.zone))
           (rows Demo.table) DemoFacts.assignment_valid eq_refl).
Defined.

(** C9 on a fresh object and on one that holds the results of an earlier
    run. *)
Lemma run_deterministic_witness :
  (self_df (Demo.ready (Some Demo.zone)) =
     self_df (Demo.ready_used (Some Demo.zone)) ∧
   start_frame (Demo.ready (Some Demo.zone)) =
     start_frame (Demo.ready_used (Some Demo.zone)) ∧
   end_frame (Demo.ready (Some Demo.zone)) =
     end_frame (Demo.ready_used (Some Demo.zone)) ∧
   params_of (Demo.ready (Some Demo.zone)) =
     params_of (Demo.ready_used (Some Demo.zone)) ∧
   ellipse (Demo.ready (Some Demo.zone)) =
     ellipse (Demo.ready_used (Some Demo.zone))) ∧
  let self1 := Demo.ready (Some Demo.zone) in
  let self2 := Demo.ready_used (Some Demo.zone) in
  run_output <$> track_insects_one_file self1 =
    run_output <$> track_insects_one_file self2 ∧
  tracking_result self1 = tracking_result self2 ∧
  (∀ t, track_direction (ellipse self1) t = track_direction (ellipse self2) t).
Proof.
  split; [by split_and!|].
  exact (run_deterministic (Demo.ready (Some Demo.zone))
           (Demo.ready_used (Some Demo.zone))
           eq_refl eq_refl eq_refl eq_refl eq_refl).
Defined.

(** C1 as amended, on the folder of [Demo] with an empty zone table. *)
Lemma no_zone_file_skipped_witness :
  has_zone (ellipses (Demo.cli ∅)) (get_date_from_filename Demo.path) = false ∧
  let self := Demo.cli ∅ in
  let stats : list string := [] in
  let file := Demo.path in
  let before : list string := [] in
  let after : list string := [] in
  process_file Demo.disk (self, stats) file = Ok (self, stats) ∧
  track_files Demo.disk (self, stats) (before ++ file :: after) =
  track_files Demo.disk (self, stats) (before ++ after).
Proof.
  split; [reflexivity|].
  exact (no_zone_file_skipped Demo.disk (Demo.cli ∅) [] Demo.path [] []
           eq_refl).
Defined.

(** C1 as the spec states it fails on the folder of [Demo].  No zone is
    registered for the date of the file.  The batch returns with the object
    and the statistics file untouched: no surviving list, no line.  Yet the
    file holds a track that survives the quality filter, as the tracking
    part run on the loaded file shows; the whole run on it raises, since
    the first surviving track is classified against the missing zone.  With
    the zone registered the batch writes the line of the file. *)
Lemma no_zone_no_tracking_result :
  has_zone (∅ : gmap string Zone) (get_date_from_filename Demo.path) = false ∧
  track_insects Demo.disk (Demo.cli ∅, []) = Ok (Demo.cli ∅, []) ∧
  load_csv Demo.disk (reset_variables (Demo.cli ∅)) Demo.path =
    Ok (true, Demo.ready None) ∧
  length <$> tracking_result (Demo.ready None) = Ok 1%nat ∧
  track_insects_one_file (Demo.ready None) = Raise TypeError ∧
  snd <$> track_insects Demo.disk
            (Demo.cli {[ "20240601" := Demo.zone ]}, []) =
    Ok ["bees_20240601_101500.csv,8,1,0,0,0,1"].
Proof. split_and!; by vm_compute. Qed.

(** ** The further properties at concrete inputs *)

Lemma frame_loop_never_raises_witness :
  valid_assignment ∧
  ∃ st', frame_loop Demo.params (rows Demo.table) loop_init [1; 2; 3] = Ok st'.
Proof.
  split; [exact DemoFacts.assignment_valid|].
  exact (frame_loop_never_raises Demo.params (rows Demo.table) loop_init
           [1; 2; 3] DemoFacts.assignment_valid).
Defined.

Lemma positions_match_frame_ids_witness :
  valid_assignment ∧
  ∃ st,
    frame_loop Demo.params (rows Demo.table) loop_init [1; 2; 3] = Ok st ∧
    Forall (λ t, length (positions t) = length (frame_ids t) ∧
                 positions t ≠ []) (heap st).
Proof.
  split; [exact DemoFacts.assignment_valid|].
  exact (positions_match_frame_ids Demo.params (rows Demo.table) [1; 2; 3]
           DemoFacts.assignment_valid).
Defined.

Lemma distance_accumulates_match_cost_witness :
  valid_assignment ∧
  let p := Demo.params in
  let df := rows Demo.table in
  let frames := [1; 2] in
  let frame := 3 in
  ∃ st st',
    frame_loop p df loop_init frames = Ok st ∧
    frame_step p df st frame = Ok st' ∧
    (∀ a, a ∈ tracks st →
       ∃ t t', heap st !! a = Some t ∧ heap st' !! a = Some t' ∧
         (∀ m, m ∈ accepted p df st frame → m_track m = a →
               distance t' = (distance t + m_cost m)%float) ∧
         (¬ matched_in_frame p df st frame a → distance t' = distance t)) ∧
    (∀ new, new ∈ newborn p df st frame → distance new = 0%float).
Proof.
  split; [exact DemoFacts.assignment_valid|].
  exact (distance_accumulates_match_cost Demo.params (rows Demo.table)
           [1; 2] 3 DemoFacts.assignment_valid).
Defined.

Lemma run_with_zone_counts_survivors_witness :
  (valid_assignment ∧
   self_df (Demo.ready (Some Demo.zone)) = Some (rows Demo.table) ∧
   ellipse (Demo.ready (Some Demo.zone)) = Some Demo.zone) ∧
  let self := Demo.ready (Some Demo.zone) in
  ∃ self',
    track_insects_one_file self = Ok self' ∧
    tracking_result self = Ok (self_all_tracks self') ∧
    counter_total (counter self') =
      Z.of_nat (length (self_all_tracks self')).
Proof.
  split; [split_and!; [exact DemoFacts.assignment_valid|done|done]|].
  exact (run_with_zone_counts_survivors (Demo.ready (Some Demo.zone))
           (rows Demo.table) Demo.zone DemoFacts.assignment_valid
           eq_refl eq_refl).
Defined.

Lemma processed_file_not_repeated_witness :
  (has_zone (ellipses (Demo.cli {[ "20240601" := Demo.zone ]}))
            (get_date_from_filename Demo.path) = true ∧
   check_already_processed ["bees_20240601_101500.csv,8,1,0,0,0,1"]
                           Demo.path = true) ∧
  process_file Demo.disk
    (Demo.cli {[ "20240601" := Demo.zone ]},
     ["bees_20240601_101500.csv,8,1,0,0,0,1"]) Demo.path =
  Ok (reset_variables (Demo.cli {[ "20240601" := Demo.zone ]}),
      ["bees_20240601_101500.csv,8,1,0,0,0,1"]).
Proof.
  split; [split; by vm_compute|].
  exact (processed_file_not_repeated Demo.disk
           (Demo.cli {[ "20240601" := Demo.zone ]})
           ["bees_20240601_101500.csv,8,1,0,0,0,1"] Demo.path
           eq_refl eq_refl).
Defined.

(** ** Runs of the small instance *)

(** The centre of a zone lies on both axes: the first case of the chain
    applies. *)
Example centre_is_upper_right :
  ellipse_quad (100, 100)%float (Some Demo.zone) = Ok (Some upper_right).
Proof. by vm_compute. Qed.

Example end_of_axis_is_lower_right :
  ellipse_quad (160, 100)%float (Some Demo.zone) = Ok (Some lower_right).
Proof. by vm_compute. Qed.

Example beyond_axis_is_outside :
  ellipse_quad (161, 100)%float (Some Demo.zone) = Ok (Some quad_outside).
Proof. by vm_compute. Qed.

(** A track whose detection comes back after 20 empty frames goes on under
    its id; after 21 empty frames it has been pruned and the detection
    starts a track with a new id. *)
Example gap_of_20_frames_resumes :
  (λ st, (id_ <$> heap st, tracks st)) <$>
    frame_loop Demo.params (Demo.gap_table 22) loop_init (frame_range 1 22) =
  Ok ([0], [0%nat]).
Proof. by vm_compute. Qed.

Example gap_of_21_frames_starts_anew :
  (λ st, (id_ <$> heap st, tracks st, last_seen <$> heap st)) <$>
    frame_loop Demo.params (Demo.gap_table 23) loop_init (frame_range 1 23) =
  Ok ([0; 1], [1%nat], [21; 0]).
Proof. by vm_compute. Qed.

(** A detection that stays in one place for ten frames makes one track of
    ten positions, which the distance test of the quality filter drops. *)
Example stationary_track_is_filtered :
  let df := (λ frame, mkRow frame 10 10) <$> seqZ 1 10 in
  (λ st, (length <$> (positions <$> heap st), distance <$> heap st,
          length (filter_and_sort st))) <$>
    frame_loop Demo.params df loop_init (frame_range 1 10) =
  Ok ([10%nat], [0%float], 0%nat).
Proof. by vm_compute. Qed.

End Witnesses.

(** * More of the frame loop: edge cases and history *)

Section FrameEdges.
Context {tracklib : TrackLib}.
Implicit Types (p : Params) (df : DataFrame) (st : LoopState) (frame : Z).

(** A frame without detections proposes nothing. *)
Lemma no_detections_no_proposals df st frame :
  valid_assignment → observations_of df frame = [] →
  proposed df st frame = [].
Proof.
  intros Hval Hobs.
  destruct (proposed_valid df st frame Hval) as (Hrange & _).
  destruct (proposed df st frame) as [|ij l]; [done|].
  apply Forall_cons in Hrange as [[_ Hj] _].
  rewrite Hobs in Hj. simpl in Hj. lia.
Qed.

(** Without active tracks nothing is proposed either. *)
Lemma no_tracks_no_proposals df st frame :
  valid_assignment → tracks st = [] → proposed df st frame = [].
Proof.
  intros Hval Htr.
  destruct (proposed_valid df st frame Hval) as (Hrange & _).
  destruct (proposed df st frame) as [|ij l]; [done|].
  apply Forall_cons in Hrange as [[Hi _] _].
  rewrite Htr in Hi. simpl in Hi. lia.
Qed.

Lemma no_proposals_no_accepted p df st frame :
  proposed df st frame = [] → accepted p df st frame = [].
Proof. unfold accepted, proposed_matches. by intros ->. Qed.

Lemma no_accepted_heap p df st frame :
  accepted p df st frame = [] →
  heap_after_update p df st frame = predict_all (heap st) (tracks st).
Proof. unfold heap_after_update. by intros ->. Qed.

Lemma no_accepted_births p df st frame :
  accepted p df st frame = [] →
  births p df st frame =
  zip (seq 0 (length (observations_of df frame))) (observations_of df frame).
Proof.
  unfold births. intros ->. apply filter_all.
  intros jo _. simpl. apply not_elem_of_nil.
Qed.

(** A frame without detections only ages the active tracks: no track is
    created, updated or registered, every active track is predicted and
    its [last_seen] grows by one, and the tracks that then exceed the limit
    leave the active list. *)
Theorem frame_without_detections p df (frames : list Z) frame :
  valid_assignment → observations_of df frame = [] →
  ∃ st st',
    frame_loop p df loop_init frames = Ok st ∧
    frame_step p df st frame = Ok st' ∧
    length (heap st') = length (heap st) ∧
    track_id st' = track_id st ∧
    all_tracks st' = all_tracks st ∧
    (∀ a t, heap st !! a = Some t →
       heap st' !! a =
       Some (if decide (a ∈ tracks st) then predicted t else t)) ∧
    tracks st' =
      filter (λ a, last_seen (heap st !!! a) + 1 ≤ max_frames_before_death p)
             (tracks st).
Proof.
  intros Hval Hobs.
  destruct (loop_then_step p df frames frame Hval)
    as (st & st' & Hst & Hstep & Hst' & Hwf & Hwf' & Hheap & Htracks).
  pose proof (no_proposals_no_accepted p df st frame
                (no_detections_no_proposals df st frame Hval Hobs)) as Hacc.
  assert (births p df st frame = []) as Hb.
  { rewrite no_accepted_births by done. by rewrite Hobs. }
  assert (heap st' = predict_all (heap st) (tracks st)) as Hh.
  { rewrite Hheap. unfold heap_after_frame, newborn.
    rewrite Hb, no_accepted_heap by done. simpl. apply app_nil_r. }
  pose proof (StronglySorted_lt_NoDup _ (wf_tracks_sorted p st Hwf)) as Hnd.
  assert (Hlook : ∀ a t, heap st !! a = Some t →
            heap st' !! a =
            Some (if decide (a ∈ tracks st) then predicted t else t)).
  { intros a t Ht. rewrite Hh. destruct (decide (a ∈ tracks st)).
    - by rewrite predict_all_lookup_in, Ht.
    - by rewrite predict_all_lookup_notin. }
  exists st, st'. split_and!; try done.
  - by rewrite Hh, length_predict_all.
  - rewrite frame_step_closed in Hstep by done. injection Hstep as <-.
    simpl. rewrite Hb. simpl. lia.
  - rewrite frame_step_closed in Hstep by done. injection Hstep as <-.
    simpl. rewrite registry_after_frame by done.
    rewrite Hb. simpl. apply app_nil_r.
  - rewrite Htracks. unfold tracks_after_frame. rewrite Hb. simpl.
    rewrite app_nil_r, <-Hheap. apply filter_ext_elem. intros a Ha.
    destruct (active_track_exists p st a Hwf Ha) as [t Ht].
    rewrite (list_lookup_total_correct _ _ _ Ht).
    rewrite (list_lookup_total_correct _ _ _ (Hlook a t Ht)).
    by rewrite decide_True.
Qed.

(** When no track is active, as in the first frame of a run, every
    detection of the frame starts a track: the new tracks follow the table
    order of the detections and take the next ids in that order. *)
Theorem frame_without_active_tracks p df (frames : list Z) frame :
  valid_assignment →
  ∃ st st',
    frame_loop p df loop_init frames = Ok st ∧
    frame_step p df st frame = Ok st' ∧
    (tracks st = [] →
     heap st' =
       heap st ++
       imap (λ k obs, new_track p frame obs (track_id st + Z.of_nat k))
            (observations_of df frame)).
Proof.
  intros Hval.
  destruct (loop_then_step p df frames frame Hval)
    as (st & st' & Hst & Hstep & Hst' & Hwf & Hwf' & Hheap & Htracks).
  exists st, st'. split_and!; try done.
  intros Hnone.
  pose proof (no_proposals_no_accepted p df st frame
                (no_tracks_no_proposals df st frame Hval Hnone)) as Hacc.
  rewrite Hheap. unfold heap_after_frame, newborn.
  rewrite no_accepted_heap, no_accepted_births by done.
  rewrite Hnone. simpl. f_equal.
  set (obs := observations_of df frame).
  rewrite <-(snd_zip (seq 0 (length obs)) obs) at 3
    by (by rewrite length_seq).
  by rewrite imap_fmap.
Qed.

(** ** The history of a track is never rewritten *)

(** What a later state keeps of an earlier one. *)
Lemma step_extends p df st frame st' :
  valid_assignment → wf p st → frame_step p df st frame = Ok st' →
  (∀ a t, heap st !! a = Some t →
     ∃ t', heap st' !! a = Some t' ∧ id_ t' = id_ t ∧
           positions t `prefix_of` positions t' ∧
           frame_ids t `prefix_of` frame_ids t') ∧
  all_tracks st `prefix_of` all_tracks st'.
Proof.
  intros Hval Hwf Hstep.
  rewrite frame_step_closed in Hstep by done. injection Hstep as <-. simpl.
  split.
  - intros a t Ht.
    destruct (decide (a ∈ tracks st)) as [Ha|Ha].
    + destruct (decide (matched_in_frame p df st frame a)) as [Hm|Hno].
      * destruct Hm as (m & Hm & <-).
        eexists. split; [by apply active_matched|]. simpl.
        split_and!; [done|by apply prefix_app_r..].
      * eexists. split; [by apply active_unmatched|]. simpl. done.
    + exists t. split; [|done].
      rewrite inactive_untouched; [done| |done]. by eapply lookup_lt_Some.
  - rewrite registry_after_frame by done. by apply prefix_app_r.
Qed.

Lemma loop_extends p df st (frames : list Z) st' :
  valid_assignment → wf p st → frame_loop p df st frames = Ok st' →
  (∀ a t, heap st !! a = Some t →
     ∃ t', heap st' !! a = Some t' ∧ id_ t' = id_ t ∧
           positions t `prefix_of` positions t' ∧
           frame_ids t `prefix_of` frame_ids t') ∧
  all_tracks st `prefix_of` all_tracks st'.
Proof.
  intros Hval. unfold frame_loop. revert st.
  induction frames as [|frame frames IH]; intros st Hwf Hloop.
  { simpl in Hloop. simplify_eq. split; [|done]. intros a t Ht. eauto. }
  cbn [foldlM] in Hloop.
  destruct (frame_step p df st frame) as [st1|e] eqn:Hstep;
    [|by simpl in Hloop].
  rewrite bind_Ok in Hloop.
  destruct (step_extends p df st frame st1 Hval Hwf Hstep) as [H1 H1'].
  destruct (IH st1 (wf_step p df st frame st1 Hval Hwf Hstep) Hloop)
    as [H2 H2'].
  split; [|by etrans].
  intros a t Ht. destruct (H1 a t Ht) as (t1 & Ht1 & Hid1 & Hp1 & Hf1).
  destruct (H2 a t1 Ht1) as (t2 & Ht2 & Hid2 & Hp2 & Hf2).
  exists t2. split_and!; [done|congruence|by etrans..].
Qed.

(** Later frames only append to what a run has recorded: a track keeps its
    place in the store and its id, its positions and frame ids stay as a
    prefix of the later ones, and the registry stays as a prefix of the
    later registry. *)
Theorem history_is_append_only p df (frames more : list Z) :
  valid_assignment →
  ∃ st st',
    frame_loop p df loop_init frames = Ok st ∧
    frame_loop p df loop_init (frames ++ more) = Ok st' ∧
    (∀ a t, heap st !! a = Some t →
       ∃ t', heap st' !! a = Some t' ∧ id_ t' = id_ t ∧
             positions t `prefix_of` positions t' ∧
             frame_ids t `prefix_of` frame_ids t') ∧
    all_tracks st `prefix_of` all_tracks st'.
Proof.
  intros Hval.
  destruct (frame_loop_Ok p df loop_init frames Hval) as [st Hst].
  destruct (frame_loop_Ok p df st more Hval) as [st' Hst'].
  pose proof (wf_loop p df _ _ _ Hval (wf_init p) Hst) as Hwf.
  exists st, st'. split; [done|]. split.
  { unfold frame_loop in *. by rewrite foldlM_app, Hst. }
  by eapply loop_extends.
Qed.

End FrameEdges.

(** ** Runs over consecutive frames *)

Section ConsecutiveFrames.
Context {tracklib : TrackLib}.
Implicit Types (p : Params) (df : DataFrame) (st : LoopState) (frame : Z).

Lemma sorted_snoc (l : list Z) (x : Z) :
  StronglySorted Z.lt l → Forall (λ f, f < x) l →
  StronglySorted Z.lt (l ++ [x]).
Proof.
  intros Hl Hx. apply StronglySorted_app. split_and!; [|done|repeat constructor].
  intros y z Hy Hz. apply list_elem_of_singleton in Hz as ->.
  by eapply (proj1 (Forall_forall _ _) Hx).
Qed.

Lemma tracks_after_frame_elem p df st frame a :
  a ∈ tracks_after_frame p df st frame ↔
  (a ∈ tracks st ∨
   (length (heap st) ≤ a < length (heap st) + length (births p df st frame))%nat) ∧
  last_seen (heap_after_frame p df st frame !!! a)
    ≤ max_frames_before_death p.
Proof.
  unfold tracks_after_frame.
  rewrite list_elem_of_filter, elem_of_app, elem_of_seq. tauto.
Qed.

Lemma frames_kept_step p df start n st st' :
  valid_assignment → wf p st → frames_kept p start n st →
  frame_step p df st (start + Z.of_nat n) = Ok st' →
  frames_kept p start (S n) st'.
Proof.
  intros Hval Hwf Hkept Hstep.
  rewrite frame_step_closed in Hstep by done. injection Hstep as <-.
  set (frame := start + Z.of_nat n).
  intros a t' Ht'. simpl in Ht'. cbn [tracks].
  rewrite tracks_after_frame_elem.
  rewrite (list_lookup_total_correct _ _ _ Ht').
  destruct (decide (a < length (heap st))%nat) as [Hold|Hnew].
  - destruct (lookup_lt_is_Some_2 _ _ Hold) as [t Ht].
    destruct (Hkept a t Ht) as (Hsorted & Hbounds & Hact & Hinact).
    assert (Forall (λ f, start ≤ f < start + Z.of_nat (S n)) (frame_ids t))
      as Hbounds'.
    { eapply Forall_impl; [exact Hbounds|]. intros f Hf. simpl in *. lia. }
    destruct (decide (a ∈ tracks st)) as [Ha|Ha].
    + destruct (Hact Ha) as (f & Hlast & Hf).
      assert (last_seen t ≤ max_frames_before_death p) as Halive.
      { pose proof (proj1 (Forall_forall _ _) (wf_alive p st Hwf) a Ha) as Hal.
        simpl in Hal. by rewrite (list_lookup_total_correct _ _ _ Ht) in Hal. }
      assert (0 ≤ last_seen t) as Hpos.
      { apply list_elem_of_lookup_2 in Ht.
        by eapply (proj1 (Forall_forall _ _) (wf_last_seen p st Hwf)). }
      destruct (decide (matched_in_frame p df st frame a)) as [Hm|Hno].
      * destruct Hm as (m & Hm & <-).
        rewrite (active_matched p df st frame m t Hval Hwf Hm Ht) in Ht'.
        simplify_eq. simpl. split_and!.
        -- apply sorted_snoc; [done|].
           eapply Forall_impl; [exact Hbounds|]. intros g Hg. simpl in *.
           unfold frame. lia.
        -- apply Forall_app. split; [done|]. constructor; [|constructor].
           unfold frame. lia.
        -- intros _. exists frame. rewrite last_snoc. split; [done|].
           unfold frame. lia.
        -- intros Hout Hmax. exfalso. apply Hout. split; [by left|lia].
      * rewrite (active_unmatched p df st frame a t Hwf Ha Hno Ht) in Ht'.
        simplify_eq. simpl. split_and!; try done.
        -- intros _. exists f. split; [done|]. lia.
        -- intros Hout Hmax.
           assert (¬ last_seen t + 1 ≤ max_frames_before_death p) as Hdead.
           { intros Hle. apply Hout. split; [by left|done]. }
           lia.
    + rewrite inactive_untouched in Ht' by done. simplify_eq.
      split_and!; try done.
      * intros [[Hin|Hrange] _]; [done|lia].
      * intros _ Hmax. by apply Hinact.
  - replace a with (length (heap st) + (a - length (heap st)))%nat in Ht'
      by lia.
    rewrite heap_after_frame_new in Ht'.
    pose proof (lookup_lt_Some _ _ _ Ht') as Hk. rewrite length_newborn in Hk.
    apply newborn_lookup in Ht' as (jo & _ & ->). simpl.
    split_and!.
    + repeat constructor.
    + constructor; [|constructor]. unfold frame. lia.
    + intros _. exists frame. split; [done|]. unfold frame. lia.
    + intros Hout Hmax. exfalso. apply Hout. split; [right; lia|done].
Qed.

Lemma frames_kept_loop p df start (n : nat) :
  valid_assignment →
  ∃ st,
    frame_loop p df loop_init (seqZ start (Z.of_nat n)) = Ok st ∧
    wf p st ∧ frames_kept p start n st.
Proof.
  intros Hval. induction n as [|n (st & Hst & Hwf & Hkept)].
  { exists loop_init. split_and!; [done|apply wf_init|].
    intros a t Ht. simpl in Ht. by rewrite lookup_nil in Ht. }
  destruct (frame_step_Ok p df st (start + Z.of_nat n) Hval) as [st' Hstep].
  exists st'. split_and!.
  - rewrite seqZ_S. unfold frame_loop in *. by rewrite foldlM_snoc, Hst.
  - by eapply wf_step.
  - by eapply frames_kept_step.
Qed.

(** On a run over the frames [start_frame] to [end_frame], every track
    holds strictly increasing frame ids of that range, so at most one
    detection of each frame; for an active track [last_seen] is the number
    of frames since its last match; and with a limit that is not negative
    a pruned track stays at [last_seen = max_frames_before_death + 1]. *)
Theorem frame_ids_and_last_seen p df (start_frame end_frame : Z) :
  valid_assignment →
  ∃ st,
    frame_loop p df loop_init (frame_range start_frame end_frame) = Ok st ∧
    ∀ a t, heap st !! a = Some t →
      StronglySorted Z.lt (frame_ids t) ∧
      Forall (λ f, start_frame ≤ f ≤ end_frame) (frame_ids t) ∧
      (a ∈ tracks st →
         ∃ f, last (frame_ids t) = Some f ∧ last_seen t = end_frame - f) ∧
      (a ∉ tracks st → 0 ≤ max_frames_before_death p →
         last_seen t = max_frames_before_death p + 1).
Proof.
  intros Hval. unfold frame_range.
  destruct (decide (end_frame + 1 - start_frame ≤ 0)) as [Hempty|Hsome].
  { rewrite seqZ_nil by done. exists loop_init. split; [done|].
    intros a t Ht. simpl in Ht. by rewrite lookup_nil in Ht. }
  destruct (frames_kept_loop p df start_frame
              (Z.to_nat (end_frame + 1 - start_frame)) Hval)
    as (st & Hst & _ & Hkept).
  rewrite Z2Nat.id in Hst by lia.
  exists st. split; [done|]. intros a t Ht.
  destruct (Hkept a t Ht) as (Hsorted & Hbounds & Hact & Hinact).
  rewrite Z2Nat.id in Hbounds, Hact by lia.
  split_and!; try done.
  - eapply Forall_impl; [exact Hbounds|]. intros f Hf. simpl in *. lia.
  - intros Ha. destruct (Hact Ha) as (f & Hlast & Hf).
    exists f. split; [done|]. lia.
Qed.

End ConsecutiveFrames.

Section SurvivorFacts.
Context {mathlib : MathLib} {tracklib : TrackLib}.

(** The surviving list names every track at most once, and only tracks of
    the registry: no track is reported twice. *)
Theorem survivors_are_distinct_tracks (self : KalmanFilterCLI)
    (df : DataFrame) :
  valid_assignment → self_df self = Some df →
  ∃ st result,
    frame_loop (params_of self) df loop_init
               (frame_range (start_frame self) (end_frame self)) = Ok st ∧
    tracking_result self = Ok result ∧
    NoDup (id_ <$> result) ∧
    id_ <$> result ⊆ id_ <$> heap st ∧
    (length result ≤ length (heap st))%nat.
Proof.
  intros Hval Hdf.
  destruct (tracking_result_Ok self df Hval Hdf) as (st & Hst & Hwf & Hres).
  exists st, (filter_and_sort st). split_and!; try done.
  - unfold filter_and_sort. rewrite sorted_reverse_Permutation.
    eapply sublist_NoDup; [|apply fmap_sublist, sublist_filter].
    by eapply StronglySorted_Zlt_NoDup, registry_ids_sorted.
  - intros i Hi. apply list_elem_of_fmap in Hi as (t & -> & Ht).
    apply filter_and_sort_elem in Ht as (Ht & _).
    unfold registry in Ht. apply list_elem_of_fmap in Ht as (a & -> & Ha).
    pose proof (proj1 (Forall_forall _ _) (wf_all_valid _ _ Hwf) a Ha) as Hlt.
    simpl in Hlt. apply lookup_lt_is_Some_2 in Hlt as [t Ht].
    rewrite (list_lookup_total_correct _ _ _ Ht).
    apply list_elem_of_fmap. exists t. split; [done|].
    by eapply list_elem_of_lookup_2.
  - unfold filter_and_sort. rewrite sorted_reverse_Permutation.
    etrans; [apply length_filter|]. unfold registry. rewrite length_fmap.
    assert (NoDup (all_tracks st)) as Hnd
      by (by eapply StronglySorted_lt_NoDup, wf_all_sorted).
    assert (all_tracks st ⊆ seq 0 (length (heap st))) as Hsub.
    { intros a Ha. apply elem_of_seq.
      pose proof (proj1 (Forall_forall _ _) (wf_all_valid _ _ Hwf) a Ha).
      simpl in *. lia. }
    pose proof (submseteq_length _ _ (NoDup_submseteq _ _ Hnd Hsub)) as Hlen.
    by rewrite length_seq in Hlen.
Qed.

End SurvivorFacts.

(** * More of the batch driver *)

Section StringFacts.

Lemma prefix_refl (s : string) : String.prefix s s = true.
Proof.
  induction s as [|c s IH]; [done|]. simpl.
  by destruct (Ascii.ascii_dec c c).
Qed.

Lemma prefix_app (a b c : string) :
  String.prefix a b = true → String.prefix a (b +:+ c) = true.
Proof.
  revert b. induction a as [|x a IH]; intros b Hp.
  { by destruct (b +:+ c). }
  destruct b as [|y b]; simpl in *; [done|].
  destruct (Ascii.ascii_dec x y); [by apply IH|done].
Qed.

Lemma contains_app (a b c : string) :
  contains a b = true → contains a (b +:+ c) = true.
Proof.
  induction b as [|y b IH]; intros Hc.
  - destruct a; [|done]. apply contains_prefix. by destruct c.
  - cbn [contains] in Hc. apply orb_true_iff in Hc as [Hp|Hc].
    + apply contains_prefix. by apply prefix_app.
    + change (String y b +:+ c) with (String y (b +:+ c)).
      apply contains_tail. by apply IH.
Qed.

Lemma contains_refl (s : string) : contains s s = true.
Proof. apply contains_prefix, prefix_refl. Qed.

Lemma prefix_contains_trans (a b c : string) :
  contains a b = true → String.prefix b c = true → contains a c = true.
Proof.
  revert c. induction b as [|y b IH]; intros c Hab Hbc.
  - destruct a; [|done]. apply contains_prefix. by destruct c.
  - destruct c as [|z c]; [done|]. simpl in Hbc.
    destruct (Ascii.ascii_dec y z) as [->|]; [|done].
    cbn [contains] in Hab. apply orb_true_iff in Hab as [Hp|Hab].
    + apply contains_prefix. clear IH.
      destruct a as [|x a]; [done|]. simpl in *.
      destruct (Ascii.ascii_dec x z); [|done].
      revert b c Hp Hbc. induction a as [|x' a IHa]; intros b c Hp Hbc.
      { by destruct c. }
      destruct b as [|y' b]; [done|]. destruct c as [|z' c]; [done|].
      simpl in *. destruct (Ascii.ascii_dec x' y') as [->|]; [|done].
      destruct (Ascii.ascii_dec y' z') as [->|]; [|done].
      destruct (Ascii.ascii_dec z' z'); [|done]. by eapply IHa.
    + apply contains_tail. by eapply IH.
Qed.

Lemma contains_trans (a b c : string) :
  contains a b = true → contains b c = true → contains a c = true.
Proof.
  intros Hab. induction c as [|z c IH]; intros Hbc.
  - destruct b; [|done]. done.
  - cbn [contains] in Hbc. apply orb_true_iff in Hbc as [Hp|Hbc].
    + by eapply prefix_contains_trans.
    + apply contains_tail. by apply IH.
Qed.

(** A line of the statistics file starts with the base name. *)
Lemma join_fields_contains (needle name : string) (fields : list Z) :
  contains needle name = true →
  contains needle (join_fields name fields) = true.
Proof.
  unfold join_fields. revert name.
  induction fields as [|n fields IH]; intros name Hc; [done|].
  simpl. apply IH. by apply contains_app.
Qed.

End StringFacts.

Section BatchAgain.
Context {mathlib : MathLib} {tracklib : TrackLib}.

Lemma check_already_processed_app (stats more : list string) (file : string) :
  check_already_processed (stats ++ more) file =
  check_already_processed stats file || check_already_processed more file.
Proof. unfold check_already_processed. apply existsb_app. Qed.

Lemma load_csv_path disk (self : KalmanFilterCLI) path self' :
  load_csv disk self path = Ok (true, self') → file_path self' = path.
Proof.
  unfold load_csv. intros Hload.
  destruct (disk path) as [table|]; [|done].
  repeat (case_match || case_decide); by simplify_eq.
Qed.

Lemma track_insects_one_file_path (self self' : KalmanFilterCLI) :
  track_insects_one_file self = Ok self' → file_path self' = file_path self.
Proof.
  unfold track_insects_one_file. intros Hrun.
  destruct (tracking_result self) as [l|e]; [|done]. simpl in Hrun.
  destruct (count_directions (ellipse self) l) as [c|e]; [|done].
  simpl in Hrun. by simplify_eq.
Qed.

Lemma recorded_after_line (stats : list string) file fields :
  check_already_processed (stats ++ [join_fields (basename file) fields]) file
  = true.
Proof.
  rewrite check_already_processed_app. apply orb_true_iff. right.
  unfold check_already_processed. simpl. rewrite orb_false_r.
  apply join_fields_contains, contains_refl.
Qed.

Lemma process_file_recorded disk (self self' : KalmanFilterCLI)
    (stats stats' : list string) file :
  process_file disk (self, stats) file = Ok (self', stats') →
  has_zone (ellipses self) (get_date_from_filename file) = true →
  check_already_processed stats' file = true.
Proof.
  intros Hp Hz. unfold process_file in Hp. rewrite Hz in Hp. simpl in Hp.
  destruct (check_already_processed stats file) eqn:Hc; [by simplify_eq|].
  destruct (load_csv disk (reset_variables self) file) as [[ok s1]|e] eqn:Hl;
    [|done].
  simpl in Hp. destruct ok.
  - destruct (track_insects_one_file s1) as [s2|e] eqn:Hr; [|done].
    simpl in Hp. simplify_eq. unfold stats_line.
    apply load_csv_path in Hl. apply track_insects_one_file_path in Hr.
    rewrite Hr, Hl. apply recorded_after_line.
  - simplify_eq. apply recorded_after_line.
Qed.

Lemma process_file_line disk (self self' : KalmanFilterCLI)
    (stats stats' : list string) file :
  process_file disk (self, stats) file = Ok (self', stats') →
  stats' = stats ∨
  ∃ fields, length fields = 6%nat ∧
    stats' = stats ++ [join_fields (basename file) fields].
Proof.
  unfold process_file. intros Hp.
  destruct (has_zone (ellipses self) (get_date_from_filename file));
    simpl in Hp; [|left; by simplify_eq].
  destruct (check_already_processed stats file); [left; by simplify_eq|].
  destruct (load_csv disk (reset_variables self) file) as [[ok s1]|e] eqn:Hl;
    [|done].
  simpl in Hp. destruct ok.
  - destruct (track_insects_one_file s1) as [s2|e] eqn:Hr; [|done].
    simpl in Hp. simplify_eq. right. unfold stats_line.
    apply load_csv_path in Hl. apply track_insects_one_file_path in Hr.
    rewrite Hr, Hl. eexists. split; [|reflexivity]. reflexivity.
  - simplify_eq. right. unfold no_data_line.
    eexists. split; [|reflexivity]. reflexivity.
Qed.

Lemma track_files_snoc disk w files file :
  track_files disk w (files ++ [file]) =
  track_files disk w files ≫= λ w', process_file disk w' file.
Proof. apply foldlM_snoc. Qed.

Lemma process_file_csv_files disk (self self' : KalmanFilterCLI)
    (stats stats' : list string) file :
  process_file disk (self, stats) file = Ok (self', stats') →
  csv_files self' = csv_files self.
Proof.
  unfold process_file. intros Hp.
  destruct (has_zone (ellipses self) (get_date_from_filename file));
    simpl in Hp; [|by simplify_eq].
  destruct (check_already_processed stats file); [by simplify_eq|].
  destruct (load_csv disk (reset_variables self) file) as [[ok s1]|e] eqn:Hl;
    [|done].
  assert (csv_files s1 = csv_files self) as Hs1.
  { unfold load_csv in Hl. destruct (disk file) as [table|]; [|done].
    repeat (case_match || case_decide); by simplify_eq. }
  simpl in Hp. destruct ok; [|by simplify_eq].
  destruct (track_insects_one_file s1) as [s2|e] eqn:Hr; [|done].
  simpl in Hp. simplify_eq. rewrite <- Hs1.
  unfold track_insects_one_file in Hr.
  destruct (tracking_result s1) as [l|e]; [|done]. simpl in Hr.
  destruct (count_directions (ellipse s1) l) as [c|e]; [|done].
  simpl in Hr. by simplify_eq.
Qed.

Lemma track_files_csv_files disk (self self' : KalmanFilterCLI)
    (stats stats' : list string) files :
  track_files disk (self, stats) files = Ok (self', stats') →
  csv_files self' = csv_files self.
Proof.
  revert self' stats'.
  induction files as [|file files IH] using rev_ind; intros self' stats' Hrun.
  { cbn in Hrun. by simplify_eq. }
  rewrite track_files_snoc in Hrun.
  destruct (track_files disk (self, stats) files) as [[s1 l1]|e] eqn:Hfiles;
    [|done].
  rewrite bind_Ok in Hrun. apply process_file_csv_files in Hrun.
  rewrite Hrun. by eapply IH.
Qed.

(** What a pass over the files leaves behind. *)
Lemma track_files_recorded disk (self self' : KalmanFilterCLI)
    (stats stats' : list string) files :
  track_files disk (self, stats) files = Ok (self', stats') →
  ellipses self' = ellipses self ∧
  (∃ more, stats' = stats ++ more ∧ (length more ≤ length files)%nat ∧
     Forall (λ line, ∃ file fields, file ∈ files ∧ length fields = 6%nat ∧
                       line = join_fields (basename file) fields) more) ∧
  ∀ file, file ∈ files →
    has_zone (ellipses self) (get_date_from_filename file) = true →
    check_already_processed stats' file = true.
Proof.
  revert self' stats'.
  induction files as [|file files IH] using rev_ind; intros self' stats' Hrun.
  { cbn in Hrun. simplify_eq. split_and!; [done| |by intros ? ?%elem_of_nil].
    exists []. by rewrite app_nil_r. }
  rewrite track_files_snoc in Hrun.
  destruct (track_files disk (self, stats) files) as [[s1 l1]|e] eqn:Hfiles;
    [|done].
  rewrite bind_Ok in Hrun.
  destruct (IH _ _ eq_refl) as (Hell & (more & -> & Hlen & Hall) & Hrec).
  split_and!.
  - apply process_file_ellipses in Hrun. congruence.
  - apply process_file_line in Hrun as [->|(fields & Hf & ->)].
    + exists more. split_and!; [done|rewrite length_app; lia|].
      eapply Forall_impl; [done|]. intros line (f & fs & ? & ? & ?).
      exists f, fs. split_and!; try done. apply elem_of_app. by left.
    + exists (more ++ [join_fields (basename file) fields]).
      split_and!; [by rewrite (assoc_L (++))|rewrite !length_app; simpl; lia|].
      apply Forall_app. split.
      * eapply Forall_impl; [done|]. intros line (f & fs & ? & ? & ?).
        exists f, fs. split_and!; try done. apply elem_of_app. by left.
      * apply Forall_singleton. exists file, fields.
        split_and!; try done. apply elem_of_app. right. by apply list_elem_of_singleton.
  - intros f [Hin|Hin]%elem_of_app Hz.
    + specialize (Hrec f Hin Hz).
      apply process_file_line in Hrun as [->|(fields & _ & ->)]; [done|].
      rewrite check_already_processed_app, Hrec. done.
    + apply list_elem_of_singleton in Hin as ->.
      eapply process_file_recorded; [done|]. by rewrite Hell.
Qed.

(** A pass over files that are all recorded, or have no zone, writes
    nothing and reads no file. *)
Lemma track_files_skips disk (self : KalmanFilterCLI) (stats : list string)
    files :
  (∀ file, file ∈ files →
     has_zone (ellipses self) (get_date_from_filename file) = true →
     check_already_processed stats file = true) →
  ∃ self', track_files disk (self, stats) files = Ok (self', stats) ∧
    ellipses self' = ellipses self.
Proof.
  induction files as [|file files IH] using rev_ind; intros Hrec.
  { by exists self. }
  destruct IH as (s1 & Hfiles & Hell).
  { intros f Hin. apply Hrec, elem_of_app. by left. }
  rewrite track_files_snoc, Hfiles, bind_Ok. unfold process_file.
  destruct (has_zone (ellipses s1) (get_date_from_filename file)) eqn:Hz;
    simpl.
  - rewrite Hrec; [by eexists| |by rewrite <- Hell].
    apply elem_of_app. right. by apply list_elem_of_singleton.
  - by exists s1.
Qed.

(** Running the batch a second time, on the statistics file the first run
    left, writes nothing: every file with a zone is found in the statistics
    file and skipped before it is read, so that the second run cannot raise
    either. *)
Theorem second_run_writes_nothing disk (self self1 : KalmanFilterCLI)
    (stats stats1 : list string) :
  track_insects disk (self, stats) = Ok (self1, stats1) →
  ∃ self2, track_insects disk (self1, stats1) = Ok (self2, stats1).
Proof.
  unfold track_insects. simpl. intros Hrun.
  rewrite (track_files_csv_files _ _ _ _ _ _ Hrun).
  apply track_files_recorded in Hrun as (Hell & _ & Hrec).
  destruct (track_files_skips disk self1 stats1 (csv_files self)) as (s2 & ? & _).
  { intros f Hin Hz. apply Hrec; [done|]. by rewrite <- Hell. }
  by exists s2.
Qed.

(** The statistics file only grows: a run appends at most one line for each
    file, and every line it appends is the base name of one of the files
    followed by six numbers. *)
Theorem stats_lines_name_the_files disk (self self1 : KalmanFilterCLI)
    (stats stats1 : list string) :
  track_insects disk (self, stats) = Ok (self1, stats1) →
  ∃ more, stats1 = stats ++ more ∧
    (length more ≤ length (csv_files self))%nat ∧
    Forall (λ line, ∃ file fields, file ∈ csv_files self ∧
                      length fields = 6%nat ∧
                      line = join_fields (basename file) fields) more.
Proof.
  unfold track_insects. simpl. intros Hrun.
  by apply track_files_recorded in Hrun as (_ & ? & _).
Qed.

(** The test for a processed file is a substring test: after a file is
    processed, a file whose base name occurs inside the base name of the
    first is taken for processed too, and skipped. *)
Theorem name_inside_recorded_name_is_skipped disk
    (self self1 : KalmanFilterCLI) (stats stats1 : list string)
    (file other : string) :
  process_file disk (self, stats) other = Ok (self1, stats1) →
  has_zone (ellipses self) (get_date_from_filename other) = true →
  has_zone (ellipses self) (get_date_from_filename file) = true →
  contains (basename file) (basename other) = true →
  process_file disk (self1, stats1) file = Ok (reset_variables self1, stats1).
Proof.
  intros Hp Hzo Hzf Hin.
  assert (check_already_processed stats1 file = true) as Hrec.
  { unfold process_file in Hp. rewrite Hzo in Hp. simpl in Hp.
    destruct (check_already_processed stats other) eqn:Hc.
    - simplify_eq. unfold check_already_processed in *.
      apply existsb_exists in Hc as (line & ? & Hline).
      apply existsb_exists. exists line. split; [done|].
      by eapply contains_trans.
    - destruct (load_csv disk (reset_variables self) other)
        as [[ok s1]|e] eqn:Hl; [|done].
      simpl in Hp.
      assert (∃ fields, stats1 = stats ++ [join_fields (basename other) fields])
        as [fields ->].
      { destruct ok.
        - destruct (track_insects_one_file s1) as [s2|e] eqn:Hr; [|done].
          simpl in Hp. simplify_eq. eexists. unfold stats_line.
          apply load_csv_path in Hl. apply track_insects_one_file_path in Hr.
          by rewrite Hr, Hl.
        - simplify_eq. by eexists. }
      rewrite check_already_processed_app. apply orb_true_iff. right.
      unfold check_already_processed. simpl. rewrite orb_false_r.
      by apply join_fields_contains. }
  apply process_file_ellipses in Hp.
  unfold process_file. by rewrite Hp, Hzf, Hrec.
Qed.

End BatchAgain.

Section FileNamesAgain.

Lemma take_digits_app (n : nat) (d rest : string) :
  Forall (λ c, is_digit c = true) (String.list_ascii_of_string d) →
  (n ≤ String.length d)%nat →
  take_digits n (d +:+ rest) = Some (String.substring 0 n d).
Proof.
  revert d. induction n as [|n IH]; intros d Hd Hn.
  { by destruct d. }
  destruct d as [|c d]; simpl in Hn; [lia|].
  apply Forall_cons in Hd as [Hc Hd]. simpl. rewrite Hc.
  rewrite IH; [done|done|lia].
Qed.

Lemma first_digits_skip (n : nat) (pre s : string) :
  Forall (λ c, is_digit c = false) (String.list_ascii_of_string pre) →
  first_digits (S n) (pre +:+ s) = first_digits (S n) s.
Proof.
  induction pre as [|c pre IH]; intros Hpre; [done|].
  apply Forall_cons in Hpre as [Hc Hpre].
  change (String c pre +:+ s) with (String c (pre +:+ s)).
  cbn [first_digits take_digits]. rewrite Hc. by apply IH.
Qed.

Lemma first_digits_here (n : nat) (s d : string) :
  take_digits n s = Some d → first_digits n s = Some d.
Proof. intros Hd. destruct s; cbn [first_digits]; by rewrite Hd. Qed.

Lemma date_of_date_first_name (pre d rest : string) :
  Forall (λ c, is_digit c = false) (String.list_ascii_of_string pre) →
  Forall (λ c, is_digit c = true) (String.list_ascii_of_string d) →
  String.length d = 8%nat →
  get_date_from_filename (pre +:+ d +:+ rest) = Some d.
Proof.
  intros Hpre Hd Hlen. unfold get_date_from_filename.
  rewrite (first_digits_skip _ pre) by done.
  apply first_digits_here. rewrite take_digits_app; [|done|lia].
  f_equal. rewrite <- Hlen. clear. induction d; simpl; congruence.
Qed.

Lemma time_of_date_first_name (pre d rest : string) :
  Forall (λ c, is_digit c = false) (String.list_ascii_of_string pre) →
  Forall (λ c, is_digit c = true) (String.list_ascii_of_string d) →
  String.length d = 8%nat →
  get_time_from_filename (pre +:+ d +:+ rest) = Some (String.substring 0 6 d).
Proof.
  intros Hpre Hd Hlen. unfold get_time_from_filename.
  rewrite (first_digits_skip _ pre) by done.
  apply first_digits_here. apply take_digits_app; [done|lia].
Qed.

(** In a name whose first digits are the eight digits of the date, the
    pattern of six digits matches at the date: the time that
    [get_time_from_filename] returns is the year and the month, whatever
    follows the date. *)
Theorem time_is_year_and_month (pre d rest : string) :
  Forall (λ c, is_digit c = false) (String.list_ascii_of_string pre) →
  Forall (λ c, is_digit c = true) (String.list_ascii_of_string d) →
  String.length d = 8%nat →
  get_date_from_filename (pre +:+ d +:+ rest) = Some d ∧
  get_time_from_filename (pre +:+ d +:+ rest) = Some (String.substring 0 6 d).
Proof.
  intros Hpre Hd Hlen. split.
  - by apply date_of_date_first_name.
  - by apply time_of_date_first_name.
Qed.

End FileNamesAgain.

Section Loading.
Context {mathlib : MathLib} {tracklib : TrackLib}.

Lemma column_min_le (l : list Z) (x : Z) : x ∈ l → column_min l ≤ x.
Proof.
  unfold column_min. generalize (default 0 (head l)). intros d.
  induction 1 as [x l|x y l _ IH]; simpl; lia.
Qed.

Lemma column_max_ge (l : list Z) (x : Z) : x ∈ l → x ≤ column_max l.
Proof.
  unfold column_max. generalize (default 0 (head l)). intros d.
  induction 1 as [x l|x y l _ IH]; simpl; lia.
Qed.

Lemma foldr_min_elem (d : Z) (l : list Z) :
  foldr Z.min d l = d ∨ foldr Z.min d l ∈ l.
Proof.
  induction l as [|x l IH]; simpl; [by left|].
  destruct (Z.min_spec x (foldr Z.min d l)) as [[_ ->]|[_ ->]].
  - right. left.
  - destruct IH as [->|IH]; [by left|]. right. by right.
Qed.

Lemma foldr_max_elem (d : Z) (l : list Z) :
  foldr Z.max d l = d ∨ foldr Z.max d l ∈ l.
Proof.
  induction l as [|x l IH]; simpl; [by left|].
  destruct (Z.max_spec x (foldr Z.max d l)) as [[_ ->]|[_ ->]].
  - destruct IH as [->|IH]; [by left|]. right. by right.
  - right. left.
Qed.

Lemma column_min_elem (l : list Z) : l ≠ [] → column_min l ∈ l.
Proof.
  intros Hl. destruct l as [|x l]; [done|].
  change (column_min (x :: l)) with (foldr Z.min x (x :: l)).
  destruct (foldr_min_elem x (x :: l)) as [->|?]; [left|done].
Qed.

Lemma column_max_elem (l : list Z) : l ≠ [] → column_max l ∈ l.
Proof.
  intros Hl. destruct l as [|x l]; [done|].
  change (column_max (x :: l)) with (foldr Z.max x (x :: l)).
  destruct (foldr_max_elem x (x :: l)) as [->|?]; [left|done].
Qed.

(** The rows of a table, frame after frame. *)
Lemma filter_split {A} (P Q R : A → Prop) `{∀ x, Decision (P x)}
    `{∀ x, Decision (Q x)} `{∀ x, Decision (R x)} (l : list A) :
  (∀ x, R x ↔ P x ∨ Q x) → (∀ x, P x → Q x → False) →
  filter R l ≡ₚ filter P l ++ filter Q l.
Proof.
  intros HR Hdisj. induction l as [|x l IH]; [done|].
  rewrite !filter_cons.
  destruct (decide (P x)) as [HP|HP], (decide (Q x)) as [HQ|HQ];
    destruct (decide (R x)) as [Hx|Hx];
    try (exfalso; by eauto); try (exfalso; apply Hx, HR; by eauto);
    try (exfalso; apply HR in Hx as [?|?]; by eauto).
  - simpl. by rewrite IH.
  - rewrite IH. by rewrite Permutation_middle.
  - done.
Qed.

Lemma rows_by_frame (df : list Row) (start : Z) (n : nat) :
  mjoin ((λ frame, filter (λ r, video_frame_id r = frame) df)
           <$> seqZ start (Z.of_nat n)) ≡ₚ
  filter (λ r, start ≤ video_frame_id r < start + Z.of_nat n) df.
Proof.
  induction n as [|n IH].
  { rewrite filter_none; [done|]. intros r _. lia. }
  rewrite seqZ_S, fmap_app, join_app, IH. simpl.
  rewrite app_nil_r. symmetry. apply filter_split; intros r; lia.
Qed.

Lemma observations_by_frame (df : list Row) (start_frame end_frame : Z) :
  (∀ r, r ∈ df → start_frame ≤ video_frame_id r ≤ end_frame) →
  mjoin (observations_of df <$> frame_range start_frame end_frame) ≡ₚ
  (λ r, (center_x r, center_y r)) <$> df.
Proof.
  intros Hin. unfold frame_range, observations_of.
  transitivity ((λ r, (center_x r, center_y r)) <$>
    mjoin ((λ frame, filter (λ r, video_frame_id r = frame) df)
             <$> seqZ start_frame (end_frame + 1 - start_frame))).
  { generalize (seqZ start_frame (end_frame + 1 - start_frame)). intros l.
    induction l as [|f l IH]; [done|]. simpl. by rewrite fmap_app, IH. }
  apply fmap_Permutation.
  destruct (decide (end_frame + 1 - start_frame < 0)) as [Hneg|Hpos].
  { destruct df as [|r df]; [|specialize (Hin r ltac:(left)); lia].
    generalize (seqZ start_frame (end_frame + 1 - start_frame)).
    intros l. by induction l. }
  rewrite <- (Z2Nat.id (end_frame + 1 - start_frame)) by lia.
  rewrite rows_by_frame.
  rewrite (filter_all _ df); [done|].
  intros r Hr. specialize (Hin r Hr). lia.
Qed.

(** A table that [load_csv] accepts: it has five rows or more, the first
    and the last frame are the smallest and the largest frame number of the
    table and lie five or more apart, and the frames from the first to the
    last read every row once: the detections of all frames together are the
    rows of the table. *)
Theorem loaded_table_is_read_once disk (self self' : KalmanFilterCLI)
    (path : string) :
  load_csv disk self path = Ok (true, self') →
  ∃ table, disk path = Some table ∧ self_df self' = Some (rows table) ∧
    (5 ≤ length (rows table))%nat ∧
    start_frame self' + 5 ≤ end_frame self' ∧
    (∃ r, r ∈ rows table ∧ video_frame_id r = start_frame self') ∧
    (∃ r, r ∈ rows table ∧ video_frame_id r = end_frame self') ∧
    (∀ r, r ∈ rows table →
       start_frame self' ≤ video_frame_id r ≤ end_frame self') ∧
    mjoin (observations_of (rows table)
             <$> frame_range (start_frame self') (end_frame self')) ≡ₚ
    (λ r, (center_x r, center_y r)) <$> rows table.
Proof.
  unfold load_csv. intros Hload.
  destruct (disk path) as [table|]; [|done].
  destruct (has_columns table); simpl in Hload; [|done].
  destruct (decide (length (rows table) < 5)%nat) as [|Hlen]; [done|].
  destruct (decide _) as [|Hspan]; [done|]. simplify_eq. simpl.
  assert (video_frame_id <$> rows table ≠ []) as Hne.
  { destruct (rows table); [simpl in Hlen; lia|done]. }
  assert (∀ r, r ∈ rows table →
            column_min (video_frame_id <$> rows table) ≤ video_frame_id r
            ≤ column_max (video_frame_id <$> rows table)) as Hin.
  { intros r Hr. split.
    - apply column_min_le. by apply list_elem_of_fmap_2.
    - apply column_max_ge. by apply list_elem_of_fmap_2. }
  pose proof (column_min_elem _ Hne) as (r1 & Hr1 & ?)%list_elem_of_fmap.
  pose proof (column_max_elem _ Hne) as (r2 & Hr2 & ?)%list_elem_of_fmap.
  exists table. split_and!; try done.
  - lia.
  - specialize (Hin r1 ltac:(done)). lia.
  - by exists r1.
  - by exists r2.
  - by apply observations_by_frame.
Qed.

End Loading.

(** * The viewer and the text file *)

Section TextFacts.
Local Arguments String.append !_ _ / : simpl nomatch.

(** A property of all characters, by running through them. *)
Lemma ascii_forall (P : Ascii.ascii → bool) :
  forallb P (Ascii.ascii_of_nat <$> seq 0 256) = true → ∀ c, P c = true.
Proof.
  intros Hall c. rewrite forallb_forall in Hall. apply Hall.
  apply in_map_iff. exists (Ascii.nat_of_ascii c).
  split; [apply Ascii.ascii_nat_embedding|].
  apply in_seq. pose proof (Ascii.nat_ascii_bounded c). lia.
Qed.

Lemma digit_facts (c : Ascii.ascii) :
  is_digit c = true →
  is_space c = false ∧ plain_char c = true ∧ number_char c = true ∧
  Ascii.eqb c (Ascii.ascii_of_nat 95) = false ∧
  Ascii.eqb c (Ascii.ascii_of_nat 45) = false ∧
  Ascii.eqb c (Ascii.ascii_of_nat 43) = false ∧
  0 ≤ digit_value c ≤ 9.
Proof.
  intros Hc.
  pose proof (ascii_forall (λ c, implb (is_digit c)
    (negb (is_space c) && plain_char c && number_char c
     && negb (Ascii.eqb c (Ascii.ascii_of_nat 95))
     && negb (Ascii.eqb c (Ascii.ascii_of_nat 45))
     && negb (Ascii.eqb c (Ascii.ascii_of_nat 43))
     && (0 <=? digit_value c) && (digit_value c <=? 9))) eq_refl c) as H.
  cbv beta in H. rewrite Hc in H. cbn [implb] in H.
  repeat (apply andb_true_iff in H as [H ?]).
  repeat match goal with
         | H : negb _ = true |- _ => apply negb_true_iff in H
         end.
  split_and!; try done; lia.
Qed.

Lemma number_char_plain (c : Ascii.ascii) :
  number_char c = true → plain_char c = true.
Proof.
  intros Hc.
  pose proof (ascii_forall (λ c, implb (number_char c) (plain_char c))
                eq_refl c) as H.
  cbv beta in H. by rewrite Hc in H.
Qed.

Lemma all_digits_cons c s :
  all_digits (String c s) = true ↔ is_digit c = true ∧ all_digits s = true.
Proof. unfold all_digits. simpl. apply andb_true_iff. Qed.

Lemma plain_cons c s :
  plain (String c s) = true ↔ plain_char c = true ∧ plain s = true.
Proof. unfold plain. simpl. apply andb_true_iff. Qed.

Lemma plain_app s1 s2 :
  plain (s1 +:+ s2) = true ↔ plain s1 = true ∧ plain s2 = true.
Proof.
  induction s1 as [|c s1 IH]; cbn [String.append].
  - split; [by intros ?|by intros [_ ?]].
  - rewrite !plain_cons, IH. tauto.
Qed.

Lemma all_digits_plain s : all_digits s = true → plain s = true.
Proof.
  induction s as [|c s IH]; [done|].
  rewrite all_digits_cons, plain_cons. intros [Hc Hs].
  split; [by apply digit_facts|by apply IH].
Qed.

Lemma all_digits_app s1 s2 :
  all_digits (s1 +:+ s2) = true ↔ all_digits s1 = true ∧ all_digits s2 = true.
Proof.
  induction s1 as [|c s1 IH]; cbn [String.append].
  - split; [by intros ?|by intros [_ ?]].
  - rewrite !all_digits_cons, IH. tauto.
Qed.

Lemma append_assoc (s1 s2 s3 : string) :
  (s1 +:+ s2) +:+ s3 = s1 +:+ (s2 +:+ s3).
Proof. induction s1 as [|c s1 IH]; cbn [String.append]; congruence. Qed.

Lemma append_nil_r (s : string) : s +:+ "" = s.
Proof. induction s as [|c s IH]; cbn [String.append]; congruence. Qed.

Lemma length_append (s1 s2 : string) :
  String.length (s1 +:+ s2) = (String.length s1 + String.length s2)%nat.
Proof.
  induction s1 as [|c s1 IH]; simpl; congruence.
Qed.

(** *** The decimal text of a number *)

Lemma pretty_N_char_digit (x : N) :
  (x < 10)%N →
  is_digit (pretty_N_char x) = true ∧
  digit_value (pretty_N_char x) = Z.of_N x.
Proof.
  intros Hx.
  assert (x = 0 ∨ x = 1 ∨ x = 2 ∨ x = 3 ∨ x = 4 ∨ x = 5 ∨ x = 6 ∨ x = 7
          ∨ x = 8 ∨ x = 9)%N as Hcases by lia.
  repeat (destruct Hcases as [->|Hcases]; [by vm_compute|]).
  subst. by vm_compute.
Qed.

Lemma pretty_N_go_app (x : N) (s : string) :
  pretty_N_go x s = pretty_N_go x "" +:+ s.
Proof.
  revert s. induction (N.lt_wf_0 x) as [x _ IH]; intros s.
  destruct (decide (x = 0)%N) as [->|Hx]; [done|].
  rewrite !(pretty_N_go_step x) by lia.
  rewrite (IH (x `div` 10)%N) by (apply N.div_lt; lia).
  rewrite (IH (x `div` 10)%N ltac:(apply N.div_lt; lia) (String _ "")).
  by rewrite append_assoc.
Qed.

Lemma pretty_N_go_digits (x : N) :
  all_digits (pretty_N_go x "") = true.
Proof.
  induction (N.lt_wf_0 x) as [x _ IH].
  destruct (decide (x = 0)%N) as [->|Hx]; [done|].
  rewrite pretty_N_go_step, pretty_N_go_app by lia.
  apply all_digits_app. split; [apply IH, N.div_lt; lia|].
  apply all_digits_cons. split; [|done].
  apply pretty_N_char_digit, N.mod_lt. lia.
Qed.

Lemma pretty_N_go_length (x : N) (k : nat) :
  (x < 10 ^ N.of_nat k)%N → (String.length (pretty_N_go x "") ≤ k)%nat.
Proof.
  revert k. induction (N.lt_wf_0 x) as [x _ IH]; intros k Hk.
  destruct (decide (x = 0)%N) as [->|Hx]; [simpl; lia|].
  rewrite pretty_N_go_step, pretty_N_go_app, length_append by lia.
  destruct k as [|k]; [simpl in Hk; lia|].
  specialize (IH (x `div` 10)%N ltac:(apply N.div_lt; lia) k). simpl.
  assert (x `div` 10 < 10 ^ N.of_nat k)%N; [|lia].
  apply N.Div0.div_lt_upper_bound.
  replace (N.of_nat (S k)) with (N.succ (N.of_nat k)) in Hk by lia.
  by rewrite N.pow_succ_r' in Hk.
Qed.

Lemma pretty_N_go_nonempty (x : N) :
  (0 < x)%N → pretty_N_go x "" ≠ "".
Proof.
  intros Hx. rewrite pretty_N_go_step, pretty_N_go_app by done.
  by destruct (pretty_N_go _ _).
Qed.

Lemma int_digits_pretty_N_go (x : N) (s : string) (acc : Z) (n : nat)
    (b : bool) :
  int_digits (pretty_N_go x "" +:+ s) acc n b =
  int_digits s
    (acc * 10 ^ Z.of_nat (String.length (pretty_N_go x "")) + Z.of_N x)
    (n + String.length (pretty_N_go x ""))
    (b || bool_decide (0 < x)%N).
Proof.
  revert s acc n b. induction (N.lt_wf_0 x) as [x _ IH]; intros s acc n b.
  destruct (decide (x = 0)%N) as [->|Hx].
  { simpl. rewrite orb_false_r, Nat.add_0_r. f_equal. lia. }
  rewrite pretty_N_go_step by lia.
  rewrite (pretty_N_go_app _ (String _ _)), append_assoc, length_append.
  rewrite IH by (apply N.div_lt; lia).
  destruct (pretty_N_char_digit (x `mod` 10)) as [Hd Hv];
    [apply N.mod_lt; lia|].
  cbn [String.append int_digits String.length]. rewrite Hd, Hv.
  rewrite bool_decide_true by lia. rewrite orb_true_r.
  f_equal; [|lia].
  rewrite Nat.add_1_r, Nat2Z.inj_succ, Z.pow_succ_r by lia.
  pose proof (N.div_mod x 10 ltac:(lia)). lia.
Qed.

Lemma lstrip_digits (s : string) : all_digits s = true → lstrip s = s.
Proof.
  destruct s as [|c s]; [done|]. intros [Hc _]%all_digits_cons.
  simpl. by destruct (digit_facts c Hc) as (-> & _).
Qed.

Lemma rstrip_digits (s : string) : all_digits s = true → rstrip s = s.
Proof.
  induction s as [|c s IH]; [done|]. intros [Hc Hs]%all_digits_cons.
  simpl. rewrite (IH Hs). destruct (digit_facts c Hc) as (-> & _).
  by destruct s.
Qed.

Lemma int_digits_digits (s : string) (acc : Z) (n : nat) (b : bool) :
  all_digits s = true → 0 ≤ acc → s ≠ "" ∨ b = true →
  ∃ v, int_digits s acc n b = Some (v, (n + String.length s)%nat) ∧ 0 ≤ v.
Proof.
  revert acc n b. induction s as [|c s IH]; intros acc n b Hs Hacc Hne.
  { destruct Hne as [?| ->]; [done|]. exists acc. simpl.
    by rewrite Nat.add_0_r. }
  apply all_digits_cons in Hs as [Hc Hs]. simpl. rewrite Hc.
  destruct (digit_facts c Hc) as (_ & _ & _ & _ & _ & _ & Hv).
  destruct (IH (10 * acc + digit_value c) (S n) true Hs) as (v & -> & ?);
    [lia|by right|].
  exists v. split; [|done]. do 2 f_equal. lia.
Qed.

(** *** Searching text that holds numbers *)

Lemma plain_char_neq (a c : Ascii.ascii) :
  plain_char a = false → plain_char c = true → a ≠ c.
Proof. intros Ha Hc ->. congruence. Qed.

Lemma prefix_plain (a c : Ascii.ascii) (n s : string) :
  plain_char a = false → plain_char c = true →
  String.prefix (String a n) (String c s) = false.
Proof.
  intros Ha Hc. simpl.
  destruct (Ascii.ascii_dec a c) as [Heq|]; [|done].
  by destruct (plain_char_neq a c Ha Hc).
Qed.

Lemma contains_skip (a : Ascii.ascii) (n X s : string) :
  plain_char a = false → plain X = true →
  contains (String a n) (X +:+ s) = contains (String a n) s.
Proof.
  intros Ha. induction X as [|c X IH]; intros HX; [done|].
  apply plain_cons in HX as [Hc HX].
  cbn [String.append contains]. by rewrite prefix_plain, IH.
Qed.

Lemma after_plain (a c : Ascii.ascii) (lit s : string) :
  plain_char a = false → plain_char c = true →
  after (String a lit) (String c s) = None.
Proof.
  intros Ha Hc. simpl.
  destruct (Ascii.eqb_spec a c) as [Heq|]; [|done].
  by destruct (plain_char_neq a c Ha Hc).
Qed.

Lemma re_search_skip {A} (pattern : string → option A) (X s : string) :
  (∀ c t, plain_char c = true → pattern (String c t) = None) →
  plain X = true →
  re_search pattern (X +:+ s) = re_search pattern s.
Proof.
  intros Hp. induction X as [|c X IH]; intros HX; [done|].
  apply plain_cons in HX as [Hc HX].
  cbn [String.append re_search]. by rewrite Hp, IH.
Qed.

Lemma number_pattern_plain (a c : Ascii.ascii) (lit t : string) :
  plain_char a = false → plain_char c = true →
  number_pattern (String a lit) (String c t) = None.
Proof. intros Ha Hc. unfold number_pattern. by rewrite after_plain. Qed.

Lemma csv_file_pattern_plain (c : Ascii.ascii) (t : string) :
  plain_char c = true → csv_file_pattern (String c t) = None.
Proof.
  intros Hc. unfold csv_file_pattern.
  by rewrite after_plain.
Qed.

Lemma number_search_skip (a : Ascii.ascii) (lit X s : string) :
  plain_char a = false → plain X = true →
  re_search (number_pattern (String a lit)) (X +:+ s) =
  re_search (number_pattern (String a lit)) s.
Proof.
  intros Ha HX. apply re_search_skip; [|done].
  intros c t Hc. by apply number_pattern_plain.
Qed.

Lemma span_digits_stop (X s : string) (c : Ascii.ascii) :
  all_digits X = true → is_digit c = false →
  span_digits (X +:+ String c s) = X.
Proof.
  intros HX Hc. induction X as [|x X IH].
  - simpl. by rewrite Hc.
  - apply all_digits_cons in HX as [Hx HX].
    cbn [String.append span_digits]. by rewrite Hx, IH.
Qed.

Lemma take_digits_all (n : nat) (d rest : string) :
  all_digits d = true → String.length d = n →
  take_digits n (d +:+ rest) = Some d.
Proof.
  revert d. induction n as [|n IH]; intros d Hd Hn.
  { by destruct d. }
  destruct d as [|c d]; [done|].
  apply all_digits_cons in Hd as [Hc Hd].
  cbn [String.append take_digits]. rewrite Hc, IH; [done|done|].
  simpl in Hn. lia.
Qed.

Lemma drop_chars_app (n : nat) (d rest : string) :
  String.length d = n → drop_chars n (d +:+ rest) = rest.
Proof.
  revert d. induction n as [|n IH]; intros d Hn.
  { destruct d; [|done]. by destruct rest. }
  destruct d as [|c d]; [done|]. cbn [String.append drop_chars].
  apply IH. simpl in Hn. lia.
Qed.

(** *** Lines *)

Lemma one_line_cons c s :
  one_line (String c s) = true ↔ line_end c = false ∧ one_line s = true.
Proof.
  unfold one_line. simpl. rewrite andb_true_iff, negb_true_iff. done.
Qed.

Lemma one_line_app s1 s2 :
  one_line (s1 +:+ s2) = true ↔ one_line s1 = true ∧ one_line s2 = true.
Proof.
  induction s1 as [|c s1 IH]; cbn [String.append].
  - split; [by intros ?|by intros [_ ?]].
  - rewrite !one_line_cons, IH. tauto.
Qed.

Lemma plain_one_line (s : string) : plain s = true → one_line s = true.
Proof.
  induction s as [|c s IH]; [done|].
  rewrite plain_cons, one_line_cons. intros [Hc Hs]. split; [|by apply IH].
  unfold plain_char in Hc. apply andb_true_iff in Hc as [_ Hc].
  by apply negb_true_iff.
Qed.

Lemma line_end_eqb (c : Ascii.ascii) :
  line_end c = false →
  Ascii.eqb c (Ascii.ascii_of_nat 10) = false ∧
  Ascii.eqb c (Ascii.ascii_of_nat 13) = false.
Proof.
  intros Hc. split; apply Ascii.eqb_neq; intros ->; done.
Qed.

Lemma universal_newlines_one_line (X s : string) :
  one_line X = true →
  universal_newlines (X +:+ s) = X +:+ universal_newlines s.
Proof.
  induction X as [|c X IH]; intros HX; [done|].
  apply one_line_cons in HX as [Hc HX].
  cbn [String.append universal_newlines].
  destruct (line_end_eqb c Hc) as [_ ->]. by rewrite IH.
Qed.

Lemma split_lines_one_line (X s : string) :
  one_line X = true →
  split_lines (X +:+ nl +:+ s) = (X +:+ nl) :: split_lines s.
Proof.
  induction X as [|c X IH]; intros HX; [done|].
  apply one_line_cons in HX as [Hc HX].
  cbn [String.append split_lines].
  destruct (line_end_eqb c Hc) as [-> _].
  cbn [String.append] in IH. by rewrite IH.
Qed.

Lemma readlines_one_line (X s : string) :
  one_line X = true →
  readlines (X +:+ nl +:+ s) = (X +:+ nl) :: readlines s.
Proof.
  intros HX. unfold readlines.
  rewrite universal_newlines_one_line by done.
  change (universal_newlines (nl +:+ s)) with (nl +:+ universal_newlines s).
  by apply split_lines_one_line.
Qed.

(** Text that ends in a line end and the text appended to it are read
    line by line. *)
Lemma universal_newlines_app (old more : string) :
  ends_line old = true →
  universal_newlines (old +:+ more) =
  universal_newlines old +:+ universal_newlines more.
Proof.
  intros Hold.
  assert (∀ n old, (String.length old < n)%nat → ends_line old = true →
            universal_newlines (old +:+ more) =
            universal_newlines old +:+ universal_newlines more) as Hgen.
  { clear. induction n as [|n IH]; intros old Hn Hold; [lia|].
    destruct old as [|c old]; [done|].
    cbn [String.append universal_newlines]. simpl in Hn.
    destruct (Ascii.eqb c (Ascii.ascii_of_nat 13)) eqn:Hc.
    - destruct old as [|c' old].
      { simpl in Hold. apply Ascii.eqb_eq in Hc, Hold. by subst. }
      cbn [String.append]. simpl in Hn.
      destruct (Ascii.eqb c' (Ascii.ascii_of_nat 10)) eqn:Hc'.
      + cbn [String.append]. f_equal. apply IH; [lia|].
        destruct old; [done|]. done.
      + cbn [String.append]. f_equal.
        apply (IH (String c' old)); [simpl; lia|done].
    - cbn [String.append]. f_equal. apply IH; [lia|].
      destruct old; [|done]. done. }
  by apply (Hgen (S (String.length old))); [lia|].
Qed.

Lemma ends_line_universal (old : string) :
  ends_line old = true → ends_line (universal_newlines old) = true.
Proof.
  assert (∀ n old, (String.length old < n)%nat → ends_line old = true →
            ends_line (universal_newlines old) = true) as Hgen.
  { clear. induction n as [|n IH]; intros old Hn Hold; [lia|].
    destruct old as [|c old]; [done|].
    cbn [universal_newlines]. simpl in Hn.
    assert (∀ c s, ends_line s = true → s ≠ "" →
              ends_line (String c s) = true) as Hcons.
    { intros ? [|] ? ?; done. }
    destruct (Ascii.eqb c (Ascii.ascii_of_nat 13)) eqn:Hc.
    - destruct old as [|c' old]; [done|]. simpl in Hn.
      destruct (Ascii.eqb c' (Ascii.ascii_of_nat 10)) eqn:Hc'.
      + destruct old as [|c'' old]; [simpl; by rewrite Hc'|].
        apply Hcons; [apply IH; [simpl in *; lia|done]|].
        simpl. by repeat case_match.
      + apply Hcons; [apply (IH (String c' old)); [simpl in *; lia|done]|].
        simpl. by repeat case_match.
    - destruct old as [|c' old]; [done|].
      apply Hcons; [apply (IH (String c' old)); [simpl in *; lia|done]|].
      simpl. by repeat case_match. }
  intros Hold. by apply (Hgen (S (String.length old))); [lia|].
Qed.

Lemma split_lines_app (old more : string) :
  ends_line old = true →
  split_lines (old +:+ more) = split_lines old ++ split_lines more.
Proof.
  induction old as [|c old IH]; intros Hold; [done|].
  cbn [String.append split_lines].
  destruct (Ascii.eqb c (Ascii.ascii_of_nat 10)) eqn:Hc.
  - destruct old as [|c' old]; [done|]. by rewrite IH.
  - destruct old as [|c' old]; [simpl in Hold; congruence|].
    rewrite IH by done.
    destruct (split_lines (String c' old)) eqn:Hs; [|done].
    exfalso. clear -Hs. simpl in Hs. by repeat case_match.
Qed.

Lemma readlines_app (old more : string) :
  ends_line old = true →
  readlines (old +:+ more) = readlines old ++ readlines more.
Proof.
  intros Hold. unfold readlines.
  rewrite universal_newlines_app by done.
  by apply split_lines_app, ends_line_universal.
Qed.

Lemma append_text_app (old : string) (writes : list string) :
  append_text old writes = old +:+ append_text "" writes.
Proof.
  unfold append_text. revert old.
  induction writes as [|w ws IH]; intros old; simpl.
  - by rewrite append_nil_r.
  - rewrite IH, (IH w). by rewrite append_assoc.
Qed.

Section IntFacts.
Variable max_str_digits : nat.

(** [int] reads a text of digits, up to 640 of them whatever the limit. *)
Lemma py_int_digits (s : string) :
  all_digits s = true → s ≠ "" → (String.length s ≤ 640)%nat →
  ∃ v, py_int max_str_digits s = Some v ∧ 0 ≤ v.
Proof.
  intros Hs Hne Hlen. unfold py_int.
  rewrite lstrip_digits, rstrip_digits by done.
  destruct s as [|c s]; [done|].
  pose proof Hs as [Hc _]%all_digits_cons.
  destruct (digit_facts c Hc) as (_ & _ & _ & _ & -> & -> & _).
  destruct (int_digits_digits (String c s) 0 0 false Hs) as (v & -> & ?);
    [done|by left|].
  exists v. simpl.
  replace (640 <? S (String.length s))%nat with false;
    [by rewrite andb_false_r|].
  symmetry. apply Nat.ltb_ge. simpl in Hlen. lia.
Qed.

Lemma pretty_Z_nonneg (n : Z) :
  0 ≤ n →
  (0 < n ∧ pretty n = pretty_N_go (Z.to_N n) "") ∨ (n = 0 ∧ pretty n = "0").
Proof.
  intros Hn. destruct n as [|p|p]; [by right| |lia].
  left. split; [lia|]. unfold pretty at 1, pretty_Z, pretty, pretty_positive.
  unfold pretty, pretty_N. by destruct (decide (N.pos p = 0%N)).
Qed.

Lemma pretty_Z_digits (n : Z) :
  0 ≤ n → all_digits (pretty n) = true ∧ pretty n ≠ "".
Proof.
  intros Hn. destruct (pretty_Z_nonneg n Hn) as [[? ->]|[-> ->]]; [|done].
  split; [apply pretty_N_go_digits|apply pretty_N_go_nonempty; lia].
Qed.

(** [int] reads back the decimal text of a number. *)
Lemma py_int_pretty (n : Z) :
  0 ≤ n < 10 ^ 640 → py_int max_str_digits (pretty n) = Some n.
Proof.
  intros [Hn Hlt].
  destruct (pretty_Z_nonneg n Hn) as [[Hpos Hgo]|[-> ?]].
  2:{ unfold py_int. simpl. by rewrite andb_false_r. }
  destruct (pretty_Z_digits n Hn) as [Hd Hne].
  unfold py_int. rewrite lstrip_digits, rstrip_digits by done.
  destruct (pretty n) as [|c s] eqn:Hp; [done|].
  pose proof Hd as [Hc _]%all_digits_cons.
  destruct (digit_facts c Hc) as (_ & _ & _ & _ & -> & -> & _).
  rewrite Hgo, <- (append_nil_r (pretty_N_go _ _)), int_digits_pretty_N_go.
  rewrite bool_decide_true by lia. simpl.
  pose proof (pretty_N_go_length (Z.to_N n) 640) as Hlen.
  replace (640 <? _)%nat with false.
  - rewrite andb_false_r. f_equal. lia.
  - symmetry. apply Nat.ltb_ge. apply Hlen.
    apply N2Z.inj_lt. rewrite Z2N.id by done.
    rewrite N2Z.inj_pow. by change (Z.of_N (N.of_nat 640)) with 640.
Qed.

End IntFacts.

End TextFacts.

Section DictFacts.
Context {K V : Type} `{EqDecision K}.

Lemma dict_get_set (d : list (K * V)) (k : K) (v : V) :
  dict_get (dict_set d k v) k = Some v.
Proof.
  induction d as [|[k' v'] d IH]; simpl.
  - by rewrite decide_True.
  - destruct (decide (k' = k)) as [->|Hne]; simpl.
    + by rewrite decide_True.
    + by rewrite decide_False.
Qed.

Lemma dict_get_set_ne (d : list (K * V)) (k k' : K) (v : V) :
  k ≠ k' → dict_get (dict_set d k v) k' = dict_get d k'.
Proof.
  intros Hne. induction d as [|[k0 v0] d IH]; simpl.
  - by rewrite decide_False.
  - destruct (decide (k0 = k)) as [->|Hne0]; simpl.
    + by rewrite !decide_False.
    + destruct (decide (k0 = k')); [done|apply IH].
Qed.

Lemma dict_has_set (d : list (K * V)) (k k' : K) (v : V) :
  dict_has d k' = true → dict_has (dict_set d k v) k' = true.
Proof.
  unfold dict_has. rewrite !bool_decide_eq_true.
  destruct (decide (k = k')) as [->|Hne].
  - by rewrite dict_get_set.
  - by rewrite dict_get_set_ne.
Qed.

End DictFacts.

Section LineFacts.
Local Arguments String.append !_ _ / : simpl nomatch.
Variable max_str_digits : nat.

Ltac skip_numbers :=
  repeat first
    [ progress simpl
    | rewrite contains_skip by done
    | rewrite number_search_skip by done
    | rewrite (re_search_skip csv_file_pattern)
        by (done || apply csv_file_pattern_plain) ].

(** *** [format_time] on the digits of a file name *)

Lemma format_time_digits (t : string) :
  all_digits t = true → (4 ≤ String.length t)%nat →
  ∃ label, format_time max_str_digits (Some t) = Some (Some label).
Proof.
  intros Ht Hlen.
  destruct t as [|a [|b [|c [|d t]]]]; simpl in Hlen; try lia.
  apply all_digits_cons in Ht as [Ha Ht].
  apply all_digits_cons in Ht as [Hb Ht].
  apply all_digits_cons in Ht as [Hc Ht].
  apply all_digits_cons in Ht as [Hd Ht].
  unfold format_time. cbn [String.substring].
  replace (String.substring 0 0 t) with EmptyString by (by destruct t).
  destruct (py_int_digits max_str_digits (String a (String b "")))
    as (hour & -> & _).
  { apply all_digits_cons. split; [done|]. by apply all_digits_cons. }
  { done. } { simpl. lia. }
  destruct (py_int_digits max_str_digits (String c (String d "")))
    as (minute & -> & _).
  { apply all_digits_cons. split; [done|]. by apply all_digits_cons. }
  { done. } { simpl. lia. }
  simpl. by eexists.
Qed.

Lemma format_time_read (st : ParseState) :
  time_read st →
  ∃ label, format_time max_str_digits (current_time st) = Some label.
Proof.
  intros Hst. destruct (current_time st) as [t|] eqn:Ht; [|by eexists].
  destruct (Hst t Ht) as [Hd Hlen].
  destruct (format_time_digits t Hd) as [label ->]; [lia|]. by eexists.
Qed.

(** *** The steps of [parse_tracking_data] *)

Lemma store_read (st : ParseState) :
  time_read st →
  ∃ st', store max_str_digits st = Some st' ∧
    current_date st' = current_date st ∧
    current_time st' = current_time st ∧
    current_data st' = current_data st ∧
    (∀ k, dict_has (tracking_data st) k = true →
          dict_has (tracking_data st') k = true) ∧
    (∀ k l, is_Some (stored (tracking_data st) k l) →
            is_Some (stored (tracking_data st') k l)) ∧
    (all_filled (current_data st) = true →
     ∃ label, format_time max_str_digits (current_time st) = Some label ∧
       dict_has (tracking_data st') (current_date st) = true ∧
       stored (tracking_data st') (current_date st) label
       = Some (current_data st)).
Proof.
  intros Hst. unfold store.
  destruct (format_time_read st Hst) as [label Hl].
  destruct (all_filled (current_data st)); [|by exists st].
  rewrite Hl. simpl. eexists. split; [done|]. simpl. split_and!; try done.
  - intros k Hk. apply dict_has_set. case_match; [done|].
    by apply dict_has_set.
  - intros k l. unfold stored.
    destruct (decide (current_date st = k)) as [<-|Hk].
    + rewrite dict_get_set. simpl.
      destruct (decide (label = l)) as [<-|Hl'].
      { rewrite dict_get_set. by eexists. }
      rewrite dict_get_set_ne by done.
      unfold dict_has. case_bool_decide as Hhas.
      * destruct Hhas as [day ->]. done.
      * intros [x Hx]. exfalso. apply Hhas.
        destruct (dict_get (tracking_data st) (current_date st)); [by eexists|done].
    + rewrite dict_get_set_ne by done.
      case_match; [done|]. by rewrite dict_get_set_ne.
  - intros _. exists label. split; [done|]. unfold stored, dict_has.
    rewrite dict_get_set. simpl. rewrite dict_get_set.
    by split.
Qed.

Lemma all_digits_Forall (s : string) :
  Forall (λ c, is_digit c = true) (String.list_ascii_of_string s) →
  all_digits s = true.
Proof.
  unfold all_digits. intros Hs. apply forallb_forall.
  intros c Hc. rewrite Forall_forall in Hs. apply Hs.
  by apply list_elem_of_In.
Qed.

Lemma re_search_Some {A} (pattern : string → option A) (s : string) (x : A) :
  re_search pattern s = Some x → ∃ s', pattern s' = Some x.
Proof.
  induction s as [|c s IH]; simpl.
  - destruct (pattern "") eqn:Hp; [|done]. intros. simplify_eq. by eexists.
  - destruct (pattern (String c s)) eqn:Hp; [|done].
    intros. simplify_eq. by eexists.
Qed.

Lemma csv_file_pattern_Some (s d t : string) :
  csv_file_pattern s = Some (d, t) →
  (all_digits d = true ∧ String.length d = 8%nat) ∧
  (all_digits t = true ∧ String.length t = 6%nat).
Proof.
  unfold csv_file_pattern. intros Hs.
  destruct (after "CSV File: " s) as [s1|]; cbn [mbind option_bind] in Hs; [|done].
  destruct (take_digits 8 s1) as [d'|] eqn:Hd; cbn [mbind option_bind] in Hs; [|done].
  destruct (after "_" (drop_chars 8 s1)) as [s2|]; cbn [mbind option_bind] in Hs; [|done].
  destruct (take_digits 6 s2) as [t'|] eqn:Ht; cbn [mbind option_bind] in Hs; [|done].
  destruct (after ".csv" (drop_chars 6 s2)); cbn [mbind option_bind] in Hs; [|done].
  simplify_eq.
  apply take_digits_Some in Hd as (? & ? & _).
  apply take_digits_Some in Ht as (? & ? & _).
  split; (split; [by apply all_digits_Forall|done]).
Qed.

Lemma read_file_name_time_read (st : ParseState) (line : string) :
  time_read st → time_read (read_file_name st line).
Proof.
  intros Hst. unfold read_file_name.
  destruct (contains "CSV File" line); [|done].
  destruct (re_search csv_file_pattern line) as [[d t]|] eqn:Hs; [|done].
  destruct (negb _); [|by intros ? ?].
  intros t' Ht'. simpl in Ht'. simplify_eq.
  apply re_search_Some in Hs as [s' Hs].
  by apply csv_file_pattern_Some in Hs as [_ ?].
Qed.

Lemma read_total_tracks_keeps (st st' : ParseState) (line : string) :
  read_total_tracks max_str_digits st line = Some st' →
  tracking_data st' = tracking_data st ∧
  current_date st' = current_date st ∧ current_time st' = current_time st.
Proof.
  unfold read_total_tracks. intros Hs.
  destruct (_ && _); [|by simplify_eq].
  destruct (read_number _ _ _ _ _); simpl in Hs; [|done]. by simplify_eq.
Qed.

Lemma read_counts_keeps (st st' : ParseState) (line : string) :
  read_counts max_str_digits st line = Some st' →
  tracking_data st' = tracking_data st ∧
  current_date st' = current_date st ∧ current_time st' = current_time st.
Proof.
  unfold read_counts. intros Hs.
  destruct (negb _); [|by simplify_eq].
  repeat (destruct (read_number _ _ _ _ _); simpl in Hs; [|done]).
  by simplify_eq.
Qed.

(** The loop keeps the time a group of six digits; [format_time] never
    fails in it, and a key of the result is never removed. *)
Lemma parse_line_read (st st' : ParseState) (line : string) :
  time_read st → parse_line max_str_digits st line = Some st' →
  time_read st' ∧
  (∀ k, dict_has (tracking_data st) k = true →
        dict_has (tracking_data st') k = true) ∧
  (∀ k l, is_Some (stored (tracking_data st) k l) →
          is_Some (stored (tracking_data st') k l)).
Proof.
  intros Hst. unfold parse_line. intros Hp.
  pose proof (read_file_name_time_read st line Hst) as H1.
  assert (tracking_data (read_file_name st line) = tracking_data st) as Htd.
  { unfold read_file_name. by repeat case_match. }
  destruct (read_total_tracks _ _ _) as [st2|] eqn:H2; [|done].
  simpl in Hp. apply read_total_tracks_keeps in H2 as (Htd2 & _ & Ht2).
  destruct (read_counts _ _ _) as [st3|] eqn:H3; [|done].
  simpl in Hp. apply read_counts_keeps in H3 as (Htd3 & _ & Ht3).
  assert (time_read st3) as Hst3.
  { intros t Ht. apply H1. congruence. }
  destruct (store_read st3 Hst3)
    as (st4 & Hs & _ & Ht4 & _ & Hkeys & Hin & _).
  rewrite Hs in Hp. simplify_eq. split_and!.
  - intros t Ht. apply Hst3. congruence.
  - intros k Hk. apply Hkeys. congruence.
  - intros k l Hk. apply Hin. congruence.
Qed.

Lemma parse_lines_read (st st' : ParseState) (lines : list string) :
  time_read st → parse_lines max_str_digits st lines = Some st' →
  time_read st' ∧
  (∀ k, dict_has (tracking_data st) k = true →
        dict_has (tracking_data st') k = true) ∧
  (∀ k l, is_Some (stored (tracking_data st) k l) →
          is_Some (stored (tracking_data st') k l)).
Proof.
  revert st. induction lines as [|line lines IH]; intros st Hst Hp.
  { simpl in Hp. by simplify_eq. }
  simpl in Hp.
  destruct (parse_line _ st line) as [st1|] eqn:H1; [|done]. simpl in Hp.
  destruct (parse_line_read _ _ _ Hst H1) as (Hst1 & Hk1 & Hl1).
  destruct (IH _ Hst1 Hp) as (? & Hk & Hl). split_and!; [done|auto|auto].
Qed.

Lemma parse_lines_app (st : ParseState) (l1 l2 : list string) :
  parse_lines max_str_digits st (l1 ++ l2) =
  parse_lines max_str_digits st l1 ≫= λ st', parse_lines max_str_digits st' l2.
Proof.
  revert st. induction l1 as [|line l1 IH]; intros st; [done|].
  simpl. destruct (parse_line _ st line); simpl; [apply IH|done].
Qed.

Lemma time_read_init : time_read parse_init.
Proof. by intros ? ?. Qed.

(** A line without any of the texts the viewer looks for: the state is
    stored again, nothing else. *)
Lemma parse_line_other (st : ParseState) (line : string) :
  contains "CSV File" line = false →
  contains "Total Tracks:" line = false →
  re_search (number_pattern "Enter: ") line = None →
  re_search (number_pattern "Exit: ") line = None →
  re_search (number_pattern "Inside: ") line = None →
  re_search (number_pattern "Outside: ") line = None →
  parse_line max_str_digits st line = store max_str_digits st.
Proof.
  intros H1 H2 H3 H4 H5 H6.
  unfold parse_line, read_file_name, read_total_tracks, read_counts,
    read_number.
  rewrite H1, H2, H3, H4, H5, H6. simpl.
  destruct st as [td d t data]. simpl. by destruct (negb _).
Qed.

Lemma parse_line_separator (st : ParseState) :
  parse_line max_str_digits st separator = store max_str_digits st.
Proof. by apply parse_line_other. Qed.

Lemma after_app (lit s : string) : after lit (lit +:+ s) = Some s.
Proof.
  induction lit as [|c lit IH]; [by destruct s|].
  cbn [String.append after]. by rewrite Ascii.eqb_refl.
Qed.

Lemma re_search_here {A} (pattern : string → option A) (s : string) (x : A) :
  pattern s = Some x → re_search pattern s = Some x.
Proof. intros Hp. destruct s; simpl; by rewrite Hp. Qed.

Lemma number_pattern_app (lit X s : string) (c : Ascii.ascii) :
  all_digits X = true → X ≠ "" → is_digit c = false →
  number_pattern lit (lit +:+ X +:+ String c s) = Some X.
Proof.
  intros HX Hne Hc. unfold number_pattern.
  rewrite after_app. cbn [mbind option_bind].
  rewrite span_digits_stop by done. by destruct X.
Qed.

Lemma csv_file_pattern_app (d t rest : string) :
  all_digits d = true → String.length d = 8%nat →
  all_digits t = true → String.length t = 6%nat →
  csv_file_pattern ("CSV File: " +:+ d +:+ "_" +:+ t +:+ ".csv" +:+ rest)
  = Some (d, t).
Proof.
  intros Hd Hd8 Ht Ht6. unfold csv_file_pattern.
  rewrite after_app. cbn [mbind option_bind].
  rewrite take_digits_all, drop_chars_app, after_app by done.
  cbn [mbind option_bind].
  rewrite take_digits_all, drop_chars_app, after_app by done.
  done.
Qed.

Ltac found lit X :=
  match goal with
  | |- context [number_pattern lit ?s] =>
    replace (number_pattern lit s) with (Some X)
      by (symmetry; apply (number_pattern_app lit X); done)
  end.

(** *** The lines of a block *)

Lemma parse_line_quiet (st : ParseState) (line : string) :
  contains "CSV File" line = false →
  contains "Total Tracks:" line = false →
  all_none (current_data st) = true →
  all_filled (current_data st) = false →
  parse_line max_str_digits st line = Some st.
Proof.
  intros H1 H2 H3 H4.
  unfold parse_line, read_file_name, read_total_tracks, read_counts, store.
  rewrite H1, H2. simpl. rewrite H3. simpl. by rewrite H4.
Qed.

Lemma parse_line_name (st : ParseState) (d t recs dt : string) :
  all_digits d = true → String.length d = 8%nat →
  all_digits t = true → String.length t = 6%nat →
  plain recs = true → plain dt = true ∨ dt = "None" →
  parse_line max_str_digits st
    ("CSV File: " +:+ d +:+ "_" +:+ t +:+ ".csv" +:+ ". Total Records: "
       +:+ recs +:+ ". Date: " +:+ dt +:+ nl)
  = Some (mkParse (tracking_data st) (Some d) (Some t) fresh_data).
Proof.
  intros Hd Hd8 Ht Ht6 Hrecs Hdt.
  pose proof (all_digits_plain d Hd). pose proof (all_digits_plain t Ht).
  unfold parse_line, read_file_name.
  rewrite (contains_prefix "CSV File") by done.
  rewrite (re_search_here _ _ (d, t)) by by apply csv_file_pattern_app.
  assert (contains "No Data Found"
            ("CSV File: " +:+ d +:+ "_" +:+ t +:+ ".csv"
               +:+ ". Total Records: " +:+ recs +:+ ". Date: " +:+ dt +:+ nl)
          = false) as ->.
  { destruct Hdt as [?| ->]; by skip_numbers. }
  cbn [negb]. unfold read_total_tracks. cbn [current_date current_time].
  assert (contains "Total Tracks:"
            ("CSV File: " +:+ d +:+ "_" +:+ t +:+ ".csv"
               +:+ ". Total Records: " +:+ recs +:+ ". Date: " +:+ dt +:+ nl)
          = false) as ->.
  { destruct Hdt as [?| ->]; by skip_numbers. }
  done.
Qed.

Lemma parse_line_frames (st : ParseState) (s e : string) :
  plain s = true → plain e = true →
  all_none (current_data st) = true → all_filled (current_data st) = false →
  parse_line max_str_digits st
    ("Start Frame: " +:+ s +:+ ". End Frame: " +:+ e +:+ nl) = Some st.
Proof. intros. apply parse_line_quiet; try done; by skip_numbers. Qed.

Lemma parse_line_threshold (st : ParseState) (thr mx : string) :
  plain thr = true → plain mx = true →
  all_none (current_data st) = true → all_filled (current_data st) = false →
  parse_line max_str_digits st
    ("Distance Threshold: " +:+ thr +:+ ". Max Frames Before Death: "
       +:+ mx +:+ nl) = Some st.
Proof. intros. apply parse_line_quiet; try done; by skip_numbers. Qed.

Lemma parse_line_total (td : TrackingData) (d t : string) (n : Z) :
  d ≠ "" → t ≠ "" → 0 ≤ n < 10 ^ 640 →
  parse_line max_str_digits (mkParse td (Some d) (Some t) fresh_data)
    ("Total Tracks: " +:+ pretty n +:+ nl)
  = Some (mkParse td (Some d) (Some t)
            (dict_set fresh_data "Total Tracks" (Some n))).
Proof.
  intros Hd Ht Hn.
  destruct (pretty_Z_digits n) as [Hdig Hne]; [lia|].
  pose proof (py_int_pretty max_str_digits n Hn) as Hint.
  pose proof (all_digits_plain _ Hdig) as Hplain.
  revert Hdig Hne Hint Hplain. generalize (pretty n). intros N ? ? ? ?.
  unfold parse_line, read_file_name.
  assert (contains "CSV File" ("Total Tracks: " +:+ N +:+ nl) = false) as ->
    by by skip_numbers.
  unfold read_total_tracks. cbn [current_date current_time current_data].
  rewrite (contains_prefix "Total Tracks:") by done.
  assert (truthy (Some d) = true) as -> by by destruct d.
  assert (truthy (Some t) = true) as -> by by destruct t.
  cbn [andb]. unfold read_number at 1.
  rewrite (re_search_here (number_pattern "Total Tracks: ") _ N)
    by by apply number_pattern_app.
  rewrite Hint. cbn [mbind option_bind].
  unfold read_counts, read_number.
  cbn [current_data tracking_data current_date current_time].
  assert (re_search (number_pattern "Enter: ") ("Total Tracks: " +:+ N +:+ nl)
          = None) as -> by by skip_numbers.
  assert (re_search (number_pattern "Exit: ") ("Total Tracks: " +:+ N +:+ nl)
          = None) as -> by by skip_numbers.
  assert (re_search (number_pattern "Inside: ")
            ("Total Tracks: " +:+ N +:+ nl) = None) as -> by by skip_numbers.
  assert (re_search (number_pattern "Outside: ")
            ("Total Tracks: " +:+ N +:+ nl) = None) as -> by by skip_numbers.
  done.
Qed.

Lemma parse_line_counts (td : TrackingData) (d t : string) (n a b c o : Z) :
  0 ≤ a < 10 ^ 640 → 0 ≤ b < 10 ^ 640 → 0 ≤ c < 10 ^ 640 →
  0 ≤ o < 10 ^ 640 →
  parse_line max_str_digits
    (mkParse td (Some d) (Some t)
       (dict_set fresh_data "Total Tracks" (Some n)))
    ("Enter: " +:+ pretty a +:+ ". Exit: " +:+ pretty b +:+ ". Inside: "
       +:+ pretty c +:+ ". Outside: " +:+ pretty o +:+ nl)
  = store max_str_digits
      (mkParse td (Some d) (Some t)
         [("Total Tracks", Some n); ("Enter", Some a); ("Exit", Some b);
          ("Inside", Some c); ("Outside", Some o)]%string).
Proof.
  intros Ha Hb Hc Ho.
  destruct (pretty_Z_digits a) as [Hda Hnea]; [lia|].
  destruct (pretty_Z_digits b) as [Hdb Hneb]; [lia|].
  destruct (pretty_Z_digits c) as [Hdc Hnec]; [lia|].
  destruct (pretty_Z_digits o) as [Hdo Hneo]; [lia|].
  pose proof (py_int_pretty max_str_digits a Ha) as Hia.
  pose proof (py_int_pretty max_str_digits b Hb) as Hib.
  pose proof (py_int_pretty max_str_digits c Hc) as Hic.
  pose proof (py_int_pretty max_str_digits o Ho) as Hio.
  pose proof (all_digits_plain _ Hda). pose proof (all_digits_plain _ Hdb).
  pose proof (all_digits_plain _ Hdc). pose proof (all_digits_plain _ Hdo).
  revert Hda Hnea Hia Hdb Hneb Hib Hdc Hnec Hic Hdo Hneo Hio H H0 H1 H2.
  generalize (pretty a) (pretty b) (pretty c) (pretty o).
  intros A B C O. intros.
  unfold parse_line, read_file_name.
  assert (contains "CSV File"
            ("Enter: " +:+ A +:+ ". Exit: " +:+ B +:+ ". Inside: " +:+ C
               +:+ ". Outside: " +:+ O +:+ nl) = false) as ->
    by by skip_numbers.
  unfold read_total_tracks. cbn [current_date current_time current_data].
  assert (contains "Total Tracks:"
            ("Enter: " +:+ A +:+ ". Exit: " +:+ B +:+ ". Inside: " +:+ C
               +:+ ". Outside: " +:+ O +:+ nl) = false) as ->
    by by skip_numbers.
  cbn [andb mbind option_bind].
  unfold read_counts, read_number.
  cbn [current_data tracking_data current_date current_time].
  rewrite (re_search_here (number_pattern "Enter: ") _ A)
    by by apply number_pattern_app.
  assert (re_search (number_pattern "Exit: ")
            ("Enter: " +:+ A +:+ ". Exit: " +:+ B +:+ ". Inside: " +:+ C
               +:+ ". Outside: " +:+ O +:+ nl) = Some B) as ->.
  { skip_numbers. by found "Exit: " B. }
  assert (re_search (number_pattern "Inside: ")
            ("Enter: " +:+ A +:+ ". Exit: " +:+ B +:+ ". Inside: " +:+ C
               +:+ ". Outside: " +:+ O +:+ nl) = Some C) as ->.
  { skip_numbers. by found "Inside: " C. }
  assert (re_search (number_pattern "Outside: ")
            ("Enter: " +:+ A +:+ ". Exit: " +:+ B +:+ ". Inside: " +:+ C
               +:+ ". Outside: " +:+ O +:+ nl) = Some O) as ->.
  { skip_numbers. by found "Outside: " O. }
  rewrite Hia, Hib, Hic, Hio. done.
Qed.

End LineFacts.

Section RoundTrip.
Context {mathlib : MathLib} {tracklib : TrackLib}.
Local Arguments String.append !_ _ / : simpl nomatch.
Variable max_str_digits : nat.
Variable threshold_text : float → string.

Lemma pretty_Z_plain (n : Z) : plain (pretty n) = true.
Proof.
  destruct (decide (0 ≤ n)) as [Hn|Hn].
  { apply all_digits_plain. by apply pretty_Z_digits. }
  destruct n as [|p|p]; try lia.
  change (pretty (Z.neg p)) with ("-" +:+ pretty (Z.pos p)).
  apply plain_app. split; [done|].
  apply all_digits_plain. by apply pretty_Z_digits.
Qed.

Lemma number_text_plain (s : string) :
  forallb number_char (String.list_ascii_of_string s) = true →
  plain s = true.
Proof.
  unfold plain. rewrite !forallb_forall. intros Hs c Hc.
  by apply number_char_plain, Hs.
Qed.

Lemma readlines_bodies (bodies : list string) :
  Forall (λ b, one_line b = true) bodies →
  readlines (append_text "" ((λ b, b +:+ nl) <$> bodies)) =
  (λ b, b +:+ nl) <$> bodies.
Proof.
  induction 1 as [|b bodies Hb _ IH]; [done|].
  rewrite fmap_cons. unfold append_text. cbn [foldl].
  fold (append_text ("" +:+ (b +:+ nl)) ((λ b, b +:+ nl) <$> bodies)).
  rewrite append_text_app. cbn [String.append].
  rewrite append_assoc, readlines_one_line by done. by rewrite IH.
Qed.

Lemma count_directions_counts (ellipse : option Zone) (l : list Track)
    (c : Counter) :
  count_directions ellipse l = Ok c →
  0 ≤ n_inside c ∧ 0 ≤ n_enter c ∧ 0 ≤ n_exit c ∧ 0 ≤ n_outside c ∧
  counter_total c = Z.of_nat (length l).
Proof.
  intros Hc. split_and!; [| | | |by eapply count_directions_total].
  all: revert Hc; unfold count_directions;
    assert (0 ≤ n_inside counter_zero ∧ 0 ≤ n_enter counter_zero ∧
            0 ≤ n_exit counter_zero ∧ 0 ≤ n_outside counter_zero) as H0
      by done;
    revert H0; generalize counter_zero; revert c;
    induction l as [|t l IH]; intros c c0 H0 Hc;
    [simpl in Hc; simplify_eq; tauto|];
    cbn [foldlM] in Hc;
    (destruct (track_direction ellipse t) as [d|e]; [|by simpl in Hc]);
    rewrite !bind_Ok in Hc; apply IH in Hc; [done|];
    destruct d; simpl; lia.
Qed.

Lemma track_insects_one_file_fields (self self' : KalmanFilterCLI) :
  track_insects_one_file self = Ok self' →
  file_path self' = file_path self ∧ date self' = date self ∧
  count_directions (ellipse self) (self_all_tracks self')
  = Ok (counter self').
Proof.
  unfold track_insects_one_file. intros Hrun.
  destruct (tracking_result self) as [l|e]; [|done]. simpl in Hrun.
  destruct (count_directions (ellipse self) l) as [c|e] eqn:Hc; [|done].
  simpl in Hrun. by simplify_eq.
Qed.

Lemma load_csv_date disk (self : KalmanFilterCLI) path self' :
  load_csv disk self path = Ok (true, self') →
  file_path self' = path ∧ date self' = get_date_from_filename path.
Proof.
  unfold load_csv. intros Hload.
  destruct (disk path) as [table|]; [|done].
  repeat (case_match || case_decide); by simplify_eq.
Qed.

(** The seven lines of a block, read from any state the loop can be in. *)
Lemma parse_block (st : ParseState) (d t recs dt s e thr mx : string)
    (n a b c o : Z) :
  time_read st →
  all_digits d = true → String.length d = 8%nat →
  all_digits t = true → String.length t = 6%nat →
  plain recs = true → plain dt = true ∨ dt = "None" →
  plain s = true → plain e = true → plain thr = true → plain mx = true →
  0 ≤ n < 10 ^ 640 → 0 ≤ a < 10 ^ 640 → 0 ≤ b < 10 ^ 640 →
  0 ≤ c < 10 ^ 640 → 0 ≤ o < 10 ^ 640 →
  ∃ st' label,
    parse_lines max_str_digits st
      [ separator;
        "CSV File: " +:+ d +:+ "_" +:+ t +:+ ".csv" +:+ ". Total Records: "
          +:+ recs +:+ ". Date: " +:+ dt +:+ nl;
        "Start Frame: " +:+ s +:+ ". End Frame: " +:+ e +:+ nl;
        "Distance Threshold: " +:+ thr +:+ ". Max Frames Before Death: "
          +:+ mx +:+ nl;
        "Total Tracks: " +:+ pretty n +:+ nl;
        "Enter: " +:+ pretty a +:+ ". Exit: " +:+ pretty b +:+ ". Inside: "
          +:+ pretty c +:+ ". Outside: " +:+ pretty o +:+ nl;
        separator ] = Some st' ∧
    format_time max_str_digits (Some t) = Some (Some label) ∧
    stored (tracking_data st') (Some d) (Some label)
    = Some [("Total Tracks", Some n); ("Enter", Some a); ("Exit", Some b);
            ("Inside", Some c); ("Outside", Some o)]%string ∧
    time_read st' ∧
    current_data st'
    = [("Total Tracks", Some n); ("Enter", Some a); ("Exit", Some b);
       ("Inside", Some c); ("Outside", Some o)]%string.
Proof.
  intros Hst Hd Hd8 Ht Ht6 Hrecs Hdt Hs He Hthr Hmx Hn Ha Hb Hc Ho.
  cbn [parse_lines].
  rewrite parse_line_separator.
  destruct (store_read max_str_digits st Hst) as (st1 & -> & _).
  cbn [mbind option_bind].
  rewrite parse_line_name by done. cbn [mbind option_bind].
  rewrite parse_line_frames by done. cbn [mbind option_bind].
  rewrite parse_line_threshold by done. cbn [mbind option_bind].
  rewrite parse_line_total; [|by destruct d|by destruct t|done].
  cbn [mbind option_bind].
  rewrite parse_line_counts by done.
  set (data := [("Total Tracks", Some n); ("Enter", Some a);
                ("Exit", Some b); ("Inside", Some c);
                ("Outside", Some o)]%string).
  assert (time_read (mkParse (tracking_data st1) (Some d) (Some t) data))
    as Hst5.
  { intros t' Ht'. simpl in Ht'. by simplify_eq. }
  destruct (store_read max_str_digits _ Hst5)
    as (st5 & -> & Hd5 & Ht5 & Hdata5 & _ & _ & _).
  cbn [current_date current_time current_data] in Hd5, Ht5, Hdata5.
  cbn [mbind option_bind].
  rewrite parse_line_separator.
  assert (time_read st5) as Hst5'.
  { intros t' Ht'. rewrite Ht5 in Ht'. by apply Hst5. }
  destruct (store_read max_str_digits _ Hst5')
    as (st6 & -> & Hd6 & Ht6' & Hdata6 & _ & _ & Hstored).
  cbn [mbind option_bind].
  destruct Hstored as (label & Hl & _ & Hstored).
  { by rewrite Hdata5. }
  rewrite Ht5 in Hl.
  destruct (format_time_digits max_str_digits t Ht) as [label' Hl'];
    [lia|].
  rewrite Hl' in Hl. simplify_eq.
  exists st6, label'. split_and!; try done.
  - rewrite Hd5, Hdata5 in Hstored. done.
  - intros t' Ht'. rewrite Ht6' in Ht'. by apply Hst5'.
  - by rewrite Hdata6, Hdata5.
Qed.

Lemma parse_line_no_data (st : ParseState) (d t : string) :
  all_digits d = true → String.length d = 8%nat →
  all_digits t = true → String.length t = 6%nat →
  all_filled (current_data st) = true →
  ∃ st', parse_line max_str_digits st
           ("CSV File: " +:+ d +:+ "_" +:+ t +:+ ".csv" +:+ ". No Data Found"
              +:+ nl) = Some st' ∧
    current_date st' = None ∧ current_time st' = None ∧
    current_data st' = current_data st ∧
    stored (tracking_data st') None None = Some (current_data st).
Proof.
  intros Hd Hd8 Ht Ht6 Hfull.
  pose proof (all_digits_plain d Hd). pose proof (all_digits_plain t Ht).
  unfold parse_line, read_file_name.
  rewrite (contains_prefix "CSV File") by done.
  rewrite (re_search_here _ _ (d, t)) by by apply csv_file_pattern_app.
  assert (contains "No Data Found"
            ("CSV File: " +:+ d +:+ "_" +:+ t +:+ ".csv" +:+ ". No Data Found"
               +:+ nl) = true) as ->.
  { repeat first [ progress simpl | rewrite contains_skip by done ].
    done. }
  cbn [negb]. unfold read_total_tracks. cbn [current_date current_time].
  rewrite andb_false_r. cbn [mbind option_bind].
  assert (read_counts max_str_digits
            (mkParse (tracking_data st) None None (current_data st))
            ("CSV File: " +:+ d +:+ "_" +:+ t +:+ ".csv" +:+ ". No Data Found"
               +:+ nl)
          = Some (mkParse (tracking_data st) None None (current_data st)))
    as ->.
  { unfold read_counts, read_number.
    cbn [current_data tracking_data current_date current_time].
    assert (∀ lit : string,
              lit = "Enter: " ∨ lit = "Exit: " ∨ lit = "Inside: "
              ∨ lit = "Outside: " →
              re_search (number_pattern lit)
                ("CSV File: " +:+ d +:+ "_" +:+ t +:+ ".csv"
                   +:+ ". No Data Found" +:+ nl) = None) as Hnone.
    { intros lit [->|[->|[->| ->]]];
        repeat first [ progress simpl
                     | rewrite number_search_skip by done ]; done. }
    rewrite !Hnone by tauto. simpl. by destruct (negb _). }
  cbn [mbind option_bind].
  destruct (store_read max_str_digits
              (mkParse (tracking_data st) None None (current_data st)))
    as (st' & -> & ? & ? & ? & _ & _ & Hstored); [by intros ? ?|].
  exists st'. split_and!; try done.
  destruct Hstored as (label & Hl & _ & Hs); [done|].
  simpl in Hl. by simplify_eq.
Qed.

Lemma ends_line_nl (s : string) : ends_line (s +:+ nl) = true.
Proof.
  induction s as [|c s IH]; [done|]. cbn [String.append ends_line].
  destruct (s +:+ nl) eqn:Hs; [by destruct s|done].
Qed.

Lemma append_text_snoc (old : string) (writes : list string) (w : string) :
  append_text old (writes ++ [w]) = append_text old writes +:+ w.
Proof. unfold append_text. by rewrite foldl_app. Qed.

Lemma append_text_app_list (old : string) (w1 w2 : list string) :
  append_text old (w1 ++ w2) = append_text (append_text old w1) w2.
Proof. unfold append_text. by rewrite foldl_app. Qed.

(** The block of a run, appended to a file the viewer can read. *)
Lemma run_block_read disk (self0 self1 self : KalmanFilterCLI)
    (path d t old : string) (before : TrackingData) :
  load_csv disk self0 path = Ok (true, self1) →
  track_insects_one_file self1 = Ok self →
  basename path = d +:+ "_" +:+ t +:+ ".csv" →
  all_digits d = true → String.length d = 8%nat →
  all_digits t = true → String.length t = 6%nat →
  forallb number_char
    (String.list_ascii_of_string
       (threshold_text (self_distance_threshold self))) = true →
  Z.of_nat (length (self_all_tracks self)) < 10 ^ 640 →
  ends_line old = true →
  parse_tracking_data max_str_digits (readlines old) = Some before →
  ∃ label st,
    format_time max_str_digits (Some t) = Some (Some label) ∧
    parse_lines max_str_digits parse_init
      (readlines (append_text old (stats_text threshold_text self)))
    = Some st ∧
    stored (tracking_data st) (Some d) (Some label) = Some (current_data st) ∧
    time_read st ∧
    ends_line (append_text old (stats_text threshold_text self)) = true ∧
    current_data st =
    [("Total Tracks", Some (Z.of_nat (length (self_all_tracks self))));
     ("Enter", Some (n_enter (counter self)));
     ("Exit", Some (n_exit (counter self)));
     ("Inside", Some (n_inside (counter self)));
     ("Outside", Some (n_outside (counter self)))]%string.
Proof.
  intros Hload Hrun Hname Hd Hd8 Ht Ht6 Hthr Hlen Hold Hbefore.
  apply load_csv_date in Hload as [Hpath1 Hdate1].
  apply track_insects_one_file_fields in Hrun as (Hpath & Hdate & Hcount).
  apply count_directions_counts in Hcount as (? & ? & ? & ? & Htotal).
  unfold counter_total in Htotal.
  (* the lines *)
  set (dt := default "None" (date self)).
  assert (plain dt = true ∨ dt = "None") as Hdt.
  { unfold dt. rewrite Hdate, Hdate1.
    destruct (get_date_from_filename path) as [D|] eqn:HD; [|by right].
    left. apply first_digits_Some in HD as (_ & HD & _).
    by apply all_digits_plain, all_digits_Forall. }
  set (bodies :=
    [ "-------------------------------------------------";
      "CSV File: " +:+ d +:+ "_" +:+ t +:+ ".csv" +:+ ". Total Records: "
        +:+ pretty (Z.of_nat (length (default [] (self_df self))))
        +:+ ". Date: " +:+ dt;
      "Start Frame: " +:+ pretty (start_frame self) +:+ ". End Frame: "
        +:+ pretty (end_frame self);
      "Distance Threshold: "
        +:+ threshold_text (self_distance_threshold self)
        +:+ ". Max Frames Before Death: "
        +:+ pretty (self_max_frames_before_death self);
      "Total Tracks: " +:+ pretty (Z.of_nat (length (self_all_tracks self)));
      "Enter: " +:+ pretty (n_enter (counter self)) +:+ ". Exit: "
        +:+ pretty (n_exit (counter self)) +:+ ". Inside: "
        +:+ pretty (n_inside (counter self)) +:+ ". Outside: "
        +:+ pretty (n_outside (counter self));
      "-------------------------------------------------" ]%string).
  assert (stats_text threshold_text self = (λ b, b +:+ nl) <$> bodies)
    as Htext.
  { unfold stats_text, bodies, separator. rewrite Hpath, Hpath1, Hname.
    cbn [fmap list_fmap]. fold dt. by rewrite !append_assoc. }
  pose proof (pretty_Z_plain (Z.of_nat (length (default [] (self_df self)))))
    as Hrecs.
  pose proof (pretty_Z_plain (start_frame self)) as Hs.
  pose proof (pretty_Z_plain (end_frame self)) as He.
  pose proof (pretty_Z_plain (self_max_frames_before_death self)) as Hmx.
  pose proof (number_text_plain _ Hthr) as Hthr'.
  assert (Forall (λ b, one_line b = true) bodies) as Hlines.
  { pose proof (all_digits_plain d Hd). pose proof (all_digits_plain t Ht).
    assert (one_line dt = true).
    { destruct Hdt as [?| ->]; [by apply plain_one_line|done]. }
    unfold bodies.
    repeat (apply Forall_cons; split);
      repeat (apply one_line_app; split);
      try done; try apply plain_one_line; try done;
      apply pretty_Z_plain. }
  assert (ends_line (append_text old (stats_text threshold_text self)) = true)
    as Hends.
  { unfold stats_text.
    rewrite (app_comm_cons _ _ separator) || idtac.
    match goal with
    | |- ends_line (append_text old [?a; ?b; ?c; ?e; ?f; ?g; ?h]) = true =>
      change [a; b; c; e; f; g; h] with ([a; b; c; e; f; g] ++ [h])
    end.
    rewrite append_text_snoc. unfold separator.
    rewrite <- append_assoc. apply ends_line_nl. }
  rewrite append_text_app, readlines_app, Htext, readlines_bodies by done.
  (* the loop *)
  unfold parse_tracking_data in Hbefore.
  destruct (parse_lines max_str_digits parse_init (readlines old))
    as [st|] eqn:Hst; [|done].
  destruct (parse_lines_read max_str_digits _ _ _ time_read_init Hst)
    as [Hread _].
  rewrite parse_lines_app, Hst. cbn [mbind option_bind].
  destruct (parse_block st d t
              (pretty (Z.of_nat (length (default [] (self_df self)))))
              dt (pretty (start_frame self)) (pretty (end_frame self))
              (threshold_text (self_distance_threshold self))
              (pretty (self_max_frames_before_death self))
              (Z.of_nat (length (self_all_tracks self)))
              (n_enter (counter self)) (n_exit (counter self))
              (n_inside (counter self)) (n_outside (counter self)))
    as (st' & label & Hparse & Hlabel & Hstored & Hread' & Hdata);
    try done; try lia.
  exists label, st'. split_and!; try done.
  - unfold bodies. cbn [fmap list_fmap].
    rewrite !append_assoc. fold separator. by rewrite Hparse.
  - by rewrite Hdata.
  - rewrite <- Htext. rewrite <- (append_text_app old). done.
Qed.

(** The viewer reads back what the tracker wrote for a file: after a run
    on a table named by date and time, the block that is appended to
    [track-stats.txt] gives, under the date and the label of the time, the
    number of surviving tracks and the four counts of the run. *)
Theorem viewer_reads_back_the_run disk (self0 self1 self : KalmanFilterCLI)
    (path d t old : string) (before : TrackingData) :
  load_csv disk self0 path = Ok (true, self1) →
  track_insects_one_file self1 = Ok self →
  basename path = d +:+ "_" +:+ t +:+ ".csv" →
  all_digits d = true → String.length d = 8%nat →
  all_digits t = true → String.length t = 6%nat →
  forallb number_char
    (String.list_ascii_of_string
       (threshold_text (self_distance_threshold self))) = true →
  Z.of_nat (length (self_all_tracks self)) < 10 ^ 640 →
  ends_line old = true →
  parse_tracking_data max_str_digits (readlines old) = Some before →
  ∃ label after,
    format_time max_str_digits (Some t) = Some (Some label) ∧
    parse_tracking_data max_str_digits
      (readlines (append_text old (stats_text threshold_text self)))
    = Some after ∧
    stored after (Some d) (Some label) =
    Some [("Total Tracks", Some (Z.of_nat (length (self_all_tracks self))));
          ("Enter", Some (n_enter (counter self)));
          ("Exit", Some (n_exit (counter self)));
          ("Inside", Some (n_inside (counter self)));
          ("Outside", Some (n_outside (counter self)))]%string.
Proof.
  intros Hload Hrun Hname Hd Hd8 Ht Ht6 Hthr Hlen Hold Hbefore.
  destruct (run_block_read disk self0 self1 self path d t old before)
    as (label & st & Hlabel & Hparse & Hstored & _ & _ & Hdata); try done.
  exists label, (tracking_data st). split_and!; [done| |].
  - unfold parse_tracking_data. by rewrite Hparse.
  - by rewrite Hstored, Hdata.
Qed.

(** A file without data that comes after a run: its block takes the date
    away but leaves the counts of the run in place, and they are stored a
    second time, under the date [None] and the label [None]. *)
Theorem file_without_data_repeats_the_counts disk
    (self0 self1 self : KalmanFilterCLI)
    (path d t old path' d' t' : string) (before : TrackingData) :
  load_csv disk self0 path = Ok (true, self1) →
  track_insects_one_file self1 = Ok self →
  basename path = d +:+ "_" +:+ t +:+ ".csv" →
  all_digits d = true → String.length d = 8%nat →
  all_digits t = true → String.length t = 6%nat →
  forallb number_char
    (String.list_ascii_of_string
       (threshold_text (self_distance_threshold self))) = true →
  Z.of_nat (length (self_all_tracks self)) < 10 ^ 640 →
  ends_line old = true →
  parse_tracking_data max_str_digits (readlines old) = Some before →
  basename path' = d' +:+ "_" +:+ t' +:+ ".csv" →
  all_digits d' = true → String.length d' = 8%nat →
  all_digits t' = true → String.length t' = 6%nat →
  ∃ after,
    parse_tracking_data max_str_digits
      (readlines (append_text old
         (stats_text threshold_text self ++ no_data_text path')))
    = Some after ∧
    stored after None None =
    Some [("Total Tracks", Some (Z.of_nat (length (self_all_tracks self))));
          ("Enter", Some (n_enter (counter self)));
          ("Exit", Some (n_exit (counter self)));
          ("Inside", Some (n_inside (counter self)));
          ("Outside", Some (n_outside (counter self)))]%string.
Proof.
  intros Hload Hrun Hname Hd Hd8 Ht Ht6 Hthr Hlen Hold Hbefore
    Hname' Hd' Hd8' Ht' Ht6'.
  destruct (run_block_read disk self0 self1 self path d t old before)
    as (label & st & Hlabel & Hparse & Hstored & Hread & Hends & Hdata);
    try done.
  assert (all_filled (current_data st) = true) as Hfull by by rewrite Hdata.
  set (bodies :=
    [ "-------------------------------------------------";
      "CSV File: " +:+ d' +:+ "_" +:+ t' +:+ ".csv" +:+ ". No Data Found";
      "-------------------------------------------------" ]%string).
  assert (no_data_text path' = (λ b, b +:+ nl) <$> bodies) as Htext.
  { unfold no_data_text, bodies, separator. rewrite Hname'.
    cbn [fmap list_fmap]. by rewrite !append_assoc. }
  assert (Forall (λ b, one_line b = true) bodies) as Hlines.
  { pose proof (all_digits_plain d' Hd').
    pose proof (all_digits_plain t' Ht').
    unfold bodies.
    repeat (apply Forall_cons; split);
      repeat (apply one_line_app; split);
      try done; by apply plain_one_line. }
  rewrite append_text_app_list, (append_text_app (append_text _ _)).
  rewrite readlines_app, Htext, readlines_bodies by done.
  unfold parse_tracking_data. rewrite parse_lines_app, Hparse.
  cbn [mbind option_bind]. unfold bodies. cbn [fmap list_fmap parse_lines].
  fold separator. rewrite parse_line_separator.
  destruct (store_read max_str_digits st Hread)
    as (st1 & -> & _ & _ & Hdata1 & _).
  cbn [mbind option_bind]. rewrite !append_assoc.
  destruct (parse_line_no_data st1 d' t')
    as (st2 & -> & Hd2 & Ht2 & Hdata2 & _); try done.
  { by rewrite Hdata1. }
  cbn [mbind option_bind]. rewrite parse_line_separator.
  destruct (store_read max_str_digits st2)
    as (st3 & -> & _ & _ & _ & _ & _ & Hs3).
  { intros ? ?. congruence. }
  cbn [mbind option_bind fmap option_fmap option_map].
  exists (tracking_data st3). split; [done|].
  destruct Hs3 as (label' & Hl' & _ & Hs3).
  { by rewrite Hdata2, Hdata1. }
  rewrite Ht2 in Hl'. simpl in Hl'. simplify_eq.
  rewrite Hd2, Hdata2, Hdata1, Hdata in Hs3. done.
Qed.

End RoundTrip.

Section ViewerQuirks.
Context {mathlib : MathLib} {tracklib : TrackLib}.
Local Arguments String.append !_ _ / : simpl nomatch.
Variable max_str_digits : nat.
Variable threshold_text : float → string.

(** Before the first file name is read the counts are the empty dictionary,
    of which every value is set: a file whose first line is not the line of
    a file name gets an entry under the date [None] and the label [None],
    and the date [None] is among the dates the viewer offers.  Every file
    the tracker writes starts with the separator. *)
Theorem file_without_name_line_first (line : string) (lines : list string)
    (data : TrackingData) :
  contains "CSV File" line = false →
  parse_tracking_data max_str_digits (line :: lines) = Some data →
  dict_has data None = true ∧ is_Some (stored data None None).
Proof.
  intros Hline. unfold parse_tracking_data. cbn [parse_lines].
  assert (parse_line max_str_digits parse_init line
          = Some (mkParse [(None, [(None, [])])] None None [])) as ->.
  { unfold parse_line, read_file_name, read_total_tracks. rewrite Hline.
    cbn [parse_init current_date current_time truthy].
    by rewrite andb_false_r. }
  cbn [mbind option_bind]. intros Hp.
  destruct (parse_lines _ _ lines) as [st|] eqn:Hst; [|done].
  simpl in Hp. simplify_eq.
  apply parse_lines_read in Hst as (_ & Hk & Hl); [|by intros ? ?].
  split; [by apply Hk|]. apply Hl. by eexists.
Qed.

(** *** The labels of the plot *)

Lemma int_digits_count (s : string) (acc : Z) (n : nat) (b : bool) v k :
  int_digits s acc n b = Some (v, k) → (k ≤ n + String.length s)%nat.
Proof.
  revert acc n b. induction s as [|c s IH]; intros acc n b Hs; simpl in Hs.
  { destruct b; simplify_eq. lia. }
  simpl. destruct (is_digit c).
  - apply IH in Hs. lia.
  - destruct (Ascii.eqb c _); [|done]. destruct b; [|done].
    apply IH in Hs. lia.
Qed.

Lemma length_lstrip (s : string) :
  (String.length (lstrip s) ≤ String.length s)%nat.
Proof.
  induction s as [|c s IH]; [done|]. simpl.
  destruct (is_space c); simpl; lia.
Qed.

Lemma length_rstrip (s : string) :
  (String.length (rstrip s) ≤ String.length s)%nat.
Proof.
  induction s as [|c s IH]; [done|]. simpl.
  destruct (rstrip s); [destruct (is_space c)|]; simpl in *; lia.
Qed.

(** The limit on the digits of [int] plays no part for a text of 640
    characters or fewer. *)
Lemma py_int_short (s : string) :
  (String.length s ≤ 640)%nat → py_int max_str_digits s = py_int 0 s.
Proof.
  intros Hlen. unfold py_int.
  pose proof (length_rstrip (lstrip s)). pose proof (length_lstrip s).
  destruct (rstrip (lstrip s)) as [|c body] eqn:Hs; [done|].
  assert (∀ neg body', (String.length body' ≤ 640)%nat →
    ('(v, n) ← int_digits body' 0 0 false;
     if ((0 <? max_str_digits) && (max_str_digits <? n) && (640 <? n))%nat
     then None else Some (if neg : bool then - v else v)) =
    ('(v, n) ← int_digits body' 0 0 false;
     if ((0 <? 0) && (0 <? n) && (640 <? n))%nat
     then None else Some (if neg : bool then - v else v))) as Hbody.
  { intros neg body' Hb.
    destruct (int_digits body' 0 0 false) as [[v n]|] eqn:Hd; [|done].
    apply int_digits_count in Hd. simpl.
    replace (640 <? n)%nat with false; [by rewrite andb_false_r|].
    symmetry. apply Nat.ltb_ge. lia. }
  simpl in H.
  destruct (Ascii.eqb c _); [apply (Hbody true); lia|].
  destruct (Ascii.eqb c _); apply (Hbody false); simpl; lia.
Qed.

Lemma length_substring (a b : nat) (s : string) :
  (String.length (String.substring a b s) ≤ b)%nat.
Proof.
  revert a b. induction s as [|c s IH]; intros [|a] [|b]; simpl;
    try lia; try apply IH.
  specialize (IH 0%nat b). lia.
Qed.

Lemma format_time_limit (time : option string) :
  format_time max_str_digits time = format_time 0 time.
Proof.
  destruct time as [time|]; [|done]. unfold format_time.
  rewrite !(py_int_short (String.substring _ 2 time)); [done|..];
    pose proof (length_substring 0 2 time);
    pose proof (length_substring 2 2 time); lia.
Qed.

Lemma all_times_limit : all_times max_str_digits = all_times 0.
Proof.
  unfold all_times.
  generalize (hour ← seqZ 6 15; minute ← (λ k, 10 * k) <$> seqZ 0 6;
              [(hour, minute)]).
  intros l. induction l as [|hm l IH]; [done|].
  cbn [mapM]. by rewrite format_time_limit, IH.
Qed.

Lemma substring_prefix (a b : nat) (s rest : string) :
  (a + b ≤ String.length s)%nat →
  String.substring a b (s +:+ rest) = String.substring a b s.
Proof.
  revert a b. induction s as [|c s IH]; intros a b Hlen; simpl in Hlen.
  { assert (a = 0 ∧ b = 0)%nat as [-> ->] by lia. by destruct rest. }
  cbn [String.append].
  destruct a as [|a]; destruct b as [|b]; simpl; try done.
  - f_equal. apply IH. lia.
  - apply IH. lia.
  - apply IH. lia.
Qed.

(** Which recordings can ever be plotted.  The label of a time of day has
    the minute rounded to ten, a half going to the even side: the minutes
    from 55 on get the minute 60, which no label of the plot has.  A
    recording is on the plot exactly when its hour is between 6 and 20 and
    its minute is below 55. *)
Theorem labels_of_the_plot (hour minute : Z) (seconds : string) :
  0 ≤ hour < 24 → 0 ≤ minute < 60 →
  ∃ label grid,
    format_time max_str_digits
      (Some (pad2 hour +:+ pad2 minute +:+ seconds)) = Some (Some label) ∧
    all_times max_str_digits = Some grid ∧
    (Some label ∈ grid ↔ 6 ≤ hour ≤ 20 ∧ minute < 55).
Proof.
  intros Hh Hm. rewrite format_time_limit, all_times_limit.
  set (check := λ h mi : Z,
    match format_time 0 (Some (pad2 h +:+ pad2 mi)), all_times 0 with
    | Some (Some label), Some grid =>
      bool_decide (Some label ∈ grid ↔ 6 ≤ h ≤ 20 ∧ mi < 55)
    | _, _ => false
    end).
  assert (forallb (λ h, forallb (check h) (seqZ 0 60)) (seqZ 0 24) = true)
    as Hall by (by vm_compute).
  rewrite forallb_forall in Hall.
  specialize (Hall hour). rewrite forallb_forall in Hall.
  assert (check hour minute = true) as Hcheck.
  { apply Hall; apply list_elem_of_In, elem_of_seqZ; lia. }
  clear Hall. unfold check in Hcheck.
  assert (format_time 0 (Some (pad2 hour +:+ pad2 minute +:+ seconds))
          = format_time 0 (Some (pad2 hour +:+ pad2 minute))) as ->.
  { assert (String.length (pad2 hour +:+ pad2 minute) = 4%nat) as Hlen.
    { assert (forallb (λ h, forallb (λ mi,
                bool_decide (String.length (pad2 h +:+ pad2 mi) = 4%nat))
                (seqZ 0 60)) (seqZ 0 24) = true) as Hl by (by vm_compute).
      rewrite forallb_forall in Hl.
      specialize (Hl hour). rewrite forallb_forall in Hl.
      eapply bool_decide_eq_true, Hl;
        apply list_elem_of_In, elem_of_seqZ; lia. }
    rewrite <- append_assoc. unfold format_time.
    by rewrite !(substring_prefix _ _ (pad2 hour +:+ pad2 minute) seconds)
      by (rewrite Hlen; lia). }
  destruct (format_time 0 _) as [[label|]|]; try done.
  destruct (all_times 0) as [grid|]; [|done].
  exists label, grid. split_and!; try done.
  by apply bool_decide_eq_true in Hcheck.
Qed.

End ViewerQuirks.

(** * The folder of tables *)

Section SortByKey.
Context {A : Type} (key : A → option string).

Lemma ltb_false_le (x y : string) : String.ltb y x = false → String.le x y.
Proof.
  unfold String.ltb, String.le, String.leb.
  rewrite (String.compare_antisym y x).
  destruct (String.compare x y); simpl; done.
Qed.

Lemma ltb_true_le (x y : string) :
  String.ltb y x = true → String.le y x ∧ y ≠ x.
Proof.
  unfold String.ltb, String.le, String.leb.
  destruct (String.compare y x) eqn:Hc; try done. intros _. split; [done|].
  intros ->. pose proof (String.compare_antisym x x) as Hx.
  rewrite Hc in Hx. done.
Qed.

Lemma key_le_trans (a b c : option string) :
  key_le a b → key_le b c → key_le a c.
Proof.
  destruct a, b, c; simpl; try done. intros ? ?. by etrans.
Qed.

(** The only exception of the sort. *)
Lemma insert_by_key_Raise (x : A) (l : list A) (e : exn) :
  insert_by_key key x l = Raise e → e = TypeError.
Proof.
  induction l as [|y l IH]; simpl; [done|].
  destruct (key y), (key x); simpl; try (intros; by simplify_eq).
  destruct (String.ltb _ _); [|done].
  destruct (insert_by_key key x l); simpl; [done|].
  intros. simplify_eq. by apply IH.
Qed.

Lemma stable_sort_by_key_Raise (l : list A) (e : exn) :
  stable_sort_by_key key l = Raise e → e = TypeError.
Proof.
  induction l as [|x l IH]; simpl; [done|].
  destruct (stable_sort_by_key key l) as [s|e']; simpl.
  - apply insert_by_key_Raise.
  - intros. simplify_eq. by apply IH.
Qed.

Lemma insert_by_key_Permutation (x : A) (l s : list A) :
  insert_by_key key x l = Ok s → s ≡ₚ x :: l.
Proof.
  revert s. induction l as [|y l IH]; intros s; simpl.
  { intros. by simplify_eq. }
  destruct (key_lt (key y) (key x)) as [[]|]; simpl; [| |done].
  - destruct (insert_by_key key x l) as [s'|]; simpl; [|done].
    intros. simplify_eq. rewrite (IH s' eq_refl). apply perm_swap.
  - intros. by simplify_eq.
Qed.

Lemma stable_sort_by_key_Permutation (l s : list A) :
  stable_sort_by_key key l = Ok s → s ≡ₚ l.
Proof.
  revert s. induction l as [|x l IH]; intros s; simpl.
  { intros. by simplify_eq. }
  destruct (stable_sort_by_key key l) as [s'|]; simpl; [|done].
  intros Hs. apply insert_by_key_Permutation in Hs. by rewrite Hs, (IH s').
Qed.

(** With keys that are all texts the sort returns. *)
Lemma insert_by_key_Ok (x : A) (l : list A) :
  is_Some (key x) → Forall (λ a, is_Some (key a)) l →
  ∃ s, insert_by_key key x l = Ok s.
Proof.
  intros [kx Hx]. induction 1 as [|y l [ky Hy] _ [s IH]]; simpl.
  { by eexists. }
  rewrite Hx, Hy. simpl. destruct (String.ltb ky kx); [|by eexists].
  rewrite IH. by eexists.
Qed.

Lemma stable_sort_by_key_Ok (l : list A) :
  Forall (λ a, is_Some (key a)) l → ∃ s, stable_sort_by_key key l = Ok s.
Proof.
  induction 1 as [|x l Hx Hl [s IH]]; simpl; [by eexists|].
  rewrite IH. simpl. apply insert_by_key_Ok; [done|].
  apply stable_sort_by_key_Permutation in IH. by rewrite IH.
Qed.

(** A list of one element or none is not compared at all. *)
Lemma stable_sort_by_key_short (l : list A) :
  (length l ≤ 1)%nat → stable_sort_by_key key l = Ok l.
Proof. destruct l as [|x [|y l]]; simpl; [done|done|lia]. Qed.

(** A key [None] in a list of two or more raises. *)
Lemma stable_sort_by_key_None (l : list A) :
  (2 ≤ length l)%nat → Exists (λ a, key a = None) l →
  stable_sort_by_key key l = Raise TypeError.
Proof.
  induction l as [|x l IH]; intros Hlen Hnone; simpl in *; [lia|].
  destruct (stable_sort_by_key key l) as [s|e] eqn:Hs; simpl.
  2:{ by rewrite (stable_sort_by_key_Raise _ _ Hs). }
  pose proof (stable_sort_by_key_Permutation _ _ Hs) as Hperm.
  destruct s as [|y s].
  { apply Permutation_nil_l in Hperm. subst. simpl in Hlen. lia. }
  simpl. destruct (key y) as [ky|] eqn:Hy; [|done].
  destruct (key x) as [kx|] eqn:Hx; [|done]. exfalso.
  apply Exists_cons in Hnone as [?|Hnone]; [congruence|].
  destruct (decide (2 ≤ length l)%nat) as [Hl|Hl].
  { by specialize (IH Hl Hnone). }
  destruct l as [|z [|z' l]]; simpl in *; try lia.
  simplify_eq. apply Exists_cons in Hnone as [?|Hnone]; [congruence|].
  by apply Exists_nil in Hnone.
Qed.

Lemma insert_by_key_sorted (x : A) (l s : list A) :
  insert_by_key key x l = Ok s →
  StronglySorted (λ a b, key_le (key a) (key b)) l →
  StronglySorted (λ a b, key_le (key a) (key b)) s.
Proof.
  intros Hs Hl. revert s Hs.
  induction Hl as [|y l Hl IH Hy]; intros s Hs; simpl in Hs.
  { simplify_eq. repeat constructor. }
  destruct (key_lt (key y) (key x)) as [lt|] eqn:Hcmp; [|done].
  simpl in Hs.
  assert (∃ ky kx, key y = Some ky ∧ key x = Some kx ∧ lt = String.ltb ky kx)
    as (ky & kx & Hky & Hkx & ->).
  { destruct (key y), (key x); simpl in Hcmp; simplify_eq. eauto. }
  destruct (String.ltb ky kx) eqn:Hlt.
  - destruct (insert_by_key key x l) as [s'|] eqn:Hs'; [|done].
    simpl in Hs. simplify_eq. constructor; [by apply IH|].
    apply insert_by_key_Permutation in Hs'. rewrite Hs'.
    constructor; [|done]. rewrite Hky, Hkx. simpl.
    by apply ltb_true_le in Hlt as [? _].
  - simplify_eq. constructor; [by constructor|].
    assert (key_le (key x) (key y)) as Hxy.
    { rewrite Hky, Hkx. simpl. by apply ltb_false_le. }
    constructor; [done|].
    eapply Forall_impl; [done|]. intros z Hz. by eapply key_le_trans.
Qed.

Lemma stable_sort_by_key_sorted (l s : list A) :
  stable_sort_by_key key l = Ok s →
  StronglySorted (λ a b, key_le (key a) (key b)) s.
Proof.
  revert s. induction l as [|x l IH]; intros s Hs; simpl in Hs.
  { simplify_eq. constructor. }
  destruct (stable_sort_by_key key l) as [s'|] eqn:Hs'; [|done].
  simpl in Hs. eapply insert_by_key_sorted; [done|by apply IH].
Qed.

(** Stability: the elements of one key keep their order. *)
Lemma insert_by_key_filter (k : option string) (x : A) (l s : list A) :
  insert_by_key key x l = Ok s →
  filter (λ a, key a = k) s = filter (λ a, key a = k) (x :: l).
Proof.
  revert s. induction l as [|y l IH]; intros s Hs; simpl in Hs.
  { by simplify_eq. }
  destruct (key y) as [ky|] eqn:Hky; [|done].
  destruct (key x) as [kx|] eqn:Hkx; [|done]. simpl in Hs.
  destruct (String.ltb ky kx) eqn:Hlt; [|by simplify_eq].
  destruct (insert_by_key key x l) as [s'|] eqn:Hs'; [|done].
  simpl in Hs. simplify_eq.
  apply ltb_true_le in Hlt as [_ Hne].
  rewrite (filter_cons _ y), (IH s' eq_refl), !filter_cons.
  destruct (decide (key y = k)) as [Hy|Hy];
    destruct (decide (key x = k)) as [Hx|Hx]; try done.
  congruence.
Qed.

Lemma stable_sort_by_key_filter (k : option string) (l s : list A) :
  stable_sort_by_key key l = Ok s →
  filter (λ a, key a = k) s = filter (λ a, key a = k) l.
Proof.
  revert s. induction l as [|x l IH]; intros s Hs; simpl in Hs.
  { by simplify_eq. }
  destruct (stable_sort_by_key key l) as [s'|] eqn:Hs'; [|done].
  simpl in Hs. rewrite (insert_by_key_filter k _ _ _ Hs), !filter_cons.
  by rewrite (IH s').
Qed.

(** [sorted(..., reverse=True)]. *)
Lemma sorted_by_key_reverse_Ok (l : list A) :
  (length l ≤ 1)%nat ∨ Forall (λ a, is_Some (key a)) l →
  ∃ s, sorted_by_key_reverse key l = Ok s.
Proof.
  unfold sorted_by_key_reverse. intros [Hlen|Hall].
  - rewrite stable_sort_by_key_short by by rewrite length_reverse.
    by eexists.
  - destruct (stable_sort_by_key_Ok (reverse l)) as [s ->];
      [by apply Forall_reverse|]. by eexists.
Qed.

Lemma sorted_by_key_reverse_None (l : list A) :
  (2 ≤ length l)%nat → Exists (λ a, key a = None) l →
  sorted_by_key_reverse key l = Raise TypeError.
Proof.
  intros Hlen Hnone. unfold sorted_by_key_reverse.
  rewrite stable_sort_by_key_None; [done|by rewrite length_reverse|].
  apply Exists_exists in Hnone as (a & Ha & ?).
  apply Exists_exists. exists a. split; [|done]. by apply elem_of_reverse.
Qed.

Lemma sorted_by_key_reverse_Raise (l : list A) (e : exn) :
  sorted_by_key_reverse key l = Raise e →
  e = TypeError ∧ (2 ≤ length l)%nat ∧ Exists (λ a, key a = None) l.
Proof.
  intros Hs.
  destruct (decide (length l ≤ 1)%nat) as [Hlen|Hlen].
  { destruct (sorted_by_key_reverse_Ok l) as [s Hs']; [by left|].
    congruence. }
  destruct (decide (Forall (λ a, is_Some (key a)) l)) as [Hall|Hall].
  { destruct (sorted_by_key_reverse_Ok l) as [s Hs']; [by right|].
    congruence. }
  unfold sorted_by_key_reverse in Hs.
  destruct (stable_sort_by_key key (reverse l)) as [s|e'] eqn:Hs'; [done|].
  simpl in Hs. simplify_eq.
  split_and!; [by eapply stable_sort_by_key_Raise|lia|].
  apply not_Forall_Exists in Hall; [|apply _].
  eapply Exists_impl; [done|]. intros a Ha. simpl in Ha.
  destruct (key a); [|done]. destruct Ha. by eexists.
Qed.

Lemma sorted_by_key_reverse_spec (l s : list A) :
  sorted_by_key_reverse key l = Ok s →
  s ≡ₚ l ∧
  StronglySorted (λ a b, key_le (key b) (key a)) s ∧
  ∀ k, filter (λ a, key a = k) s = filter (λ a, key a = k) l.
Proof.
  unfold sorted_by_key_reverse. intros Hs.
  destruct (stable_sort_by_key key (reverse l)) as [s'|] eqn:Hs'; [|done].
  simpl in Hs. simplify_eq. split_and!.
  - apply stable_sort_by_key_Permutation in Hs'.
    by rewrite reverse_Permutation, Hs', reverse_Permutation.
  - apply (StronglySorted_reverse (λ a b, key_le (key a) (key b))).
    by eapply stable_sort_by_key_sorted.
  - intros k. rewrite filter_reverse, (stable_sort_by_key_filter k _ _ Hs').
    by rewrite filter_reverse, reverse_involutive.
Qed.

End SortByKey.

Section Folder.

Lemma take_digits_shorter (n : nat) (s d : string) :
  take_digits (S n) s = Some d → is_Some (take_digits n s).
Proof.
  revert s d. induction n as [|n IH]; intros s d Hd; [by eexists|].
  destruct s as [|c s]; [done|].
  change (take_digits (S (S n)) (String c s))
    with (if is_digit c then String c <$> take_digits (S n) s else None)
    in Hd.
  change (take_digits (S n) (String c s))
    with (if is_digit c then String c <$> take_digits n s else None).
  destruct (is_digit c); [|done].
  destruct (take_digits (S n) s) as [d'|] eqn:Hd'; [|done].
  destruct (IH s d' Hd') as [d'' ->]. by eexists.
Qed.

Lemma first_digits_shorter (n : nat) (s : string) :
  is_Some (first_digits (S n) s) → is_Some (first_digits n s).
Proof.
  induction s as [|c s IH]; cbn [first_digits].
  - destruct (take_digits (S n) "") eqn:Hd; [|by intros [? ?]].
    intros _. by destruct (take_digits_shorter _ _ _ Hd) as [d ->].
  - destruct (take_digits (S n) (String c s)) eqn:Hd.
    + intros _. by destruct (take_digits_shorter _ _ _ Hd) as [d ->].
    + intros Hs. destruct (take_digits n (String c s)); [done|by apply IH].
Qed.

(** A name with a date has a time. *)
Lemma date_gives_time (f : string) :
  is_Some (get_date_from_filename f) → is_Some (get_time_from_filename f).
Proof.
  unfold get_date_from_filename, get_time_from_filename. intros H.
  by do 2 apply first_digits_shorter.
Qed.

(** When the constructor fails on the folder.  With two tables or more the
    sort compares the keys; the key of a path without eight digits in a row
    is [None], which cannot be compared: [load_csv_folder] raises TypeError
    exactly when the folder holds two tables or more and one of the paths
    is without a date. *)
Theorem folder_raises_on_a_name_without_date (folder_path : string)
    (listing : list string) :
  load_csv_folder folder_path listing = Raise TypeError ↔
  (2 ≤ length (csv_paths folder_path listing))%nat ∧
  ∃ f, f ∈ csv_paths folder_path listing ∧ get_date_from_filename f = None.
Proof.
  unfold load_csv_folder. generalize (csv_paths folder_path listing).
  intros paths. split.
  - intros Hraise.
    destruct (sorted_by_key_reverse get_time_from_filename paths)
      as [by_time|e] eqn:Htime; simpl in Hraise.
    + apply sorted_by_key_reverse_Raise in Hraise as (_ & Hlen & Hnone).
      apply sorted_by_key_reverse_spec in Htime as (Hperm & _).
      rewrite Hperm in Hlen, Hnone. split; [done|].
      apply Exists_exists in Hnone as (f & ? & ?). by exists f.
    + apply sorted_by_key_reverse_Raise in Htime as (_ & Hlen & Hnone).
      split; [done|]. apply Exists_exists in Hnone as (f & ? & Hf).
      exists f. split; [done|].
      destruct (get_date_from_filename f) eqn:Hd; [|done].
      destruct (date_gives_time f) as [t Ht]; [by eexists|]. congruence.
  - intros (Hlen & f & Hf & Hdate).
    destruct (sorted_by_key_reverse get_time_from_filename paths)
      as [by_time|e] eqn:Htime; simpl.
    + apply sorted_by_key_reverse_spec in Htime as (Hperm & _).
      apply sorted_by_key_reverse_None; [by rewrite Hperm|].
      apply Exists_exists. exists f. split; [by rewrite Hperm|done].
    + by apply sorted_by_key_reverse_Raise in Htime as (-> & _).
Qed.

(** The two sorts of [load_csv_folder]. *)
Lemma load_csv_folder_steps (folder_path : string)
    (listing files : list string) :
  load_csv_folder folder_path listing = Ok files →
  ∃ by_time,
    sorted_by_key_reverse get_time_from_filename
      (csv_paths folder_path listing) = Ok by_time ∧
    sorted_by_key_reverse get_date_from_filename by_time = Ok files.
Proof.
  unfold load_csv_folder. intros Hload.
  destruct (sorted_by_key_reverse get_time_from_filename _)
    as [by_time|e] eqn:Htime; [|done].
  by exists by_time.
Qed.

(** What is left of the listing order after both sorts. *)
Lemma load_csv_folder_stable (folder_path : string)
    (listing files : list string) (d t : option string) :
  load_csv_folder folder_path listing = Ok files →
  filter (λ f, get_date_from_filename f = d ∧
               get_time_from_filename f = t) files =
  filter (λ f, get_date_from_filename f = d ∧
               get_time_from_filename f = t)
         (csv_paths folder_path listing).
Proof.
  intros (by_time & Htime & Hdate)%load_csv_folder_steps.
  apply sorted_by_key_reverse_spec in Htime as (_ & _ & Hstable1).
  apply sorted_by_key_reverse_spec in Hdate as (_ & _ & Hstable2).
  assert (∀ l : list string,
            filter (λ f, get_date_from_filename f = d ∧
                         get_time_from_filename f = t) l =
            filter (λ f, get_date_from_filename f = d)
                   (filter (λ f, get_time_from_filename f = t) l)) as HDT.
  { intros l. by rewrite list_filter_filter. }
  assert (∀ l : list string,
            filter (λ f, get_date_from_filename f = d ∧
                         get_time_from_filename f = t) l =
            filter (λ f, get_time_from_filename f = t)
                   (filter (λ f, get_date_from_filename f = d) l)) as HTD.
  { intros l. rewrite list_filter_filter. apply list_filter_iff. tauto. }
  by rewrite HTD, Hstable2, <- HTD, HDT, Hstable1, <- HDT.
Qed.

End Folder.

Section FolderOrder.

(** The order in which the tables are processed: the paths of the folder
    that end in [.csv], by date from the latest to the earliest; the tables
    of one date by the key of the time, from the largest to the smallest;
    and the tables of one date and one key in the order of the directory
    listing. *)
Theorem folder_is_sorted_by_date_then_time (folder_path : string)
    (listing files : list string) :
  load_csv_folder folder_path listing = Ok files →
  files ≡ₚ csv_paths folder_path listing ∧
  StronglySorted (λ a b, key_le (get_date_from_filename b)
                                (get_date_from_filename a)) files ∧
  (∀ d, StronglySorted
          (λ a b, key_le (get_time_from_filename b)
                         (get_time_from_filename a))
          (filter (λ f, get_date_from_filename f = d) files)) ∧
  (∀ d t, filter (λ f, get_date_from_filename f = d ∧
                       get_time_from_filename f = t) files =
          filter (λ f, get_date_from_filename f = d ∧
                       get_time_from_filename f = t)
                 (csv_paths folder_path listing)).
Proof.
  intros Hload.
  destruct (load_csv_folder_steps _ _ _ Hload) as (by_time & Htime & Hdate).
  apply sorted_by_key_reverse_spec in Htime as (Hperm1 & Hsorted1 & _).
  apply sorted_by_key_reverse_spec in Hdate as (Hperm2 & Hsorted2 & Hstable2).
  split_and!.
  - by rewrite Hperm2.
  - done.
  - intros d. rewrite Hstable2. by apply StronglySorted_filter.
  - intros d t. by apply load_csv_folder_stable.
Qed.

(** With names that have no digit before the date the key of the time is
    the year and the month, the same for all tables of a date: the tables
    of one date are processed in the order of the directory listing, and
    the time of day in their names plays no part. *)
Theorem time_of_day_plays_no_part (folder_path : string)
    (listing files : list string) :
  load_csv_folder folder_path listing = Ok files →
  (∀ f, f ∈ csv_paths folder_path listing →
     ∃ pre d rest, f = pre +:+ d +:+ rest ∧
       Forall (λ c, is_digit c = false) (String.list_ascii_of_string pre) ∧
       Forall (λ c, is_digit c = true) (String.list_ascii_of_string d) ∧
       String.length d = 8%nat) →
  ∀ d, filter (λ f, get_date_from_filename f = Some d) files =
       filter (λ f, get_date_from_filename f = Some d)
              (csv_paths folder_path listing).
Proof.
  intros Hload Hnames d.
  assert (files ≡ₚ csv_paths folder_path listing) as Hperm.
  { destruct (load_csv_folder_steps _ _ _ Hload) as (by_time & Ht & Hd).
    apply sorted_by_key_reverse_spec in Ht as (Hperm1 & _).
    apply sorted_by_key_reverse_spec in Hd as (Hperm2 & _).
    by rewrite Hperm2. }
  assert (∀ l : list string, l ⊆ csv_paths folder_path listing →
            filter (λ f, get_date_from_filename f = Some d) l =
            filter (λ f, get_date_from_filename f = Some d ∧
                         get_time_from_filename f
                         = Some (String.substring 0 6 d)) l) as Hkey.
  { intros l Hl. apply filter_ext_elem. intros f Hf.
    split; [|by intros [? _]]. intros Hd. split; [done|].
    destruct (Hnames f (Hl f Hf)) as (pre & d' & rest & -> & ? & ? & ?).
    rewrite (date_of_date_first_name pre d' rest) in Hd by done.
    simplify_eq. by apply time_of_date_first_name. }
  rewrite (Hkey files), (Hkey (csv_paths folder_path listing)); [|done|].
  - by apply load_csv_folder_stable.
  - intros f Hf. by rewrite <- Hperm.
Qed.

End FolderOrder.

(** * The further properties at concrete inputs *)

Section MoreWitnesses.
Local Existing Instance Demo.lib.
Local Existing Instance Demo.math.

(** The table with a gap has no detection in frame 2. *)
Lemma frame_without_detections_witness :
  (valid_assignment ∧ observations_of (Demo.gap_table 22) 2 = []) ∧
  let p := Demo.params in
  let df := Demo.gap_table 22 in
  ∃ st st',
    frame_loop p df loop_init [1] = Ok st ∧
    frame_step p df st 2 = Ok st' ∧
    length (heap st') = length (heap st) ∧
    track_id st' = track_id st ∧
    all_tracks st' = all_tracks st ∧
    (∀ a t, heap st !! a = Some t →
       heap st' !! a =
       Some (if decide (a ∈ tracks st) then predicted t else t)) ∧
    tracks st' =
      filter (λ a, last_seen (heap st !!! a) + 1 ≤ max_frames_before_death p)
             (tracks st).
Proof.
  split; [split; [exact DemoFacts.assignment_valid|done]|].
  exact (frame_without_detections Demo.params (Demo.gap_table 22) [1] 2
           DemoFacts.assignment_valid eq_refl).
Defined.

Lemma frame_without_active_tracks_witness :
  valid_assignment ∧
  let p := Demo.params in
  let df := rows Demo.table in
  ∃ st st',
    frame_loop p df loop_init [] = Ok st ∧
    frame_step p df st 1 = Ok st' ∧
    (tracks st = [] →
     heap st' =
       heap st ++
       imap (λ k obs, new_track p 1 obs (track_id st + Z.of_nat k))
            (observations_of df 1)).
Proof.
  split; [exact DemoFacts.assignment_valid|].
  exact (frame_without_active_tracks Demo.params (rows Demo.table) [] 1
           DemoFacts.assignment_valid).
Defined.

Lemma history_is_append_only_witness :
  valid_assignment ∧
  let p := Demo.params in
  let df := rows Demo.table in
  ∃ st st',
    frame_loop p df loop_init [1; 2] = Ok st ∧
    frame_loop p df loop_init ([1; 2] ++ [3; 4]) = Ok st' ∧
    (∀ a t, heap st !! a = Some t →
       ∃ t', heap st' !! a = Some t' ∧ id_ t' = id_ t ∧
             positions t `prefix_of` positions t' ∧
             frame_ids t `prefix_of` frame_ids t') ∧
    all_tracks st `prefix_of` all_tracks st'.
Proof.
  split; [exact DemoFacts.assignment_valid|].
  exact (history_is_append_only Demo.params (rows Demo.table) [1; 2] [3; 4]
           DemoFacts.assignment_valid).
Defined.

Lemma frame_ids_and_last_seen_witness :
  valid_assignment ∧
  let p := Demo.params in
  ∃ st,
    frame_loop p (Demo.gap_table 23) loop_init (frame_range 1 23) = Ok st ∧
    ∀ a t, heap st !! a = Some t →
      StronglySorted Z.lt (frame_ids t) ∧
      Forall (λ f, 1 ≤ f ≤ 23) (frame_ids t) ∧
      (a ∈ tracks st →
         ∃ f, last (frame_ids t) = Some f ∧ last_seen t = 23 - f) ∧
      (a ∉ tracks st → 0 ≤ max_frames_before_death p →
         last_seen t = max_frames_before_death p + 1).
Proof.
  split; [exact DemoFacts.assignment_valid|].
  exact (frame_ids_and_last_seen Demo.params (Demo.gap_table 23) 1 23
           DemoFacts.assignment_valid).
Defined.

Lemma survivors_are_distinct_tracks_witness :
  (valid_assignment ∧
   self_df (Demo.ready (Some Demo.zone)) = Some (rows Demo.table)) ∧
  let self := Demo.ready (Some Demo.zone) in
  ∃ st result,
    frame_loop (params_of self) (rows Demo.table) loop_init
               (frame_range (start_frame self) (end_frame self)) = Ok st ∧
    tracking_result self = Ok result ∧
    NoDup (id_ <$> result) ∧
    id_ <$> result ⊆ id_ <$> heap st ∧
    (length result ≤ length (heap st))%nat.
Proof.
  split; [split; [exact DemoFacts.assignment_valid|done]|].
  exact (survivors_are_distinct_tracks (Demo.ready (Some Demo.zone))
           (rows Demo.table) DemoFacts.assignment_valid eq_refl).
Defined.

(** The batch of [Demo]: one file, one line. *)
Lemma second_run_writes_nothing_witness :
  track_insects Demo.disk (Demo.cli DemoViewer.zones, [])
  = Ok (DemoViewer.batch_done.1, DemoViewer.batch_done.2) ∧
  ∃ self2,
    track_insects Demo.disk
      (DemoViewer.batch_done.1, DemoViewer.batch_done.2)
    = Ok (self2, DemoViewer.batch_done.2).
Proof.
  assert (track_insects Demo.disk (Demo.cli DemoViewer.zones, [])
          = Ok (DemoViewer.batch_done.1, DemoViewer.batch_done.2)) as Hrun
    by (vm_compute; reflexivity).
  split; [exact Hrun|].
  exact (second_run_writes_nothing Demo.disk _ _ _ _ Hrun).
Defined.

Lemma stats_lines_name_the_files_witness :
  track_insects Demo.disk (Demo.cli DemoViewer.zones, [])
  = Ok (DemoViewer.batch_done.1, DemoViewer.batch_done.2) ∧
  ∃ more, DemoViewer.batch_done.2 = [] ++ more ∧
    (length more ≤ length (csv_files (Demo.cli DemoViewer.zones)))%nat ∧
    Forall (λ line, ∃ file fields,
                      file ∈ csv_files (Demo.cli DemoViewer.zones) ∧
                      length fields = 6%nat ∧
                      line = join_fields (basename file) fields) more.
Proof.
  assert (track_insects Demo.disk (Demo.cli DemoViewer.zones, [])
          = Ok (DemoViewer.batch_done.1, DemoViewer.batch_done.2)) as Hrun
    by (vm_compute; reflexivity).
  split; [exact Hrun|].
  exact (stats_lines_name_the_files Demo.disk _ _ _ _ Hrun).
Defined.

(** After [bees_20240601_101500.csv], the file [20240601_101500.csv] of
    another folder is taken for processed. *)
Lemma name_inside_recorded_name_is_skipped_witness :
  (process_file Demo.disk (Demo.cli DemoViewer.zones, []) Demo.path
   = Ok (DemoViewer.batch_done.1, DemoViewer.batch_done.2) ∧
   has_zone (ellipses (Demo.cli DemoViewer.zones))
            (get_date_from_filename Demo.path) = true ∧
   has_zone (ellipses (Demo.cli DemoViewer.zones))
            (get_date_from_filename DemoViewer.path) = true ∧
   contains (basename DemoViewer.path) (basename Demo.path) = true) ∧
  process_file Demo.disk (DemoViewer.batch_done.1, DemoViewer.batch_done.2)
    DemoViewer.path
  = Ok (reset_variables DemoViewer.batch_done.1, DemoViewer.batch_done.2).
Proof.
  assert (process_file Demo.disk (Demo.cli DemoViewer.zones, []) Demo.path
          = Ok (DemoViewer.batch_done.1, DemoViewer.batch_done.2)) as Hrun
    by (vm_compute; reflexivity).
  assert (has_zone (ellipses (Demo.cli DemoViewer.zones))
            (get_date_from_filename Demo.path) = true) as H1
    by (vm_compute; reflexivity).
  assert (has_zone (ellipses (Demo.cli DemoViewer.zones))
            (get_date_from_filename DemoViewer.path) = true) as H2
    by (vm_compute; reflexivity).
  assert (contains (basename DemoViewer.path) (basename Demo.path) = true)
    as H3 by (vm_compute; reflexivity).
  split; [by split_and!|].
  exact (name_inside_recorded_name_is_skipped Demo.disk _ _ _ _ _ _
           Hrun H1 H2 H3).
Defined.

Lemma time_is_year_and_month_witness :
  (Forall (λ c, is_digit c = false)
     (String.list_ascii_of_string "detected-bees/bees_") ∧
   Forall (λ c, is_digit c = true) (String.list_ascii_of_string "20240601") ∧
   String.length "20240601" = 8%nat) ∧
  get_date_from_filename ("detected-bees/bees_" +:+ "20240601" +:+ "_101500.csv")
  = Some "20240601" ∧
  get_time_from_filename ("detected-bees/bees_" +:+ "20240601" +:+ "_101500.csv")
  = Some (String.substring 0 6 "20240601").
Proof.
  assert (Forall (λ c, is_digit c = false)
            (String.list_ascii_of_string "detected-bees/bees_")) as H1
    by (repeat constructor).
  assert (Forall (λ c, is_digit c = true)
            (String.list_ascii_of_string "20240601")) as H2
    by (repeat constructor).
  split; [by split_and!|].
  exact (time_is_year_and_month "detected-bees/bees_" "20240601"
           "_101500.csv" H1 H2 eq_refl).
Defined.

Lemma loaded_table_is_read_once_witness :
  load_csv DemoViewer.disk DemoViewer.cli DemoViewer.path
  = Ok (true, DemoViewer.loaded) ∧
  let self' := DemoViewer.loaded in
  ∃ table, DemoViewer.disk DemoViewer.path = Some table ∧
    self_df self' = Some (rows table) ∧
    (5 ≤ length (rows table))%nat ∧
    start_frame self' + 5 ≤ end_frame self' ∧
    (∃ r, r ∈ rows table ∧ video_frame_id r = start_frame self') ∧
    (∃ r, r ∈ rows table ∧ video_frame_id r = end_frame self') ∧
    (∀ r, r ∈ rows table →
       start_frame self' ≤ video_frame_id r ≤ end_frame self') ∧
    mjoin (observations_of (rows table)
             <$> frame_range (start_frame self') (end_frame self')) ≡ₚ
    (λ r, (center_x r, center_y r)) <$> rows table.
Proof.
  assert (load_csv DemoViewer.disk DemoViewer.cli DemoViewer.path
          = Ok (true, DemoViewer.loaded)) as Hload
    by (vm_compute; reflexivity).
  split; [exact Hload|].
  exact (loaded_table_is_read_once DemoViewer.disk _ _ _ Hload).
Defined.

(** The run of [DemoViewer], written to an empty file and read back with
    the limit of 4300 digits. *)
Lemma viewer_reads_back_the_run_witness :
  (load_csv DemoViewer.disk DemoViewer.cli DemoViewer.path
   = Ok (true, DemoViewer.loaded) ∧
   track_insects_one_file DemoViewer.loaded = Ok DemoViewer.ran ∧
   basename DemoViewer.path = "20240601" +:+ "_" +:+ "101500" +:+ ".csv" ∧
   all_digits "20240601" = true ∧ String.length "20240601" = 8%nat ∧
   all_digits "101500" = true ∧ String.length "101500" = 6%nat ∧
   forallb number_char
     (String.list_ascii_of_string
        (DemoViewer.threshold_text
           (self_distance_threshold DemoViewer.ran))) = true ∧
   Z.of_nat (length (self_all_tracks DemoViewer.ran)) < 10 ^ 640 ∧
   ends_line "" = true ∧
   parse_tracking_data 4300 (readlines "") = Some []) ∧
  ∃ label after,
    format_time 4300 (Some "101500") = Some (Some label) ∧
    parse_tracking_data 4300
      (readlines (append_text ""
         (stats_text DemoViewer.threshold_text DemoViewer.ran)))
    = Some after ∧
    stored after (Some "20240601") (Some label) =
    Some [("Total Tracks",
           Some (Z.of_nat (length (self_all_tracks DemoViewer.ran))));
          ("Enter", Some (n_enter (counter DemoViewer.ran)));
          ("Exit", Some (n_exit (counter DemoViewer.ran)));
          ("Inside", Some (n_inside (counter DemoViewer.ran)));
          ("Outside", Some (n_outside (counter DemoViewer.ran)))]%string.
Proof.
  assert (load_csv DemoViewer.disk DemoViewer.cli DemoViewer.path
          = Ok (true, DemoViewer.loaded)) as Hload
    by (vm_compute; reflexivity).
  assert (track_insects_one_file DemoViewer.loaded = Ok DemoViewer.ran)
    as Hrun by (vm_compute; reflexivity).
  assert (basename DemoViewer.path
          = "20240601" +:+ "_" +:+ "101500" +:+ ".csv") as Hname
    by (vm_compute; reflexivity).
  assert (Z.of_nat (length (self_all_tracks DemoViewer.ran)) < 10 ^ 640)
    as Hlen by (vm_compute; reflexivity).
  split; [by split_and!|].
  exact (viewer_reads_back_the_run 4300 DemoViewer.threshold_text
           DemoViewer.disk DemoViewer.cli DemoViewer.loaded DemoViewer.ran
           DemoViewer.path "20240601" "101500" "" []
           Hload Hrun Hname eq_refl eq_refl eq_refl eq_refl eq_refl Hlen
           eq_refl eq_refl).
Defined.

(** The same run, followed by the block of a file without data. *)
Lemma file_without_data_repeats_the_counts_witness :
  (load_csv DemoViewer.disk DemoViewer.cli DemoViewer.path
   = Ok (true, DemoViewer.loaded) ∧
   track_insects_one_file DemoViewer.loaded = Ok DemoViewer.ran ∧
   basename DemoViewer.path = "20240601" +:+ "_" +:+ "101500" +:+ ".csv" ∧
   all_digits "20240601" = true ∧ String.length "20240601" = 8%nat ∧
   all_digits "101500" = true ∧ String.length "101500" = 6%nat ∧
   forallb number_char
     (String.list_ascii_of_string
        (DemoViewer.threshold_text
           (self_distance_threshold DemoViewer.ran))) = true ∧
   Z.of_nat (length (self_all_tracks DemoViewer.ran)) < 10 ^ 640 ∧
   ends_line "" = true ∧
   parse_tracking_data 4300 (readlines "") = Some [] ∧
   basename "detected-bees/20240601_111500.csv"
   = "20240601" +:+ "_" +:+ "111500" +:+ ".csv" ∧
   all_digits "111500" = true ∧ String.length "111500" = 6%nat) ∧
  ∃ after,
    parse_tracking_data 4300
      (readlines (append_text ""
         (stats_text DemoViewer.threshold_text DemoViewer.ran
            ++ no_data_text "detected-bees/20240601_111500.csv")))
    = Some after ∧
    stored after None None =
    Some [("Total Tracks",
           Some (Z.of_nat (length (self_all_tracks DemoViewer.ran))));
          ("Enter", Some (n_enter (counter DemoViewer.ran)));
          ("Exit", Some (n_exit (counter DemoViewer.ran)));
          ("Inside", Some (n_inside (counter DemoViewer.ran)));
          ("Outside", Some (n_outside (counter DemoViewer.ran)))]%string.
Proof.
  assert (load_csv DemoViewer.disk DemoViewer.cli DemoViewer.path
          = Ok (true, DemoViewer.loaded)) as Hload
    by (vm_compute; reflexivity).
  assert (track_insects_one_file DemoViewer.loaded = Ok DemoViewer.ran)
    as Hrun by (vm_compute; reflexivity).
  assert (basename DemoViewer.path
          = "20240601" +:+ "_" +:+ "101500" +:+ ".csv") as Hname
    by (vm_compute; reflexivity).
  assert (Z.of_nat (length (self_all_tracks DemoViewer.ran)) < 10 ^ 640)
    as Hlen by (vm_compute; reflexivity).
  assert (basename "detected-bees/20240601_111500.csv"
          = "20240601" +:+ "_" +:+ "111500" +:+ ".csv") as Hname'
    by (vm_compute; reflexivity).
  split; [by split_and!|].
  exact (file_without_data_repeats_the_counts 4300 DemoViewer.threshold_text
           DemoViewer.disk DemoViewer.cli DemoViewer.loaded DemoViewer.ran
           DemoViewer.path "20240601" "101500" ""
           "detected-bees/20240601_111500.csv" "20240601" "111500" []
           Hload Hrun Hname eq_refl eq_refl eq_refl eq_refl eq_refl Hlen
           eq_refl eq_refl Hname' eq_refl eq_refl eq_refl eq_refl).
Defined.

(** The file of the run of [DemoViewer] starts with the separator. *)
Lemma file_without_name_line_first_witness :
  (contains "CSV File" separator = false ∧
   parse_tracking_data 4300
     (separator :: tail (stats_text DemoViewer.threshold_text DemoViewer.ran))
   = Some [(None, [(None, [])]);
           (Some "20240601",
            [(Some "10:20 AM",
              [("Total Tracks", Some 1); ("Enter", Some 0);
               ("Exit", Some 0); ("Inside", Some 0);
               ("Outside", Some 1)])])]%string) ∧
  dict_has
    [(None, [(None, [])]);
     (Some "20240601",
      [(Some "10:20 AM",
        [("Total Tracks", Some 1); ("Enter", Some 0);
         ("Exit", Some 0); ("Inside", Some 0);
         ("Outside", Some 1)])])]%string None = true ∧
  is_Some (stored
    [(None, [(None, [])]);
     (Some "20240601",
      [(Some "10:20 AM",
        [("Total Tracks", Some 1); ("Enter", Some 0);
         ("Exit", Some 0); ("Inside", Some 0);
         ("Outside", Some 1)])])]%string None None).
Proof.
  assert (parse_tracking_data 4300
     (separator :: tail (stats_text DemoViewer.threshold_text DemoViewer.ran))
   = Some [(None, [(None, [])]);
           (Some "20240601",
            [(Some "10:20 AM",
              [("Total Tracks", Some 1); ("Enter", Some 0);
               ("Exit", Some 0); ("Inside", Some 0);
               ("Outside", Some 1)])])]%string) as Hparse
    by (vm_compute; reflexivity).
  split; [by split|].
  exact (file_without_name_line_first 4300 separator _ _ eq_refl Hparse).
Defined.

(** A recording of 6:55 is off the plot. *)
Lemma labels_of_the_plot_witness :
  (0 ≤ 6 < 24 ∧ 0 ≤ 55 < 60) ∧
  ∃ label grid,
    format_time 4300 (Some (pad2 6 +:+ pad2 55 +:+ "00"))
    = Some (Some label) ∧
    all_times 4300 = Some grid ∧
    (Some label ∈ grid ↔ 6 ≤ 6 ≤ 20 ∧ 55 < 55).
Proof.
  split; [lia|].
  exact (labels_of_the_plot 4300 6 55 "00" ltac:(lia) ltac:(lia)).
Defined.

(** A folder with three tables of two days, and a file that is no
    table. *)
Lemma folder_is_sorted_by_date_then_time_witness :
  load_csv_folder "detected-bees"
    ["bees_20240601_101500.csv"; "notes.txt"; "bees_20240602_090000.csv";
     "bees_20240601_111500.csv"]
  = Ok ["detected-bees/bees_20240602_090000.csv";
        "detected-bees/bees_20240601_101500.csv";
        "detected-bees/bees_20240601_111500.csv"] ∧
  let paths :=
    csv_paths "detected-bees"
      ["bees_20240601_101500.csv"; "notes.txt"; "bees_20240602_090000.csv";
       "bees_20240601_111500.csv"] in
  let files :=
    ["detected-bees/bees_20240602_090000.csv";
     "detected-bees/bees_20240601_101500.csv";
     "detected-bees/bees_20240601_111500.csv"] in
  files ≡ₚ paths ∧
  StronglySorted (λ a b, key_le (get_date_from_filename b)
                                (get_date_from_filename a)) files ∧
  (∀ d, StronglySorted
          (λ a b, key_le (get_time_from_filename b)
                         (get_time_from_filename a))
          (filter (λ f, get_date_from_filename f = d) files)) ∧
  (∀ d t, filter (λ f, get_date_from_filename f = d ∧
                       get_time_from_filename f = t) files =
          filter (λ f, get_date_from_filename f = d ∧
                       get_time_from_filename f = t) paths).
Proof.
  assert (load_csv_folder "detected-bees"
            ["bees_20240601_101500.csv"; "notes.txt";
             "bees_20240602_090000.csv"; "bees_20240601_111500.csv"]
          = Ok ["detected-bees/bees_20240602_090000.csv";
                "detected-bees/bees_20240601_101500.csv";
                "detected-bees/bees_20240601_111500.csv"]) as Hload
    by (vm_compute; reflexivity).
  split; [exact Hload|].
  exact (folder_is_sorted_by_date_then_time _ _ _ Hload).
Defined.

Lemma time_of_day_plays_no_part_witness :
  (load_csv_folder "detected-bees"
     ["bees_20240601_101500.csv"; "notes.txt"; "bees_20240602_090000.csv";
      "bees_20240601_111500.csv"]
   = Ok ["detected-bees/bees_20240602_090000.csv";
         "detected-bees/bees_20240601_101500.csv";
         "detected-bees/bees_20240601_111500.csv"] ∧
   ∀ f, f ∈ csv_paths "detected-bees"
              ["bees_20240601_101500.csv"; "notes.txt";
               "bees_20240602_090000.csv"; "bees_20240601_111500.csv"] →
     ∃ pre d rest, f = pre +:+ d +:+ rest ∧
       Forall (λ c, is_digit c = false) (String.list_ascii_of_string pre) ∧
       Forall (λ c, is_digit c = true) (String.list_ascii_of_string d) ∧
       String.length d = 8%nat) ∧
  ∀ d, filter (λ f, get_date_from_filename f = Some d)
              ["detected-bees/bees_20240602_090000.csv";
               "detected-bees/bees_20240601_101500.csv";
               "detected-bees/bees_20240601_111500.csv"] =
       filter (λ f, get_date_from_filename f = Some d)
              (csv_paths "detected-bees"
                 ["bees_20240601_101500.csv"; "notes.txt";
                  "bees_20240602_090000.csv"; "bees_20240601_111500.csv"]).
Proof.
  assert (load_csv_folder "detected-bees"
            ["bees_20240601_101500.csv"; "notes.txt";
             "bees_20240602_090000.csv"; "bees_20240601_111500.csv"]
          = Ok ["detected-bees/bees_20240602_090000.csv";
                "detected-bees/bees_20240601_101500.csv";
                "detected-bees/bees_20240601_111500.csv"]) as Hload
    by (vm_compute; reflexivity).
  assert (∀ f, f ∈ csv_paths "detected-bees"
              ["bees_20240601_101500.csv"; "notes.txt";
               "bees_20240602_090000.csv"; "bees_20240601_111500.csv"] →
     ∃ pre d rest, f = pre +:+ d +:+ rest ∧
       Forall (λ c, is_digit c = false) (String.list_ascii_of_string pre) ∧
       Forall (λ c, is_digit c = true) (String.list_ascii_of_string d) ∧
       String.length d = 8%nat) as Hnames.
  { intros f Hf.
    change (f ∈ ["detected-bees/bees_20240601_101500.csv";
                 "detected-bees/bees_20240602_090000.csv";
                 "detected-bees/bees_20240601_111500.csv"]) in Hf.
    exists "detected-bees/bees_".
    repeat (apply elem_of_cons in Hf as [->|Hf]);
      [exists "20240601", "_101500.csv"
      |exists "20240602", "_090000.csv"
      |exists "20240601", "_111500.csv"
      |by apply elem_of_nil in Hf];
      (split_and!; [done|repeat constructor|repeat constructor|done]). }
  split; [by split|].
  exact (time_of_day_plays_no_part _ _ _ Hload Hnames).
Defined.

End MoreWitnesses.
